(** * IoT dashboard backend (server.js): registry, scan history and fan-out

    A shallow embedding of [server.js]: the in-memory [state] object, the two
    message handlers [handleGPSMessage] and [handleRFIDMessage], the
    per-client MQTT callbacks, the Socket.IO connection handler and the REST
    queries.  JavaScript values are modelled as parsed JSON, numbers as IEEE
    binary64 floats, [Map] as an insertion-ordered association list compared
    with SameValueZero, and handlers as computations in a small
    state-and-exception monad over the server's world. *)

From Stdlib Require Import ZArith List String Ascii Bool Lia Permutation.
From Stdlib Require Import Floats.PrimFloat Floats.FloatOps Floats.SpecFloat.
From Stdlib Require Floats.FloatAxioms.
From Stdlib Require Import Numbers.Cyclic.Int63.Uint63.
Import ListNotations.

Local Open Scope string_scope.
Local Open Scope list_scope.
#[local] Set Warnings "-register-all".

(** ** JavaScript values *)

(** What [JSON.parse] can return, plus [undefined] (the value of a property
    that is not there).  An object is the list of its own properties. *)
Inductive value : Type :=
| VUndefined
| VNull
| VBool (b : bool)
| VNum (f : float)
| VStr (s : string)
| VArr (elems : list value)
| VObj (props : list (string * value)).

Fixpoint assoc (k : string) (props : list (string * value)) : value :=
  match props with
  | [] => VUndefined
  | (k', v) :: rest => if String.eqb k k' then v else assoc k rest
  end.

Definition hasOwn (k : string) (props : list (string * value)) : bool :=
  existsb (fun kv => String.eqb k (fst kv)) props.

(** [v.k] for the property names this program reads ([dID], [dTS], [lat],
    [lon], [uID], [msg], [clientId], [brokerUrl], [gpsTopic], [rfidTopic]):
    none of them is on a prototype, so only an object's own property counts. *)
Definition Get (v : value) (k : string) : value :=
  match v with
  | VObj props => assoc k props
  | _ => VUndefined
  end.

(** [x === undefined] *)
Definition is_undefined (v : value) : bool :=
  match v with VUndefined => true | _ => false end.

Definition is_nan (f : float) : bool := negb (PrimFloat.eqb f f).

(** ToBoolean (ECMA-262 7.1.2): what [!x] and [x || y] test. *)
Definition ToBoolean (v : value) : bool :=
  match v with
  | VUndefined | VNull => false
  | VBool b => b
  | VNum f => negb (PrimFloat.eqb f 0%float || is_nan f)
  | VStr s => negb (String.eqb s "")
  | VArr _ | VObj _ => true
  end.

(** [a || b] *)
Definition js_or (a b : value) : value := if ToBoolean a then a else b.

(** [topic === t] for a string [topic]. *)
Definition strict_eq_string (topic : string) (t : value) : bool :=
  match t with VStr s => String.eqb topic s | _ => false end.

(** SameValueZero on primitives (the key comparison of [Map]); arrays and
    objects are compared by reference, see [Key]. *)
Definition sameValueZero (x y : value) : bool :=
  match x, y with
  | VUndefined, VUndefined => true
  | VNull, VNull => true
  | VBool a, VBool b => Bool.eqb a b
  | VNum a, VNum b => PrimFloat.eqb a b || (is_nan a && is_nan b)
  | VStr a, VStr b => String.eqb a b
  | _, _ => false
  end.

Inductive Error : Type :=
| TypeError
| RangeError
| SyntaxError
| ConnectError.

Section Conversions.

(** The engine's two number/text conversions, taken as they are. *)
Variable StringToNumber : string -> float.
Variable Number_toString : float -> string.

Definition join_with (sep : string) (parts : list string) : string :=
  String.concat sep parts.

(** ToString (7.1.17) on parsed JSON.  A plain object prints as
    [[object Object]] unless it has an own property [toString], which
    parsed JSON can only make a non-function: then neither [toString] nor
    [valueOf] yields a primitive and a TypeError is thrown ([None]).  An
    array joins its elements with commas, [null] and [undefined] as the
    empty string. *)
Fixpoint ToString (v : value) : option string :=
  match v with
  | VUndefined => Some "undefined"
  | VNull => Some "null"
  | VBool true => Some "true"
  | VBool false => Some "false"
  | VNum f => Some (Number_toString f)
  | VStr s => Some s
  | VArr elems =>
      let fix parts (l : list value) : option (list string) :=
        match l with
        | [] => Some []
        | x :: rest =>
            match (match x with
                   | VUndefined | VNull => Some ""
                   | _ => ToString x
                   end), parts rest with
            | Some s, Some ss => Some (s :: ss)
            | _, _ => None
            end
        end in
      option_map (join_with ",") (parts elems)
  | VObj props => if hasOwn "toString" props then None else Some "[object Object]"
  end.

(** ToNumber (7.1.4): what [dTS * 1000] applies to [dTS]. *)
Definition ToNumber (v : value) : option float :=
  match v with
  | VUndefined => Some nan
  | VNull => Some 0%float
  | VBool true => Some 1%float
  | VBool false => Some 0%float
  | VNum f => Some f
  | VStr s => Some (StringToNumber s)
  | VArr _ | VObj _ => option_map StringToNumber (ToString v)
  end.

End Conversions.

(** ** Dates *)

(** A Date's time value: [Some ms] (integer milliseconds since the epoch) or
    [None] for an Invalid Date. *)
Definition Date := option Z.

Definition maxTime : Z := 8640000000000000.

(** [new Date(x)] for a number [x]: TimeClip (21.4.1.31). *)
Definition Date_new (x : float) : Date :=
  match Prim2SF x with
  | S754_zero _ => Some 0%Z
  | S754_finite neg m e =>
      let mag := if (0 <=? e)%Z then (Z.pos m * 2 ^ e)%Z
                 else Z.shiftr (Z.pos m) (- e) in
      if (maxTime <? mag)%Z then None
      else Some (if neg then (- mag)%Z else mag)
  | S754_infinity _ | S754_nan => None
  end.

Definition digit (n : Z) : string :=
  String (ascii_of_nat (48 + Z.to_nat (n mod 10))) "".

(** [n] in decimal, zero-padded to [w] digits. *)
Fixpoint pad (w : nat) (n : Z) : string :=
  match w with
  | O => ""
  | S w' => pad w' (n / 10) ++ digit n
  end.

(** Year, month and day of a day number (days since 1970-01-01) in the
    proleptic Gregorian calendar. *)
Definition civil (days : Z) : Z * Z * Z :=
  let z := (days + 719468)%Z in
  let era := (z / 146097)%Z in
  let doe := (z - era * 146097)%Z in
  let yoe := ((doe - doe / 1460 + doe / 36524 - doe / 146096) / 365)%Z in
  let doy := (doe - (365 * yoe + yoe / 4 - yoe / 100))%Z in
  let mp := ((5 * doy + 2) / 153)%Z in
  let d := (doy - (153 * mp + 2) / 5 + 1)%Z in
  let m := if (mp <? 10)%Z then (mp + 3)%Z else (mp - 9)%Z in
  let y := (yoe + era * 400 + (if (m <=? 2)%Z then 1 else 0))%Z in
  (y, m, d).

Definition isoYear (y : Z) : string :=
  if ((0 <=? y) && (y <=? 9999))%Z then pad 4 y
  else (if (y <? 0)%Z then "-" else "+") ++ pad 6 (Z.abs y).

(** The text of [toISOString] (21.4.4.36) for a valid time value. *)
Definition isoFormat (t : Z) : string :=
  let '(y, m, d) := civil (t / 86400000) in
  let ms := (t mod 86400000)%Z in
  isoYear y ++ "-" ++ pad 2 m ++ "-" ++ pad 2 d ++ "T"
    ++ pad 2 (ms / 3600000) ++ ":" ++ pad 2 (ms / 60000 mod 60) ++ ":"
    ++ pad 2 (ms / 1000 mod 60) ++ "." ++ pad 3 (ms mod 1000) ++ "Z".

(** [date.toISOString()]: a RangeError on an Invalid Date. *)
Definition Date_toISOString (d : Date) : Error + string :=
  match d with
  | Some t => inr (isoFormat t)
  | None => inl RangeError
  end.

(** A count as a JavaScript number. *)
Definition num_of_nat (n : nat) : float :=
  PrimFloat.of_uint63 (Uint63.of_Z (Z.of_nat n)).

(** ** [Map] *)

(** A [Map] key: a primitive, compared by SameValueZero, or an object or
    array, which is its reference. *)
Inductive Key : Type :=
| KPrim (v : value)
| KRef (r : nat).

Definition key_eqb (a b : Key) : bool :=
  match a, b with
  | KPrim x, KPrim y => sameValueZero x y
  | KRef r, KRef r' => Nat.eqb r r'
  | _, _ => false
  end.

(** A JavaScript [Map] with its insertion order: [set] on a key that is
    there replaces the value where it stands, a new key goes to the end. *)
Module JSMap.

Definition t (V : Type) : Type := list (Key * V).

Fixpoint get {V} (k : Key) (m : t V) : option V :=
  match m with
  | [] => None
  | (k', v) :: rest => if key_eqb k' k then Some v else get k rest
  end.

Fixpoint set {V} (k : Key) (v : V) (m : t V) : t V :=
  match m with
  | [] => [(k, v)]
  | (k', v') :: rest =>
      if key_eqb k' k then (k', v) :: rest
      else (k', v') :: set k v rest
  end.

Fixpoint delete {V} (k : Key) (m : t V) : t V :=
  match m with
  | [] => []
  | (k', v') :: rest =>
      if key_eqb k' k then rest else (k', v') :: delete k rest
  end.

Definition size {V} (m : t V) : nat := List.length m.
Definition keys {V} (m : t V) : list Key := map fst m.
Definition values {V} (m : t V) : list V := map snd m.

End JSMap.

(** ** The objects the server keeps and sends *)

Module Device.
(** The object stored per device; [{}] has every property undefined. *)
Record t : Type := mk {
  deviceId : value;
  latitude : value;
  longitude : value;
  timestamp : value;
  lastUpdate : value;
  raw : value
}.
Definition empty : t :=
  mk VUndefined VUndefined VUndefined VUndefined VUndefined VUndefined.
End Device.

Module Scan.
(** [scanData] *)
Record t : Type := mk {
  deviceId : value;
  tagUID : value;
  message : value;
  latitude : value;
  longitude : value;
  timestamp : value;
  scannedAt : string;
  rawPayload : value
}.
End Scan.

Module Conn.
(** An entry of [state.mqttConnections]; [client] is the handle of the
    MQTT client object. *)
Record t : Type := mk {
  client : nat;
  brokerUrl : value;
  gpsTopic : value;
  rfidTopic : value;
  connectedAt : Z
}.
End Conn.

(** [const state = { devices, rfidScans, mqttConnections, maxRFIDHistory }] *)
Record State : Type := mkState {
  devices : JSMap.t Device.t;
  rfidScans : list Scan.t;
  mqttConnections : JSMap.t Conn.t;
  maxRFIDHistory : nat
}.

Definition initialState : State := mkState [] [] [] 100.

(** What is emitted to a viewer, by event name. *)
Inductive Msg : Type :=
| initial_state (devs : list Device.t) (scans : list Scan.t) (time : string)
| mqtt_connected
| mqtt_status (status : string) (error : option Error)
| mqtt_error (error : Error)
| gps_update (deviceId latitude longitude timestamp lastUpdate rawPayload : value)
| rfid_scan (scanData : Scan.t).

(** An MQTT client made by [mqtt.connect], with the variables its callbacks
    close over ([clientId] as the key it makes in the connection table). *)
Module Client.
Record t : Type := mk {
  socket : nat;
  clientId : Key;
  gpsTopic : value;
  rfidTopic : value;
  ended : bool
}.
End Client.

Inductive Level : Type := LOG | WARN | ERROR.

(** The server and what surrounds it: the connected Socket.IO sockets (ids
    are handed out in order), the MQTT clients made so far (a client's
    handle is its index), the number of object references used as keys so
    far, every message emitted with the socket it went to, the console, and
    whether [process.exit] was called. *)
Record World : Type := mkWorld {
  state : State;
  sockets : list nat;
  nextSocket : nat;
  clients : list Client.t;
  nextRef : nat;
  outbox : list (nat * Msg);
  console : list (Level * string);
  exited : bool
}.

Definition initialWorld : World := mkWorld initialState [] 0 [] 0 [] [] false.

Definition with_state (f : State -> State) (w : World) : World :=
  mkWorld (f (state w)) (sockets w) (nextSocket w) (clients w) (nextRef w)
    (outbox w) (console w) (exited w).

Definition with_devices (f : JSMap.t Device.t -> JSMap.t Device.t) (s : State) : State :=
  mkState (f (devices s)) (rfidScans s) (mqttConnections s) (maxRFIDHistory s).

Definition with_rfidScans (f : list Scan.t -> list Scan.t) (s : State) : State :=
  mkState (devices s) (f (rfidScans s)) (mqttConnections s) (maxRFIDHistory s).

Definition with_mqttConnections (f : JSMap.t Conn.t -> JSMap.t Conn.t) (s : State) : State :=
  mkState (devices s) (rfidScans s) (f (mqttConnections s)) (maxRFIDHistory s).

(** ** Handlers as computations *)

(** How a piece of code ends: normally with a value, or by throwing. *)
Inductive Completion (A : Type) : Type :=
| Normal (a : A)
| Throw (e : Error).
Arguments Normal {A} a.
Arguments Throw {A} e.

Definition M (A : Type) : Type := World -> Completion A * World.

Definition ret {A} (a : A) : M A := fun w => (Normal a, w).

Definition bind {A B} (m : M A) (f : A -> M B) : M B :=
  fun w =>
    match m w with
    | (Normal a, w') => f a w'
    | (Throw e, w') => (Throw e, w')
    end.

Definition throw {A} (e : Error) : M A := fun w => (Throw e, w).

(** [try { body } catch (error) { handler }]: what [body] did before it
    threw stays done. *)
Definition try_catch {A} (body : M A) (handler : Error -> M A) : M A :=
  fun w =>
    match body w with
    | (Normal a, w') => (Normal a, w')
    | (Throw e, w') => handler e w'
    end.

Declare Scope js_scope.
Delimit Scope js_scope with js.
Notation "x <- c1 ;; c2" := (bind c1 (fun x => c2))
  (at level 61, c1 at next level, right associativity) : js_scope.
Notation "c1 ;; c2" := (bind c1 (fun _ => c2))
  (at level 61, right associativity) : js_scope.
Local Open Scope js_scope.

Definition get_state : M State := fun w => (Normal (state w), w).

Definition modify_state (f : State -> State) : M unit :=
  fun w => (Normal tt, with_state f w).

Definition lift_option {A} (e : Error) (o : option A) : M A :=
  match o with Some a => ret a | None => throw e end.

Definition lift_sum {A} (r : Error + A) : M A :=
  match r with inr a => ret a | inl e => throw e end.

(** [console.log], [console.warn], [console.error]: the fixed part of the
    line is kept. *)
Definition console_write (l : Level) (line : string) : M unit :=
  fun w => (Normal tt,
            mkWorld (state w) (sockets w) (nextSocket w) (clients w) (nextRef w)
              (outbox w) (console w ++ [(l, line)])%list (exited w)).

Definition send (deliveries : list (nat * Msg)) (w : World) : World :=
  mkWorld (state w) (sockets w) (nextSocket w) (clients w) (nextRef w)
    (outbox w ++ deliveries)%list (console w) (exited w).

(** [io.emit(...)]: to every connected socket. *)
Definition io_emit (m : Msg) : M unit :=
  fun w => (Normal tt, send (map (fun s => (s, m)) (sockets w)) w).

(** [socket.emit(...)]: to that socket, if it is still connected. *)
Definition socket_emit (s : nat) (m : Msg) : M unit :=
  fun w => (Normal tt,
            if existsb (Nat.eqb s) (sockets w) then send [(s, m)] w else w).

(** Destructuring [const { ... } = v] throws on [null] and [undefined]. *)
Definition RequireObjectCoercible (v : value) : M unit :=
  match v with
  | VUndefined | VNull => throw TypeError
  | _ => ret tt
  end.

(** [x.toFixed(4)]: only a number has the method. *)
Definition toFixed (v : value) : M unit :=
  match v with
  | VNum _ => ret tt
  | _ => throw TypeError
  end.

(** The key a value makes in a [Map].  Objects reach the server by parsing
    a message, so an object used as a key is a reference not seen before. *)
Definition key_of (v : value) : M Key :=
  match v with
  | VArr _ | VObj _ =>
      fun w => (Normal (KRef (nextRef w)),
                mkWorld (state w) (sockets w) (nextSocket w) (clients w)
                  (S (nextRef w)) (outbox w) (console w) (exited w))
  | _ => ret (KPrim v)
  end.

(** A property assignment on the local [device]: when [device] is the
    object the map holds (it was found under [k]), the map sees it. *)
Definition assign (stored : bool) (k : Key) (device : Device.t) : M unit :=
  if stored then modify_state (with_devices (JSMap.set k device)) else ret tt.

(** ** The REST queries *)

Definition device_json (d : Device.t) : value :=
  VObj [("deviceId", Device.deviceId d); ("latitude", Device.latitude d);
        ("longitude", Device.longitude d); ("timestamp", Device.timestamp d);
        ("lastUpdate", Device.lastUpdate d)].

Definition scan_json (s : Scan.t) : value :=
  VObj [("deviceId", Scan.deviceId s); ("tagUID", Scan.tagUID s);
        ("message", Scan.message s); ("latitude", Scan.latitude s);
        ("longitude", Scan.longitude s); ("timestamp", Scan.timestamp s);
        ("scannedAt", VStr (Scan.scannedAt s)); ("rawPayload", Scan.rawPayload s)].

(** [GET /api/devices] *)
Definition api_devices (st : State) : value :=
  let devs := map device_json (JSMap.values (devices st)) in
  VObj [("success", VBool true); ("count", VNum (num_of_nat (List.length devs)));
        ("devices", VArr devs)].

(** [GET /api/rfid-scans] *)
Definition api_rfid_scans (st : State) : value :=
  VObj [("success", VBool true);
        ("count", VNum (num_of_nat (List.length (rfidScans st))));
        ("scans", VArr (map scan_json (rfidScans st)))].

(** [GET /api/stats], asked at time [now]. *)
Definition api_stats (st : State) (now : Z) : value :=
  VObj [("success", VBool true);
        ("activeDevices", VNum (num_of_nat (JSMap.size (devices st))));
        ("totalScans", VNum (num_of_nat (List.length (rfidScans st))));
        ("mqttConnections", VNum (num_of_nat (JSMap.size (mqttConnections st))));
        ("timestamp", VStr (isoFormat now))].

(** ** The message handlers *)

Section Server.

Variable StringToNumber : string -> float.
Variable Number_toString : float -> string.

(** [${v}] inside a template literal. *)
Definition interpolate (v : value) : M unit :=
  _ <- lift_option TypeError (ToString Number_toString v) ;; ret tt.

(** [new Date(dTS * 1000).toISOString()] *)
Definition isoOfSeconds (dTS : value) : M string :=
  n <- lift_option TypeError (ToNumber StringToNumber Number_toString dTS) ;;
  lift_sum (Date_toISOString (Date_new (n * 1000)%float)).

(** The guard of [handleGPSMessage]:
    [!dID || lat === undefined || lon === undefined]. *)
Definition gps_invalid (payload : value) : bool :=
  negb (ToBoolean (Get payload "dID"))
  || is_undefined (Get payload "lat")
  || is_undefined (Get payload "lon").

Definition handleGPSMessage (payload : value) : M unit :=
  RequireObjectCoercible payload ;;
  let dID := Get payload "dID" in
  let dTS := Get payload "dTS" in
  let lat := Get payload "lat" in
  let lon := Get payload "lon" in
  if gps_invalid payload then
    console_write WARN "[GPS] Invalid payload - missing required fields:"
  else
    k <- key_of dID ;;
    st <- get_state ;;
    let found := JSMap.get k (devices st) in
    let stored := match found with Some _ => true | None => false end in
    let device := match found with Some d => d | None => Device.empty end in
    let device :=
      Device.mk dID lat lon dTS (Device.lastUpdate device) (Device.raw device) in
    assign stored k device ;;
    lastUpdate <- isoOfSeconds dTS ;;
    let device := Device.mk dID lat lon dTS (VStr lastUpdate) payload in
    assign stored k device ;;
    modify_state (with_devices (JSMap.set k device)) ;;
    io_emit (gps_update dID lat lon dTS (VStr lastUpdate) payload) ;;
    interpolate dID ;;
    toFixed lat ;;
    toFixed lon ;;
    console_write LOG "[GPS] Device".

(** The guard of [handleRFIDMessage]:
    [!dID || !uID || lat === undefined || lon === undefined]. *)
Definition rfid_invalid (payload : value) : bool :=
  negb (ToBoolean (Get payload "dID"))
  || negb (ToBoolean (Get payload "uID"))
  || is_undefined (Get payload "lat")
  || is_undefined (Get payload "lon").

Definition handleRFIDMessage (payload : value) : M unit :=
  RequireObjectCoercible payload ;;
  let dID := Get payload "dID" in
  let uID := Get payload "uID" in
  let msg := Get payload "msg" in
  let lat := Get payload "lat" in
  let lon := Get payload "lon" in
  let dTS := Get payload "dTS" in
  if rfid_invalid payload then
    console_write WARN "[RFID] Invalid payload - missing required fields:"
  else
    scannedAt <- isoOfSeconds dTS ;;
    let scanData :=
      Scan.mk dID uID (js_or msg (VStr "N/A")) lat lon dTS scannedAt payload in
    modify_state (with_rfidScans (cons scanData)) ;;
    st <- get_state ;;
    (if (maxRFIDHistory st <? List.length (rfidScans st))%nat
     then modify_state (with_rfidScans (@removelast Scan.t))
     else ret tt) ;;
    io_emit (rfid_scan scanData) ;;
    interpolate dID ;;
    interpolate uID ;;
    toFixed lat ;;
    toFixed lon ;;
    console_write LOG "[RFID] Device".

(** ** The MQTT client and its callbacks (inside [connect_mqtt]) *)

(** [mqtt.connect(brokerUrl, options)]: a new client, or an exception when
    the library cannot use the URL ([accepted] says which). *)
Definition mqtt_connect (accepted : bool) (c : Client.t) : M nat :=
  if accepted then
    fun w => (Normal (List.length (clients w)),
              mkWorld (state w) (sockets w) (nextSocket w)
                (clients w ++ [c])%list (nextRef w) (outbox w) (console w)
                (exited w))
  else throw ConnectError.

(** [mqttClient.on('connect', ...)], with the outcome of [subscribe].  The
    [brokerUrl] of its first line was printed by the request's own log line
    before the client was made, so it prints; the two topics of the line
    that follows a subscription are printed here for the first time. *)
Definition on_mqtt_connect (c : Client.t) (subscribeError : option Error) : M unit :=
  console_write LOG "[MQTT] Connected to" ;;
  match subscribeError with
  | Some _ => console_write ERROR "[MQTT] Subscribe error:"
  | None =>
      interpolate (Client.gpsTopic c) ;;
      interpolate (Client.rfidTopic c) ;;
      console_write LOG "[MQTT] Subscribed to topics:" ;;
      socket_emit (Client.socket c) mqtt_connected ;;
      io_emit (mqtt_status "connected" None)
  end.

(** [mqttClient.on('message', ...)]; [parsed] is what [JSON.parse] made of
    the message, [None] when it threw. *)
Definition on_mqtt_message (c : Client.t) (topic : string) (parsed : option value) : M unit :=
  try_catch
    (payload <- lift_option SyntaxError parsed ;;
     console_write LOG "[MQTT] Message on" ;;
     if strict_eq_string topic (Client.gpsTopic c) then handleGPSMessage payload
     else if strict_eq_string topic (Client.rfidTopic c) then handleRFIDMessage payload
     else ret tt)
    (fun error => console_write ERROR "[MQTT] Error parsing message:").

(** [mqttClient.on('error', ...)] *)
Definition on_mqtt_error (c : Client.t) (error : Error) : M unit :=
  console_write ERROR "[MQTT] Error:" ;;
  socket_emit (Client.socket c) (mqtt_error error) ;;
  io_emit (mqtt_status "error" (Some error)).

(** [mqttClient.on('offline', ...)] *)
Definition on_mqtt_offline (c : Client.t) : M unit :=
  console_write LOG "[MQTT] Offline" ;;
  io_emit (mqtt_status "offline" None).

(** [mqttClient.on('close', ...)] *)
Definition on_mqtt_close (c : Client.t) : M unit :=
  console_write LOG "[MQTT] Connection closed" ;;
  modify_state (with_mqttConnections (JSMap.delete (Client.clientId c))).

(** ** The Socket.IO handlers *)

(** [socket.on('connect_mqtt', ...)] *)
Definition on_connect_mqtt (socket : nat) (config : value) (now : Z) (accepted : bool) : M unit :=
  RequireObjectCoercible config ;;
  let clientId := Get config "clientId" in
  let brokerUrl := Get config "brokerUrl" in
  let gpsTopic := Get config "gpsTopic" in
  let rfidTopic := Get config "rfidTopic" in
  interpolate brokerUrl ;;
  interpolate clientId ;;
  console_write LOG "[MQTT] Connecting to" ;;
  try_catch
    (interpolate clientId ;;
     k <- key_of clientId ;;
     mqttClient <- mqtt_connect accepted (Client.mk socket k gpsTopic rfidTopic false) ;;
     modify_state
       (with_mqttConnections
          (JSMap.set k (Conn.mk mqttClient brokerUrl gpsTopic rfidTopic now))))
    (fun error =>
       console_write ERROR "[MQTT] Connection error:" ;;
       socket_emit socket (mqtt_error error)).

(** Socket.IO accepts a connection: the new socket gets the next id. *)
Definition accept_socket : M nat :=
  fun w => (Normal (nextSocket w),
            mkWorld (state w) (sockets w ++ [nextSocket w])%list
              (S (nextSocket w)) (clients w) (nextRef w) (outbox w)
              (console w) (exited w)).

(** [io.on('connection', ...)]: the new socket is sent the initial state. *)
Definition on_connection (now : Z) : M unit :=
  socket <- accept_socket ;;
  console_write LOG "[WebSocket] Client connected:" ;;
  st <- get_state ;;
  socket_emit socket
    (initial_state (JSMap.values (devices st)) (rfidScans st) (isoFormat now)).

(** The socket has left. *)
Definition drop_socket (socket : nat) : M unit :=
  fun w => (Normal tt,
            mkWorld (state w) (filter (fun s => negb (Nat.eqb s socket)) (sockets w))
              (nextSocket w) (clients w) (nextRef w) (outbox w) (console w)
              (exited w)).

(** [socket.on('disconnect', ...)] *)
Definition on_disconnect (socket : nat) : M unit :=
  drop_socket socket ;;
  console_write LOG "[WebSocket] Client disconnected:".

(** [client.end()] on the client with handle [h]. *)
Fixpoint end_client (h : nat) (cs : list Client.t) : list Client.t :=
  match cs, h with
  | [], _ => []
  | c :: rest, O =>
      Client.mk (Client.socket c) (Client.clientId c) (Client.gpsTopic c)
        (Client.rfidTopic c) true :: rest
  | c :: rest, S h' => c :: end_client h' rest
  end.

(** [state.mqttConnections.forEach((conn) => conn.client.end())] *)
Definition end_clients : M unit :=
  fun w => (Normal tt,
            mkWorld (state w) (sockets w) (nextSocket w)
              (fold_left (fun cs conn => end_client (Conn.client conn) cs)
                 (JSMap.values (mqttConnections (state w))) (clients w))
              (nextRef w) (outbox w) (console w) (exited w)).

(** [process.on('SIGTERM', ...)]: every connection in the table is ended
    (the exit that follows once the HTTP server has closed is left out). *)
Definition on_SIGTERM : M unit :=
  console_write LOG "SIGTERM received, shutting down gracefully..." ;;
  end_clients.

(** ** The server as a transition system *)

Inductive Event : Type :=
| Connection (now : Z)
| Disconnect (socket : nat)
| ConnectMqtt (socket : nat) (config : value) (now : Z) (accepted : bool)
| MqttConnect (client : nat) (subscribeError : option Error)
| MqttMessage (client : nat) (topic : string) (parsed : option value)
| MqttError (client : nat) (error : Error)
| MqttOffline (client : nat)
| MqttClose (client : nat)
| SIGTERM.

(** The callbacks of client [h]; a client that was ended only closes. *)
Definition with_client (h : nat) (also_ended : bool) (f : Client.t -> M unit) : M unit :=
  fun w =>
    match nth_error (clients w) h with
    | Some c => if Client.ended c && negb also_ended then (Normal tt, w) else f c w
    | None => (Normal tt, w)
    end.

Definition dispatch (ev : Event) : M unit :=
  match ev with
  | Connection now => on_connection now
  | Disconnect socket => on_disconnect socket
  | ConnectMqtt socket config now accepted =>
      fun w =>
        if existsb (Nat.eqb socket) (sockets w)
        then on_connect_mqtt socket config now accepted w
        else (Normal tt, w)
  | MqttConnect h err => with_client h false (fun c => on_mqtt_connect c err)
  | MqttMessage h topic parsed =>
      with_client h false (fun c => on_mqtt_message c topic parsed)
  | MqttError h e => with_client h false (fun c => on_mqtt_error c e)
  | MqttOffline h => with_client h false on_mqtt_offline
  | MqttClose h => with_client h true on_mqtt_close
  | SIGTERM => on_SIGTERM
  end.

(** [process.on('uncaughtException', ...)]: log and [process.exit(1)]. *)
Definition uncaughtException (w : World) : World :=
  mkWorld (state w) (sockets w) (nextSocket w) (clients w) (nextRef w)
    (outbox w) (console w ++ [(ERROR, "[Error] Uncaught Exception:")])%list true.

Definition step (w : World) (ev : Event) : World :=
  if exited w then w
  else match dispatch ev w with
       | (Normal _, w') => w'
       | (Throw _, w') => uncaughtException w'
       end.

Definition run (w : World) (evs : list Event) : World := fold_left step evs w.

(** The world a computation leaves, however it ends. *)
Definition exec {A} (m : M A) (w : World) : World := snd (m w).

(** Applying a list of payloads with one handler, in order. *)
Definition apply_all (handler : value -> M unit) (payloads : list value) (w : World) : World :=
  fold_left (fun w p => exec (handler p) w) payloads w.

(** ** Payloads the handlers apply *)

(** [new Date(dTS * 1000).toISOString()] returns. *)
Definition timestamp_ok (dTS : value) : bool :=
  match ToNumber StringToNumber Number_toString dTS with
  | Some n => match Date_new (n * 1000)%float with Some _ => true | None => false end
  | None => false
  end.

(** The text [new Date(dTS * 1000).toISOString()] returns (empty when it
    does not return). *)
Definition isoText (dTS : value) : string :=
  match ToNumber StringToNumber Number_toString dTS with
  | Some n => match Date_new (n * 1000)%float with Some t => isoFormat t | None => "" end
  | None => ""
  end.

(** A scan event the handler records: it passes the guard and its
    timestamp makes a date. *)
Definition valid_rfid (payload : value) : bool :=
  negb (rfid_invalid payload) && timestamp_ok (Get payload "dTS").

(** The [scanData] object made for [payload]. *)
Definition scanData_of (payload : value) : Scan.t :=
  Scan.mk (Get payload "dID") (Get payload "uID")
    (js_or (Get payload "msg") (VStr "N/A"))
    (Get payload "lat") (Get payload "lon") (Get payload "dTS")
    (isoText (Get payload "dTS")) payload.

Definition is_string (v : value) : bool :=
  match v with VStr _ => true | _ => false end.

(** A position event the handler applies, with a string [dID]. *)
Definition valid_gps (payload : value) : bool :=
  negb (gps_invalid payload) && is_string (Get payload "dID")
  && timestamp_ok (Get payload "dTS").

(** The text of a string [dID]. *)
Definition dID_of (payload : value) : string :=
  match Get payload "dID" with VStr s => s | _ => "" end.

(** The last payload of [payloads] with device id [id]. *)
Definition last_for (id : string) (payloads : list value) : option value :=
  find (fun p => String.eqb (dID_of p) id) (rev payloads).

(** The [gps_update] broadcast for [payload]. *)
Definition gps_update_of (payload : value) : Msg :=
  gps_update (Get payload "dID") (Get payload "lat") (Get payload "lon")
    (Get payload "dTS") (VStr (isoText (Get payload "dTS"))) payload.

(** * Notions used in the statements *)

(** A relation between the world before and after that every step of a
    computation keeps. *)
Definition keeps {A} (R : World -> World -> Prop) (m : M A) : Prop :=
  forall w, R w (snd (m w)).

(** The device map is the same. *)
Definition same_devices (w w' : World) : Prop :=
  devices (state w') = devices (state w).

(** The registry (device map and scan log) is the same. *)
Definition same_registry (w w' : World) : Prop :=
  devices (state w') = devices (state w) /\ rfidScans (state w') = rfidScans (state w).

(** Everything but the console is the same. *)
Definition only_console (w w' : World) : Prop :=
  state w' = state w /\ sockets w' = sockets w /\ nextSocket w' = nextSocket w
  /\ clients w' = clients w /\ nextRef w' = nextRef w /\ outbox w' = outbox w
  /\ exited w' = exited w.

(** [unshift] followed by the bounded [pop]. *)
Definition push (limit : nat) (scan : Scan.t) (log : list Scan.t) : list Scan.t :=
  if (limit <? List.length (scan :: log))%nat then removelast (scan :: log)
  else scan :: log.

(** The key [key_of] returns and the world it leaves. *)
Definition key_in (v : value) (w : World) : Key :=
  match v with
  | VArr _ | VObj _ => KRef (nextRef w)
  | _ => KPrim v
  end.

Definition after_key (v : value) (w : World) : World :=
  match v with
  | VArr _ | VObj _ =>
      mkWorld (state w) (sockets w) (nextSocket w) (clients w) (S (nextRef w))
        (outbox w) (console w) (exited w)
  | _ => w
  end.

(** The device object [handleGPSMessage] stores for [payload]. *)
Definition device_of (payload : value) : Device.t :=
  Device.mk (Get payload "dID") (Get payload "lat") (Get payload "lon")
    (Get payload "dTS") (VStr (isoText (Get payload "dTS"))) payload.

Definition string_key (s : string) : Key := KPrim (VStr s).

(** The device ids a map is keyed by, in insertion order. *)
Definition ids_of {V} (m : JSMap.t V) : list string :=
  map (fun kv => match fst kv with KPrim (VStr s) => s | _ => "" end) m.

Definition string_keyed {V} (m : JSMap.t V) : Prop :=
  Forall (fun kv => exists s, fst kv = string_key s) m.

(** What the device map holds after the payloads [seen], applied in order
    to an empty map. *)
Definition registry_of (seen : list value) (m : JSMap.t Device.t) : Prop :=
  string_keyed m
  /\ NoDup (ids_of m)
  /\ (forall s, In s (ids_of m) <-> In s (map dID_of seen))
  /\ (forall id p, last_for id seen = Some p ->
                   JSMap.get (string_key id) m = Some (device_of p)).

(** [dID], [lat] or [lon] is not in the payload. *)
Definition gps_missing (payload : value) : bool :=
  is_undefined (Get payload "dID") || is_undefined (Get payload "lat")
  || is_undefined (Get payload "lon").

(** [dID], [uID], [lat] or [lon] is not in the payload. *)
Definition rfid_missing (payload : value) : bool :=
  is_undefined (Get payload "dID") || is_undefined (Get payload "uID")
  || is_undefined (Get payload "lat") || is_undefined (Get payload "lon").

(** The console only gained [console.log] lines. *)
Definition logs_only (w w' : World) : Prop :=
  exists lines,
    console w' = (console w ++ lines)%list /\ Forall (fun l => fst l = LOG) lines.

(** The values [!v] holds for. *)
Definition falsy (v : value) : Prop :=
  v = VUndefined \/ v = VNull \/ v = VBool false \/ v = VStr ""
  \/ exists f, v = VNum f /\ (PrimFloat.eqb f 0%float || is_nan f) = true.

Definition coercible (v : value) : bool :=
  match v with VUndefined | VNull => false | _ => true end.

(** A coordinate that is there and is [0], [null] or a string. *)
Definition zero_null_or_text (v : value) : Prop :=
  v = VNum 0%float \/ v = VNull \/ exists s, v = VStr s.

(** Connecting, the client's status callbacks, its close and the shutdown:
    the life of a bus connection. *)
Definition bus_lifecycle (ev : Event) : bool :=
  match ev with
  | ConnectMqtt _ _ _ _ | MqttConnect _ _ | MqttError _ _ | MqttOffline _
  | MqttClose _ | SIGTERM => true
  | Connection _ | Disconnect _ | MqttMessage _ _ _ => false
  end.

(** A relation kept by the steps that do not write the state. *)
Definition kept_outside_state (R : World -> World -> Prop) : Prop :=
  (forall l line, keeps R (console_write l line))
  /\ (forall m, keeps R (io_emit m))
  /\ (forall s m, keeps R (socket_emit s m))
  /\ (forall v, keeps R (key_of v))
  /\ (forall accepted c, keeps R (mqtt_connect accepted c))
  /\ keeps R accept_socket
  /\ (forall s, keeps R (drop_socket s))
  /\ keeps R end_clients
  /\ (forall w, R w (uncaughtException w)).

(** No key of the map matches a later one: one entry per key. *)
Fixpoint distinct_keys {V} (m : JSMap.t V) : Prop :=
  match m with
  | [] => True
  | (k, _) :: rest =>
      (forall k', In k' (JSMap.keys rest) -> key_eqb k k' = false)
      /\ distinct_keys rest
  end.

(** The connection table stays one entry per key. *)
Definition table_stays_distinct (w w' : World) : Prop :=
  distinct_keys (mqttConnections (state w)) ->
  distinct_keys (mqttConnections (state w')).

(** [ToString] returns. *)
Definition printable (v : value) : bool :=
  match ToString Number_toString v with Some _ => true | None => false end.

(** Clients that were not ended. *)
Definition live_clients (w : World) : list Client.t :=
  filter (fun c => negb (Client.ended c)) (clients w).

(** The messages emitted to socket [sid], in order. *)
Definition inbox (sid : nat) (w : World) : list Msg :=
  map snd (filter (fun d => Nat.eqb (fst d) sid) (outbox w)).

(** Socket ids are handed out once: those in use and those written on the
    outbox are below the next one. *)
Definition fresh (w : World) : Prop :=
  (forall s, In s (sockets w) -> s < nextSocket w)
  /\ NoDup (sockets w)
  /\ (forall s m, In (s, m) (outbox w) -> s < nextSocket w).

Definition stays_fresh (w w' : World) : Prop := fresh w -> fresh w'.

(** A position event the handler applies. *)
Definition applied_gps (payload : value) : bool :=
  negb (gps_invalid payload) && timestamp_ok (Get payload "dTS").



(** The two updates of the registry that are broadcast. *)
Definition is_update (m : Msg) : bool :=
  match m with
  | gps_update _ _ _ _ _ _ | rfid_scan _ => true
  | _ => false
  end.





(** The scan log is within its bound of 100. *)
Definition log_bounded (w : World) : Prop :=
  maxRFIDHistory (state w) = 100 /\ List.length (rfidScans (state w)) <= 100.

Definition stays_bounded (w w' : World) : Prop := log_bounded w -> log_bounded w'.

(** ** Notions for connections, viewers and queries *)

(** [typeof v === 'number']: the values that have [toFixed]. *)
Definition is_number (v : value) : bool :=
  match v with VNum _ => true | _ => false end.

(** The connection table has an entry for the client with handle [h]. *)
Definition tracked (h : nat) (table : JSMap.t Conn.t) : bool :=
  existsb (fun conn => Nat.eqb (Conn.client conn) h) (JSMap.values table).

(** The viewers, the clients, the connection table and the bound of the
    scan log are the same, and the process is where it was. *)
Definition same_connections (w w' : World) : Prop :=
  exited w' = exited w /\ sockets w' = sockets w /\ nextSocket w' = nextSocket w
  /\ clients w' = clients w
  /\ mqttConnections (state w') = mqttConnections (state w)
  /\ maxRFIDHistory (state w') = maxRFIDHistory (state w).

(** The scan log is the same. *)
Definition same_scans (w w' : World) : Prop :=
  rfidScans (state w') = rfidScans (state w).

(** The keys of the device map are those it had, in their order, followed
    by new ones. *)
Definition devices_extend (w w' : World) : Prop :=
  exists added,
    JSMap.keys (devices (state w')) = (JSMap.keys (devices (state w)) ++ added)%list.

(** The same for the connection table. *)
Definition table_extends (w w' : World) : Prop :=
  exists added,
    JSMap.keys (mqttConnections (state w'))
    = (JSMap.keys (mqttConnections (state w)) ++ added)%list.

Definition is_close (ev : Event) : bool :=
  match ev with MqttClose _ => true | _ => false end.

(** A device record with what the guard asks for and a date made: a
    truthy [deviceId], a [latitude] and a [longitude] that are not
    [undefined], and a string as [lastUpdate]. *)
Definition device_ok (d : Device.t) : bool :=
  ToBoolean (Device.deviceId d) && negb (is_undefined (Device.latitude d))
  && negb (is_undefined (Device.longitude d)) && is_string (Device.lastUpdate d).

Definition devices_stay_ok (w w' : World) : Prop :=
  forallb device_ok (JSMap.values (devices (state w))) = true ->
  forallb device_ok (JSMap.values (devices (state w'))) = true.

(** A scan record that is the one the handler makes of its own
    [rawPayload], a payload the handler records. *)
Definition recorded (s : Scan.t) : Prop :=
  valid_rfid (Scan.rawPayload s) = true /\ s = scanData_of (Scan.rawPayload s).

Definition scans_stay_recorded (w w' : World) : Prop :=
  Forall recorded (rfidScans (state w)) -> Forall recorded (rfidScans (state w')).

(** Socket [sid] was connected once and is not now. *)
Definition gone (sid : nat) (w : World) : Prop :=
  ~ In sid (sockets w) /\ sid < nextSocket w.

(** A socket that is gone stays gone and is sent nothing. *)
Definition stays_silent (sid : nat) (w w' : World) : Prop :=
  gone sid w -> gone sid w' /\ inbox sid w' = inbox sid w.

(** The ids of a list in the order of their first appearance. *)
Fixpoint first_seen (ids : list string) : list string :=
  match ids with
  | [] => []
  | s :: rest => s :: filter (fun x => negb (String.eqb x s)) (first_seen rest)
  end.

(** A scan record with what the guard asks for: truthy [deviceId],
    [tagUID] and [message], a [latitude] and a [longitude] that are not
    [undefined]. *)
Definition scan_ok (s : Scan.t) : bool :=
  ToBoolean (Scan.deviceId s) && ToBoolean (Scan.tagUID s) && ToBoolean (Scan.message s)
  && negb (is_undefined (Scan.latitude s)) && negb (is_undefined (Scan.longitude s)).

(** The values [JSON.parse] returns by reference: arrays and objects. *)
Definition is_reference (v : value) : bool :=
  match v with VArr _ | VObj _ => true | _ => false end.

(** Every reference that is a key of the device map was handed out
    before. *)
Definition refs_used (w : World) : Prop :=
  forall r, In (KRef r) (JSMap.keys (devices (state w))) -> r < nextRef w.

Definition refs_stay_used (w w' : World) : Prop := refs_used w -> refs_used w'.

(** The scan log stays within its bound and loses no length. *)
Definition log_grows (w w' : World) : Prop :=
  log_bounded w ->
  log_bounded w'
  /\ List.length (rfidScans (state w)) <= List.length (rfidScans (state w')).

(** ** Notions for what a snapshot reflects *)











(** * Sample data *)

(** The concrete runs carry numbers where numbers are converted and
    strings where text is printed, so the engine's two conversions are
    never called; they are given constant answers. *)
Definition sampleStringToNumber (s : string) : float := nan.
Definition sampleNumber_toString (f : float) : string := "0".

Definition gpsPayload (dID : string) (dTS lat lon : value) : value :=
  VObj [("dID", VStr dID); ("dTS", dTS); ("lat", lat); ("lon", lon)].

Definition rfidPayload (dID : string) (uID msg dTS lat lon : value) : value :=
  VObj [("dID", VStr dID); ("uID", uID); ("msg", msg); ("lat", lat); ("lon", lon);
        ("dTS", dTS)].

(** Scan [n] of device_001, its tag numbered [n]. *)
Definition scanNumber (n : nat) : value :=
  rfidPayload "device_001" (VNum (num_of_nat n)) (VStr "Package")
    (VNum 1701266400%float) (VNum 12.9375%float) (VNum 77.625%float).

(** Scans 1 to 101, in order. *)
Definition scans101 : list value := map scanNumber (seq 1 101).

Definition dashboardConfig (clientId : string) : value :=
  VObj [("clientId", VStr clientId); ("brokerUrl", VStr "mqtt://broker:1883");
        ("gpsTopic", VStr "devices/gps"); ("rfidTopic", VStr "devices/rfid")].

(** A viewer connects and asks for a bus connection as client "a". *)
Definition oneConnection : list Event :=
  [Connection 1701266400000; ConnectMqtt 0 (dashboardConfig "a") 1701266401000 true].

Definition firstPosition : value :=
  gpsPayload "device_001" (VNum 1701266400%float) (VNum 12.9375%float)
    (VNum 77.625%float).

Definition otherPosition : value :=
  gpsPayload "device_002" (VNum 1701266400%float) (VNum 28.625%float)
    (VNum 77.25%float).

(** A later arrival for device_001 with an older timestamp. *)
Definition latePosition : value :=
  gpsPayload "device_001" (VNum 1701266000%float) (VNum 13%float)
    (VNum 77.625%float).

Definition noTimestamp : value :=
  VObj [("dID", VStr "device_001"); ("uID", VStr "tag_001");
        ("lat", VNum 12.9375%float); ("lon", VNum 77.625%float)].

Definition textLatitude : value :=
  VObj [("dID", VStr "device_001"); ("uID", VStr "tag_001");
        ("dTS", VNum 1701266400%float); ("lat", VStr "abc");
        ("lon", VNum 77.625%float)].

Definition noLatitude : value :=
  VObj [("dID", VStr "device_001"); ("dTS", VNum 1701266400%float);
        ("lon", VNum 77.625%float)].

Definition zeroPosition : value :=
  VObj [("dID", VStr "device_001"); ("uID", VStr "tag_001");
        ("dTS", VNum 1701266400%float); ("lat", VNum 0%float); ("lon", VNull)].

Definition busClient : Client.t :=
  Client.mk 0 (KPrim (VStr "a")) (VStr "devices/gps") (VStr "devices/rfid") false.

(** A second connect request, as client "b". *)
Definition twoConnections : list Event :=
  (oneConnection ++ [ConnectMqtt 0 (dashboardConfig "b") 1701266402000 true])%list.

(** A second connect request under the clientId "a" of the first. *)
Definition sameClientTwice : list Event :=
  (oneConnection ++ [ConnectMqtt 0 (dashboardConfig "a") 1701266402000 true])%list.

(** A position whose [dID] is an object. *)
Definition objectIdPosition : value :=
  VObj [("dID", VObj [("name", VStr "device_001")]); ("dTS", VNum 1701266400%float);
        ("lat", VNum 12.9375%float); ("lon", VNum 77.625%float)].

(** A position of device_001 whose [dTS] is beyond the range of dates. *)
Definition farFuturePosition : value :=
  gpsPayload "device_001" (VNum 8640000000001%float) (VNum 13%float)
    (VNum 77.625%float).

(** A client whose two topics are the same. *)
Definition oneTopicClient : Client.t :=
  Client.mk 0 (KPrim (VStr "a")) (VStr "devices/all") (VStr "devices/all") false.

(** A config whose GPS topic is an object that does not print. *)
Definition unprintableTopicConfig : value :=
  VObj [("clientId", VStr "a"); ("brokerUrl", VStr "mqtt://broker:1883");
        ("gpsTopic", VObj [("toString", VNum 1%float)]);
        ("rfidTopic", VStr "devices/rfid")].

Definition unprintableTopicClient : Client.t :=
  Client.mk 0 (KPrim (VStr "a")) (VObj [("toString", VNum 1%float)])
    (VStr "devices/rfid") false.

(** * Properties *)

(** ** Running computations *)

Lemma bind_ret {A B} (a : A) (f : A -> M B) : bind (ret a) f = f a.
Proof. reflexivity. Qed.

Lemma bind_run {A B} (m : M A) (f : A -> M B) (w : World) :
  bind m f w =
  match m w with
  | (Normal a, w') => f a w'
  | (Throw e, w') => (Throw e, w')
  end.
Proof. reflexivity. Qed.

Section Frame.

Variable R : World -> World -> Prop.
Hypothesis R_refl : forall w, R w w.
Hypothesis R_trans : forall a b c, R a b -> R b c -> R a c.

Lemma keeps_ret {A} (a : A) : keeps R (ret a).
Proof. intros w. apply R_refl. Qed.

Lemma keeps_throw {A} (e : Error) : keeps R (@throw A e).
Proof. intros w. apply R_refl. Qed.

Lemma keeps_bind {A B} (m : M A) (f : A -> M B) :
  keeps R m -> (forall a, keeps R (f a)) -> keeps R (bind m f).
Proof.
  intros Hm Hf w. rewrite bind_run. specialize (Hm w).
  destruct (m w) as [[a | e] w']; simpl in *.
  - eapply R_trans; [exact Hm | apply Hf].
  - exact Hm.
Qed.

Lemma keeps_try_catch {A} (body : M A) (handler : Error -> M A) :
  keeps R body -> (forall e, keeps R (handler e)) -> keeps R (try_catch body handler).
Proof.
  intros Hb Hh w. unfold try_catch. specialize (Hb w).
  destruct (body w) as [[a | e] w']; simpl in *.
  - exact Hb.
  - eapply R_trans; [exact Hb | apply Hh].
Qed.

Lemma keeps_lift_option {A} (e : Error) (o : option A) : keeps R (lift_option e o).
Proof. destruct o; [apply keeps_ret | apply keeps_throw]. Qed.

Lemma keeps_lift_sum {A} (r : Error + A) : keeps R (lift_sum r).
Proof. destruct r; [apply keeps_throw | apply keeps_ret]. Qed.

Lemma keeps_RequireObjectCoercible (v : value) : keeps R (RequireObjectCoercible v).
Proof. destruct v; first [apply keeps_ret | apply keeps_throw]. Qed.

Lemma keeps_toFixed (v : value) : keeps R (toFixed v).
Proof. destruct v; first [apply keeps_ret | apply keeps_throw]. Qed.

Lemma keeps_get_state : keeps R get_state.
Proof. intros w. apply R_refl. Qed.

Lemma keeps_interpolate (v : value) : keeps R (interpolate v).
Proof.
  apply keeps_bind; [apply keeps_lift_option | intros; apply keeps_ret].
Qed.

Lemma keeps_isoOfSeconds (v : value) : keeps R (isoOfSeconds v).
Proof.
  apply keeps_bind; [apply keeps_lift_option | intros; apply keeps_lift_sum].
Qed.

End Frame.

(** Relations that only look at [state]: whatever leaves the state alone
    keeps them. *)
Section StateFrame.

Variable R : World -> World -> Prop.
Hypothesis R_state : forall w w', state w' = state w -> R w w'.

Lemma keeps_console_write (l : Level) (line : string) : keeps R (console_write l line).
Proof. intros w. apply R_state. reflexivity. Qed.

Lemma keeps_io_emit (m : Msg) : keeps R (io_emit m).
Proof. intros w. apply R_state. reflexivity. Qed.

Lemma keeps_socket_emit (s : nat) (m : Msg) : keeps R (socket_emit s m).
Proof.
  intros w. apply R_state. unfold socket_emit. simpl.
  destruct (existsb (Nat.eqb s) (sockets w)); reflexivity.
Qed.

Lemma keeps_key_of (v : value) : keeps R (key_of v).
Proof. intros w. apply R_state. destruct v; reflexivity. Qed.

Lemma keeps_mqtt_connect (accepted : bool) (c : Client.t) : keeps R (mqtt_connect accepted c).
Proof. intros w. apply R_state. destruct accepted; reflexivity. Qed.

Lemma keeps_accept_socket : keeps R accept_socket.
Proof. intros w. apply R_state. reflexivity. Qed.

Lemma keeps_drop_socket (s : nat) : keeps R (drop_socket s).
Proof. intros w. apply R_state. reflexivity. Qed.

Lemma keeps_end_clients : keeps R end_clients.
Proof. intros w. apply R_state. reflexivity. Qed.

Lemma keeps_uncaughtException (w : World) : R w (uncaughtException w).
Proof. apply R_state. reflexivity. Qed.

End StateFrame.

Lemma keeps_modify_state (R : World -> World -> Prop) (f : State -> State) :
  (forall w, R w (with_state f w)) -> keeps R (modify_state f).
Proof. intros H w. apply H. Qed.

Lemma same_devices_refl w : same_devices w w.
Proof. reflexivity. Qed.

Lemma same_devices_trans a b c : same_devices a b -> same_devices b c -> same_devices a c.
Proof. unfold same_devices. congruence. Qed.

Lemma same_devices_state w w' : state w' = state w -> same_devices w w'.
Proof. unfold same_devices. congruence. Qed.

Lemma same_registry_refl w : same_registry w w.
Proof. split; reflexivity. Qed.

Lemma same_registry_trans a b c : same_registry a b -> same_registry b c -> same_registry a c.
Proof. unfold same_registry. intuition congruence. Qed.

Lemma same_registry_state w w' : state w' = state w -> same_registry w w'.
Proof. unfold same_registry. intros ->. auto. Qed.

Lemma only_console_refl w : only_console w w.
Proof. unfold only_console. intuition. Qed.

Lemma only_console_trans a b c : only_console a b -> only_console b c -> only_console a c.
Proof. unfold only_console. intuition congruence. Qed.

Lemma only_console_write (l : Level) (line : string) : keeps only_console (console_write l line).
Proof. intros w. unfold only_console. simpl. intuition. Qed.

(** One step of a frame proof: split the computation at its head; [leaf]
    closes what is left of a step that is not a sequence. *)
Ltac frame_step leaf :=
  first
    [ apply keeps_ret; solve [leaf]
    | apply keeps_throw; solve [leaf]
    | apply keeps_get_state; solve [leaf]
    | apply keeps_lift_option; solve [leaf]
    | apply keeps_lift_sum; solve [leaf]
    | apply keeps_RequireObjectCoercible; solve [leaf]
    | apply keeps_toFixed; solve [leaf]
    | apply keeps_interpolate; solve [leaf]
    | apply keeps_isoOfSeconds; solve [leaf]
    | solve [leaf]
    | apply keeps_console_write; solve [leaf]
    | apply keeps_io_emit; solve [leaf]
    | apply keeps_socket_emit; solve [leaf]
    | apply keeps_key_of; solve [leaf]
    | apply keeps_mqtt_connect; solve [leaf]
    | apply keeps_accept_socket; solve [leaf]
    | apply keeps_drop_socket; solve [leaf]
    | apply keeps_end_clients; solve [leaf]
    | apply keeps_bind; [solve [leaf] .. | | intros ]
    | apply keeps_try_catch; [solve [leaf] .. | | intros ]
    | match goal with
      | |- keeps _ (if ?b then _ else _) => destruct b
      | |- keeps _ (match ?x with _ => _ end) => destruct x
      end ].

Ltac frame_by leaf := repeat (frame_step leaf).

Ltac frame :=
  frame_by ltac:(eauto using same_devices_refl, same_devices_trans, same_devices_state,
                   same_registry_refl, same_registry_trans, same_registry_state,
                   only_console_refl, only_console_trans, only_console_write).

(** [handleRFIDMessage] never writes the device map. *)
Lemma handleRFIDMessage_keeps_devices (payload : value) :
  keeps same_devices (handleRFIDMessage payload).
Proof.
  unfold handleRFIDMessage. frame.
  - apply keeps_modify_state. intros w. reflexivity.
  - apply keeps_modify_state. intros w. reflexivity.
Qed.

(** ** What a handler does with a payload it applies *)

Lemma isoOfSeconds_ok (dTS : value) (w : World) :
  timestamp_ok dTS = true -> isoOfSeconds dTS w = (Normal (isoText dTS), w).
Proof.
  unfold timestamp_ok, isoOfSeconds, isoText. rewrite bind_run.
  destruct (ToNumber StringToNumber Number_toString dTS) as [n |]; simpl; [| discriminate].
  destruct (Date_new (n * 1000)%float) as [t |]; simpl; [reflexivity | discriminate].
Qed.

Lemma isoOfSeconds_fails (dTS : value) (w : World) :
  timestamp_ok dTS = false -> exists e, isoOfSeconds dTS w = (Throw e, w).
Proof.
  unfold timestamp_ok, isoOfSeconds. rewrite bind_run.
  destruct (ToNumber StringToNumber Number_toString dTS) as [n |]; simpl.
  - destruct (Date_new (n * 1000)%float); [discriminate |].
    intros _. exists RangeError. reflexivity.
  - intros _. exists TypeError. reflexivity.
Qed.

Lemma isoOfSeconds_undefined (w : World) :
  isoOfSeconds VUndefined w = (Throw RangeError, w).
Proof. reflexivity. Qed.

(** A guard that lets the payload through saw an object. *)
Lemma truthy_dID_coercible (payload : value) (w : World) :
  ToBoolean (Get payload "dID") = true ->
  RequireObjectCoercible payload w = (Normal tt, w).
Proof. destruct payload; simpl; intros H; try discriminate; reflexivity. Qed.

Lemma gps_valid_coercible (payload : value) (w : World) :
  gps_invalid payload = false -> RequireObjectCoercible payload w = (Normal tt, w).
Proof.
  unfold gps_invalid. intros H. apply truthy_dID_coercible.
  destruct (ToBoolean (Get payload "dID")); [reflexivity | discriminate].
Qed.

Lemma rfid_valid_coercible (payload : value) (w : World) :
  rfid_invalid payload = false -> RequireObjectCoercible payload w = (Normal tt, w).
Proof.
  unfold rfid_invalid. intros H. apply truthy_dID_coercible.
  destruct (ToBoolean (Get payload "dID")); [reflexivity | discriminate].
Qed.

(** The closing [console.log] of a handler: it may throw, and changes
    nothing but the console. *)
Lemma closing_log_only_console (ids : list value) (lat lon : value) (line : string) :
  keeps only_console
    (fold_right (fun v k => interpolate v ;; k)
       (toFixed lat ;; toFixed lon ;; console_write LOG line) ids).
Proof. induction ids as [| v ids IH]; simpl; frame. Qed.

Lemma handleRFIDMessage_valid (payload : value) (w : World) :
  valid_rfid payload = true ->
  only_console
    (send (map (fun s => (s, rfid_scan (scanData_of payload))) (sockets w))
       (with_state
          (with_rfidScans (push (maxRFIDHistory (state w)) (scanData_of payload))) w))
    (exec (handleRFIDMessage payload) w).
Proof.
  unfold valid_rfid. intros H. apply andb_prop in H. destruct H as [Hg Ht].
  apply negb_true_iff in Hg.
  unfold exec, handleRFIDMessage.
  rewrite bind_run, (rfid_valid_coercible _ _ Hg), Hg.
  rewrite bind_run, (isoOfSeconds_ok _ _ Ht).
  fold (scanData_of payload).
  rewrite bind_run. unfold modify_state at 1.
  rewrite bind_run. unfold get_state at 1.
  rewrite bind_run.
  pose proof (closing_log_only_console
                [Get payload "dID"; Get payload "uID"]
                (Get payload "lat") (Get payload "lon") "[RFID] Device") as Htail.
  simpl fold_right in Htail.
  cbn [state with_state with_rfidScans maxRFIDHistory rfidScans].
  destruct (maxRFIDHistory (state w) <?
            List.length (scanData_of payload :: rfidScans (state w)))%nat eqn:E.
  - unfold modify_state at 1. cbv beta iota. rewrite bind_run.
    unfold io_emit at 1. cbv beta iota.
    eapply only_console_trans; [| apply Htail].
    unfold only_console, send, with_state, with_rfidScans, push.
    cbn [state sockets nextSocket clients nextRef outbox exited
         rfidScans devices maxRFIDHistory mqttConnections].
    rewrite E. repeat split; reflexivity.
  - unfold ret at 1. cbv beta iota. rewrite bind_run.
    unfold io_emit at 1. cbv beta iota.
    eapply only_console_trans; [| apply Htail].
    unfold only_console, send, with_state, with_rfidScans, push.
    cbn [state sockets nextSocket clients nextRef outbox exited
         rfidScans devices maxRFIDHistory mqttConnections].
    rewrite E. repeat split; reflexivity.
Qed.

Lemma key_of_run (v : value) (w : World) :
  key_of v w = (Normal (key_in v w), after_key v w).
Proof. destruct v; reflexivity. Qed.

Lemma set_set_found {V} (k : Key) (v1 v2 : V) (m : JSMap.t V) :
  JSMap.get k m <> None ->
  JSMap.set k v2 (JSMap.set k v1 m) = JSMap.set k v2 m.
Proof.
  induction m as [| [k' v'] m IH]; simpl; intros H.
  - congruence.
  - destruct (key_eqb k' k) eqn:E; simpl; rewrite E.
    + reflexivity.
    + f_equal. apply IH. exact H.
Qed.

Lemma get_set_found {V} (k : Key) (v : V) (m : JSMap.t V) :
  JSMap.get k m <> None -> JSMap.get k (JSMap.set k v m) = Some v.
Proof.
  induction m as [| [k' v'] m IH]; simpl; intros H.
  - congruence.
  - destruct (key_eqb k' k) eqn:E; simpl; rewrite E.
    + reflexivity.
    + apply IH. exact H.
Qed.

Lemma handleGPSMessage_valid (payload : value) (w : World) :
  gps_invalid payload = false ->
  timestamp_ok (Get payload "dTS") = true ->
  only_console
    (send (map (fun s => (s, gps_update_of payload)) (sockets w))
       (with_state
          (with_devices (JSMap.set (key_in (Get payload "dID") w) (device_of payload)))
          (after_key (Get payload "dID") w)))
    (exec (handleGPSMessage payload) w).
Proof.
  intros Hg Ht. unfold exec, handleGPSMessage.
  rewrite bind_run, (gps_valid_coercible _ _ Hg), Hg.
  rewrite bind_run, key_of_run.
  set (k := key_in (Get payload "dID") w).
  set (w0 := after_key (Get payload "dID") w).
  assert (Hst : state w0 = state w) by (subst w0; destruct (Get payload "dID"); reflexivity).
  assert (Hso : sockets w0 = sockets w) by (subst w0; destruct (Get payload "dID"); reflexivity).
  rewrite bind_run. unfold get_state at 1. cbv beta iota.
  pose proof (closing_log_only_console [Get payload "dID"]
                (Get payload "lat") (Get payload "lon") "[GPS] Device") as Htail.
  simpl fold_right in Htail.
  fold (device_of payload). fold (gps_update_of payload).
  destruct (JSMap.get k (devices (state w0))) as [d |] eqn:Hget.
  - unfold assign at 1. rewrite bind_run. unfold modify_state at 1. cbv beta iota.
    rewrite bind_run, (isoOfSeconds_ok _ _ Ht).
    unfold assign at 1. rewrite bind_run. unfold modify_state at 1. cbv beta iota.
    rewrite bind_run. unfold modify_state at 1. cbv beta iota.
    rewrite bind_run. unfold io_emit at 1. cbv beta iota.
    eapply only_console_trans; [| apply Htail].
    unfold only_console, send, with_state, with_devices.
    cbn [state sockets nextSocket clients nextRef outbox exited
         rfidScans devices maxRFIDHistory mqttConnections].
    rewrite !set_set_found.
    + rewrite Hso. repeat split; reflexivity.
    + rewrite Hget. discriminate.
    + rewrite get_set_found; [discriminate | rewrite Hget; discriminate].
  - unfold assign at 1. rewrite bind_run. unfold ret at 1. cbv beta iota.
    rewrite bind_run, (isoOfSeconds_ok _ _ Ht).
    unfold assign at 1. rewrite bind_run. unfold ret at 1. cbv beta iota.
    rewrite bind_run. unfold modify_state at 1. cbv beta iota.
    rewrite bind_run. unfold io_emit at 1. cbv beta iota.
    eapply only_console_trans; [| apply Htail].
    unfold only_console, send, with_state, with_devices.
    cbn [state sockets nextSocket clients nextRef outbox exited
         rfidScans devices maxRFIDHistory mqttConnections].
    rewrite Hso. repeat split; reflexivity.
Qed.

(** ** The scan log *)

Lemma push_firstn (limit : nat) (scan : Scan.t) (log : list Scan.t) :
  List.length log <= limit -> push limit scan log = firstn limit (scan :: log).
Proof.
  intros Hlen. unfold push.
  destruct (limit <? List.length (scan :: log))%nat eqn:E.
  - apply Nat.ltb_lt in E. simpl in E.
    rewrite removelast_firstn_len. f_equal. simpl. lia.
  - apply Nat.ltb_ge in E. symmetry. apply firstn_all2. exact E.
Qed.

Lemma firstn_app_firstn {A} (n : nat) (l1 l2 : list A) :
  firstn n (l1 ++ firstn n l2) = firstn n (l1 ++ l2).
Proof.
  rewrite !firstn_app, firstn_firstn. do 2 f_equal. lia.
Qed.

Lemma handleRFIDMessage_log (payload : value) (w : World) :
  valid_rfid payload = true ->
  rfidScans (state (exec (handleRFIDMessage payload) w))
  = push (maxRFIDHistory (state w)) (scanData_of payload) (rfidScans (state w))
  /\ maxRFIDHistory (state (exec (handleRFIDMessage payload) w))
     = maxRFIDHistory (state w).
Proof.
  intros H. destruct (handleRFIDMessage_valid payload w H) as (Hst & _).
  rewrite Hst. split; reflexivity.
Qed.

Lemma apply_all_rfid_log (payloads : list value) :
  forall w,
    List.length (rfidScans (state w)) <= maxRFIDHistory (state w) ->
    forallb valid_rfid payloads = true ->
    rfidScans (state (apply_all handleRFIDMessage payloads w))
    = firstn (maxRFIDHistory (state w))
        (rev (map scanData_of payloads) ++ rfidScans (state w)).
Proof.
  induction payloads as [| p ps IH]; intros w Hlen Hall.
  - simpl. symmetry. apply firstn_all2. exact Hlen.
  - simpl in Hall. apply andb_prop in Hall. destruct Hall as [Hp Hps].
    destruct (handleRFIDMessage_log p w Hp) as [Hlog Hmax].
    rewrite (push_firstn _ _ _ Hlen) in Hlog.
    unfold apply_all in *. simpl fold_left.
    rewrite IH; [| rewrite Hlog, Hmax; apply firstn_le_length | exact Hps].
    rewrite Hlog, Hmax, firstn_app_firstn.
    simpl map. simpl rev. rewrite <- app_assoc. reflexivity.
Qed.

(** ** The device map under string keys *)

Lemma set_string_keyed {V} (s : string) (v : V) (m : JSMap.t V) :
  string_keyed m -> string_keyed (JSMap.set (string_key s) v m).
Proof.
  unfold string_keyed. induction 1 as [| [k' v'] m [s' Hk] Hm IH]; simpl.
  - constructor; [exists s; reflexivity | constructor].
  - simpl in Hk. subst k'.
    destruct (key_eqb (string_key s') (string_key s)).
    + constructor; [exists s'; reflexivity | exact Hm].
    + constructor; [exists s'; reflexivity | exact IH].
Qed.

Lemma set_ids_of {V} (s : string) (v : V) (m : JSMap.t V) :
  string_keyed m ->
  ids_of (JSMap.set (string_key s) v m)
  = if in_dec string_dec s (ids_of m) then ids_of m else (ids_of m ++ [s])%list.
Proof.
  unfold string_keyed. induction 1 as [| [k' v'] m [s' Hk] Hm IH]; simpl.
  - reflexivity.
  - simpl in Hk. subst k'. simpl. destruct (String.eqb_spec s' s) as [-> | Hne].
    + simpl. destruct (string_dec s s); [reflexivity | congruence].
    + simpl. rewrite IH. destruct (string_dec s' s) as [E | Hd]; [congruence |].
      destruct (in_dec string_dec s (ids_of m)); reflexivity.
Qed.

Lemma get_set_string {V} (a s : string) (v : V) (m : JSMap.t V) :
  string_keyed m ->
  JSMap.get (string_key a) (JSMap.set (string_key s) v m)
  = if String.eqb s a then Some v else JSMap.get (string_key a) m.
Proof.
  unfold string_keyed. induction 1 as [| [k' v'] m [s' Hk] Hm IH]; simpl.
  - reflexivity.
  - simpl in Hk. subst k'. simpl.
    destruct (String.eqb_spec s' s) as [-> | Hne]; simpl.
    + destruct (String.eqb s a); reflexivity.
    + rewrite IH. destruct (String.eqb_spec s' a) as [-> | Hna]; [| reflexivity].
      destruct (String.eqb_spec s a) as [E | _]; [congruence | reflexivity].
Qed.

Lemma valid_gps_dID (payload : value) :
  valid_gps payload = true ->
  Get payload "dID" = VStr (dID_of payload)
  /\ gps_invalid payload = false
  /\ timestamp_ok (Get payload "dTS") = true.
Proof.
  unfold valid_gps, dID_of. intros H.
  apply andb_prop in H. destruct H as [H Ht].
  apply andb_prop in H. destruct H as [Hg Hs].
  apply negb_true_iff in Hg.
  destruct (Get payload "dID"); try discriminate. auto.
Qed.

Lemma handleGPSMessage_devices (payload : value) (w : World) :
  valid_gps payload = true ->
  devices (state (exec (handleGPSMessage payload) w))
  = JSMap.set (string_key (dID_of payload)) (device_of payload) (devices (state w)).
Proof.
  intros H. destruct (valid_gps_dID payload H) as (Hid & Hg & Ht).
  destruct (handleGPSMessage_valid payload w Hg Ht) as (Hst & _).
  rewrite Hst, Hid. reflexivity.
Qed.

Lemma registry_of_nil : registry_of [] [].
Proof.
  repeat split; try constructor; simpl; try tauto. discriminate.
Qed.

Lemma registry_of_step (seen : list value) (p : value) (m : JSMap.t Device.t) :
  registry_of seen m ->
  registry_of (seen ++ [p])
    (JSMap.set (string_key (dID_of p)) (device_of p) m).
Proof.
  intros (Hk & Hnd & Hin & Hlast). split; [| split; [| split]].
  - apply set_string_keyed. exact Hk.
  - rewrite set_ids_of by exact Hk.
    destruct (in_dec string_dec (dID_of p) (ids_of m)) as [Hi | Hni]; [exact Hnd |].
    apply NoDup_rev in Hnd. rewrite <- (rev_involutive (ids_of m ++ [dID_of p])).
    apply NoDup_rev. rewrite rev_app_distr. simpl. constructor; [| exact Hnd].
    rewrite <- in_rev. exact Hni.
  - intros s. rewrite set_ids_of by exact Hk. rewrite map_app, in_app_iff. simpl.
    destruct (in_dec string_dec (dID_of p) (ids_of m)) as [Hi | Hni].
    + rewrite Hin. split; [tauto |]. intros [H | [<- | []]]; [exact H |].
      apply Hin. exact Hi.
    + rewrite in_app_iff, Hin. simpl. tauto.
  - intros id q. unfold last_for. rewrite rev_app_distr. simpl.
    rewrite get_set_string by exact Hk.
    destruct (String.eqb (dID_of p) id).
    + intros E. inversion E. reflexivity.
    + intros E. apply Hlast. exact E.
Qed.

Lemma apply_all_gps_registry (payloads : list value) :
  forall w,
    devices (state w) = [] ->
    forallb valid_gps payloads = true ->
    registry_of payloads (devices (state (apply_all handleGPSMessage payloads w))).
Proof.
  induction payloads as [| p ps IH] using rev_ind; intros w Hw Hall.
  - simpl. rewrite Hw. apply registry_of_nil.
  - rewrite forallb_app in Hall. apply andb_prop in Hall. destruct Hall as [Hps Hp].
    simpl in Hp. rewrite andb_true_r in Hp.
    unfold apply_all in *. rewrite fold_left_app. simpl.
    rewrite handleGPSMessage_devices by exact Hp.
    apply registry_of_step. apply IH; assumption.
Qed.

(** C2.  After any sequence of position events applied to an empty device
    map, the map has one entry per distinct device id seen, and the entry
    of each id holds the latitude, longitude and timestamp of the last
    event applied for that id, whatever the timestamps say. *)
Theorem devices_last_write_wins (w : World) (payloads : list value) :
  devices (state w) = [] ->
  forallb valid_gps payloads = true ->
  let m := devices (state (apply_all handleGPSMessage payloads w)) in
  JSMap.size m = List.length (nodup string_dec (map dID_of payloads))
  /\ (forall id p,
         last_for id payloads = Some p ->
         exists d,
           JSMap.get (KPrim (VStr id)) m = Some d
           /\ Device.latitude d = Get p "lat"
           /\ Device.longitude d = Get p "lon"
           /\ Device.timestamp d = Get p "dTS").
Proof.
  intros Hw Hall. cbv zeta.
  destruct (apply_all_gps_registry payloads w Hw Hall) as (_ & Hnd & Hin & Hlast).
  split.
  - unfold JSMap.size. rewrite <- (length_map _ _ : List.length (ids_of _) = _).
    apply Permutation_length. apply NoDup_Permutation.
    + exact Hnd.
    + apply NoDup_nodup.
    + intros s. rewrite nodup_In. apply Hin.
  - intros id p Hp. exists (device_of p). split; [| auto].
    apply Hlast. exact Hp.
Qed.

(** ** Payloads with a field missing *)

Lemma undefined_falsy (v : value) : is_undefined v = true -> ToBoolean v = false.
Proof. destruct v; simpl; intros H; try discriminate; reflexivity. Qed.

Lemma gps_missing_invalid (payload : value) :
  gps_missing payload = true -> gps_invalid payload = true.
Proof.
  unfold gps_missing, gps_invalid. intros H.
  destruct (is_undefined (Get payload "dID")) eqn:E.
  - rewrite (undefined_falsy _ E). reflexivity.
  - simpl in H. destruct (ToBoolean (Get payload "dID")); simpl; [exact H | reflexivity].
Qed.

Lemma rfid_missing_invalid (payload : value) :
  rfid_missing payload = true -> rfid_invalid payload = true.
Proof.
  unfold rfid_missing, rfid_invalid. intros H.
  destruct (is_undefined (Get payload "dID")) eqn:E.
  - rewrite (undefined_falsy _ E). reflexivity.
  - destruct (is_undefined (Get payload "uID")) eqn:E'.
    + rewrite (undefined_falsy _ E').
      destruct (ToBoolean (Get payload "dID")); reflexivity.
    + simpl in H.
      destruct (ToBoolean (Get payload "dID")), (ToBoolean (Get payload "uID"));
        simpl; try reflexivity; exact H.
Qed.

Lemma handleGPSMessage_invalid (payload : value) :
  gps_invalid payload = true -> keeps only_console (handleGPSMessage payload).
Proof. intros H. unfold handleGPSMessage. rewrite H. frame. Qed.

Lemma handleRFIDMessage_invalid (payload : value) :
  rfid_invalid payload = true -> keeps only_console (handleRFIDMessage payload).
Proof. intros H. unfold handleRFIDMessage. rewrite H. frame. Qed.

(** No exception leaves the message callback. *)
Lemma on_mqtt_message_returns (c : Client.t) (topic : string) (parsed : option value) (w : World) :
  fst (on_mqtt_message c topic parsed w) = Normal tt.
Proof.
  unfold on_mqtt_message, try_catch.
  match goal with |- context [match ?b w with _ => _ end] => destruct (b w) as [[[] | e] w'] end;
    reflexivity.
Qed.

(** C3, as the code has it.  A payload that lacks [dID], [lat] or [lon]
    (or [uID], on the RFID topic) is dropped by the message callback: the
    callback returns, and the state (device map, scan log, connection
    table) and everything emitted so far are as before. *)
Theorem missing_field_dropped (c : Client.t) (topic : string) (payload : value) (w : World) :
  (if strict_eq_string topic (Client.gpsTopic c) then gps_missing payload
   else strict_eq_string topic (Client.rfidTopic c) && rfid_missing payload) = true ->
  let r := on_mqtt_message c topic (Some payload) w in
  fst r = Normal tt /\ state (snd r) = state w /\ outbox (snd r) = outbox w.
Proof.
  intros H. cbv zeta. split; [apply on_mqtt_message_returns |].
  assert (K : keeps only_console (on_mqtt_message c topic (Some payload))).
  { unfold on_mqtt_message. simpl lift_option. rewrite bind_ret.
    destruct (strict_eq_string topic (Client.gpsTopic c)).
    - apply gps_missing_invalid in H. pose proof (handleGPSMessage_invalid _ H). frame.
    - apply andb_prop in H. destruct H as [Ht H]. rewrite Ht.
      apply rfid_missing_invalid in H. pose proof (handleRFIDMessage_invalid _ H). frame. }
  destruct (K w) as (Hs & _ & _ & _ & _ & Ho & _). split; assumption.
Qed.

(** ** A payload without [dTS] *)

(** C5, what the code does.  For a payload that passes the guard and has no
    [dTS], [new Date(undefined * 1000).toISOString()] throws a RangeError:
    [handleRFIDMessage] leaves the world as it was; [handleGPSMessage] has
    by then written [undefined] as the timestamp of a device it found in
    the map, adds no device, and emits nothing.  No current time is
    stored. *)
Theorem absent_timestamp_throws (payload : value) (w : World) :
  Get payload "dTS" = VUndefined ->
  (rfid_invalid payload = false ->
   handleRFIDMessage payload w = (Throw RangeError, w))
  /\ (gps_invalid payload = false ->
      let k := key_in (Get payload "dID") w in
      let w0 := after_key (Get payload "dID") w in
      handleGPSMessage payload w
      = (Throw RangeError,
         match JSMap.get k (devices (state w)) with
         | Some d =>
             with_state
               (with_devices
                  (JSMap.set k
                     (Device.mk (Get payload "dID") (Get payload "lat")
                        (Get payload "lon") VUndefined
                        (Device.lastUpdate d) (Device.raw d)))) w0
         | None => w0
         end)).
Proof.
  intros Hts. split; intros Hg.
  - unfold handleRFIDMessage.
    rewrite bind_run, (rfid_valid_coercible _ _ Hg), Hg, Hts. reflexivity.
  - cbv zeta. unfold handleGPSMessage.
    rewrite bind_run, (gps_valid_coercible _ _ Hg), Hg, Hts.
    rewrite bind_run, key_of_run. rewrite bind_run. unfold get_state at 1. cbv beta iota.
    replace (devices (state (after_key (Get payload "dID") w)))
      with (devices (state w)) by (destruct (Get payload "dID"); reflexivity).
    destruct (JSMap.get (key_in (Get payload "dID") w) (devices (state w))); reflexivity.
Qed.

(** C10.  Whatever the payload, [handleRFIDMessage] leaves the device map
    as it was: the position a scan carries goes to the scan log only. *)
Theorem rfid_scan_leaves_devices (payload : value) (w : World) :
  devices (state (exec (handleRFIDMessage payload) w)) = devices (state w).
Proof. apply handleRFIDMessage_keeps_devices. Qed.

(** ** What the guards test *)

Lemma logs_only_quiet w w' : console w' = console w -> logs_only w w'.
Proof. intros H. exists []. rewrite app_nil_r. split; [exact H | constructor]. Qed.

Lemma logs_only_refl w : logs_only w w.
Proof. apply logs_only_quiet. reflexivity. Qed.

Lemma logs_only_trans a b c : logs_only a b -> logs_only b c -> logs_only a c.
Proof.
  intros (l1 & H1 & F1) (l2 & H2 & F2). exists (l1 ++ l2)%list. split.
  - rewrite H2, H1, app_assoc. reflexivity.
  - apply Forall_app. split; assumption.
Qed.

Lemma logs_only_write (line : string) : keeps logs_only (console_write LOG line).
Proof.
  intros w. exists [(LOG, line)]. split; [reflexivity | repeat constructor].
Qed.

Lemma logs_only_io_emit (m : Msg) : keeps logs_only (io_emit m).
Proof. intros w. apply logs_only_quiet. reflexivity. Qed.

Lemma logs_only_key_of (v : value) : keeps logs_only (key_of v).
Proof. intros w. apply logs_only_quiet. destruct v; reflexivity. Qed.

Lemma logs_only_modify_state (f : State -> State) : keeps logs_only (modify_state f).
Proof. intros w. apply logs_only_quiet. reflexivity. Qed.

Lemma logs_only_assign (stored : bool) (k : Key) (d : Device.t) :
  keeps logs_only (assign stored k d).
Proof.
  destruct stored; [apply logs_only_modify_state | intros w; apply logs_only_refl].
Qed.

Ltac logs_frame :=
  frame_by ltac:(eauto using logs_only_refl, logs_only_trans, logs_only_write,
                   logs_only_io_emit, logs_only_key_of, logs_only_modify_state,
                   logs_only_assign).

Lemma handleGPSMessage_accepted_logs (payload : value) :
  gps_invalid payload = false -> keeps logs_only (handleGPSMessage payload).
Proof. intros H. unfold handleGPSMessage. rewrite H. logs_frame. Qed.

Lemma handleRFIDMessage_accepted_logs (payload : value) :
  rfid_invalid payload = false -> keeps logs_only (handleRFIDMessage payload).
Proof. intros H. unfold handleRFIDMessage. rewrite H. logs_frame. Qed.

(** A computation that only logs did not write the warning. *)
Lemma logs_only_not_warned (m : M unit) (line : string) (w : World) :
  keeps logs_only m -> m w = console_write WARN line w -> False.
Proof.
  intros K E. destruct (K w) as (lines & Hc & Hl). rewrite E in Hc. simpl in Hc.
  apply app_inv_head in Hc. subst lines.
  inversion Hl as [| x l Hx]. discriminate Hx.
Qed.

Lemma ToBoolean_false_iff (v : value) : ToBoolean v = false <-> falsy v.
Proof.
  unfold falsy. split.
  - destruct v as [| | [] | f | s | |]; simpl; intros H; try discriminate; auto.
    + apply negb_false_iff in H. right; right; right; right. exists f. auto.
    + apply negb_false_iff in H. apply String.eqb_eq in H. subst. auto.
  - intros [-> | [-> | [-> | [-> | (f & -> & H)]]]]; simpl; try reflexivity.
    rewrite H. reflexivity.
Qed.

Lemma is_undefined_iff (v : value) : is_undefined v = true <-> v = VUndefined.
Proof. destruct v; simpl; split; intros H; try discriminate; reflexivity. Qed.

Lemma coercible_run (v : value) (w : World) :
  coercible v = true -> RequireObjectCoercible v w = (Normal tt, w).
Proof. destruct v; simpl; intros H; try discriminate; reflexivity. Qed.

Lemma gps_invalid_iff (payload : value) :
  gps_invalid payload = true
  <-> falsy (Get payload "dID") \/ Get payload "lat" = VUndefined
      \/ Get payload "lon" = VUndefined.
Proof.
  unfold gps_invalid. rewrite !orb_true_iff, negb_true_iff, ToBoolean_false_iff,
    !is_undefined_iff. tauto.
Qed.

Lemma rfid_invalid_iff (payload : value) :
  rfid_invalid payload = true
  <-> falsy (Get payload "dID") \/ falsy (Get payload "uID")
      \/ Get payload "lat" = VUndefined \/ Get payload "lon" = VUndefined.
Proof.
  unfold rfid_invalid. rewrite !orb_true_iff, !negb_true_iff, !ToBoolean_false_iff,
    !is_undefined_iff. tauto.
Qed.

(** C9.  A payload (anything [JSON.parse] returns but [null]) is rejected
    by a handler, which then only writes its warning, exactly when [dID]
    (or [uID], for a scan) is falsy or [lat] or [lon] is [undefined].  So a
    payload with a truthy [dID] (and [uID]) passes the guard when its
    coordinates are [0], [null] or strings. *)
Theorem guard_is_presence_check (payload : value) (w : World) :
  coercible payload = true ->
  (handleGPSMessage payload w
   = console_write WARN "[GPS] Invalid payload - missing required fields:" w
   <-> falsy (Get payload "dID") \/ Get payload "lat" = VUndefined
       \/ Get payload "lon" = VUndefined)
  /\ (handleRFIDMessage payload w
      = console_write WARN "[RFID] Invalid payload - missing required fields:" w
      <-> falsy (Get payload "dID") \/ falsy (Get payload "uID")
          \/ Get payload "lat" = VUndefined \/ Get payload "lon" = VUndefined)
  /\ (ToBoolean (Get payload "dID") = true ->
      zero_null_or_text (Get payload "lat") ->
      zero_null_or_text (Get payload "lon") ->
      gps_invalid payload = false
      /\ (ToBoolean (Get payload "uID") = true -> rfid_invalid payload = false)).
Proof.
  intros Hc. split; [| split].
  - rewrite <- gps_invalid_iff. split.
    + intros E. destruct (gps_invalid payload) eqn:Hg; [reflexivity |].
      exfalso. eapply logs_only_not_warned; [| exact E].
      apply handleGPSMessage_accepted_logs. exact Hg.
    + intros Hg. unfold handleGPSMessage.
      rewrite bind_run, (coercible_run _ _ Hc), Hg. reflexivity.
  - rewrite <- rfid_invalid_iff. split.
    + intros E. destruct (rfid_invalid payload) eqn:Hg; [reflexivity |].
      exfalso. eapply logs_only_not_warned; [| exact E].
      apply handleRFIDMessage_accepted_logs. exact Hg.
    + intros Hg. unfold handleRFIDMessage.
      rewrite bind_run, (coercible_run _ _ Hc), Hg. reflexivity.
  - intros Hid Hlat Hlon. unfold gps_invalid, rfid_invalid. rewrite Hid.
    destruct Hlat as [-> | [-> | [s ->]]]; destruct Hlon as [-> | [-> | [s' ->]]];
      (split; [reflexivity | intros ->; reflexivity]).
Qed.

(** ** Events and the relations they keep *)

Lemma state_frame_kept (R : World -> World -> Prop) :
  (forall w w', state w' = state w -> R w w') -> kept_outside_state R.
Proof.
  intros H. unfold kept_outside_state. repeat split; intros.
  - apply keeps_console_write, H.
  - apply keeps_io_emit, H.
  - apply keeps_socket_emit, H.
  - apply keeps_key_of, H.
  - apply keeps_mqtt_connect, H.
  - apply keeps_accept_socket, H.
  - apply keeps_drop_socket, H.
  - apply keeps_end_clients, H.
  - apply keeps_uncaughtException, H.
Qed.

Section EventFrame.

Variable R : World -> World -> Prop.
Hypothesis R_refl : forall w, R w w.
Hypothesis R_trans : forall a b c, R a b -> R b c -> R a c.
Hypothesis R_kept : kept_outside_state R.

Let R_console_write := proj1 R_kept.
Let R_io_emit := proj1 (proj2 R_kept).
Let R_socket_emit := proj1 (proj2 (proj2 R_kept)).
Let R_key_of := proj1 (proj2 (proj2 (proj2 R_kept))).
Let R_mqtt_connect := proj1 (proj2 (proj2 (proj2 (proj2 R_kept)))).
Let R_accept_socket := proj1 (proj2 (proj2 (proj2 (proj2 (proj2 R_kept))))).
Let R_drop_socket := proj1 (proj2 (proj2 (proj2 (proj2 (proj2 (proj2 R_kept)))))).
Let R_end_clients :=
  proj1 (proj2 (proj2 (proj2 (proj2 (proj2 (proj2 (proj2 R_kept))))))).
Let R_uncaught :=
  proj2 (proj2 (proj2 (proj2 (proj2 (proj2 (proj2 (proj2 R_kept))))))).

Lemma keeps_with_client (h : nat) (also_ended : bool) (f : Client.t -> M unit) :
  (forall c, keeps R (f c)) -> keeps R (with_client h also_ended f).
Proof.
  intros Hf w. unfold with_client.
  destruct (nth_error (clients w) h) as [c |]; [| apply R_refl].
  destruct (Client.ended c && negb also_ended); [apply R_refl | apply Hf].
Qed.

Lemma keeps_on_connection (now : Z) : keeps R (on_connection now).
Proof. unfold on_connection. frame. Qed.

Lemma keeps_on_disconnect (socket : nat) : keeps R (on_disconnect socket).
Proof. unfold on_disconnect. frame. Qed.

Lemma keeps_on_SIGTERM : keeps R on_SIGTERM.
Proof. unfold on_SIGTERM. frame. Qed.

Lemma keeps_on_mqtt_connect (c : Client.t) (err : option Error) :
  keeps R (on_mqtt_connect c err).
Proof. unfold on_mqtt_connect. frame. Qed.

Lemma keeps_on_mqtt_error (c : Client.t) (e : Error) : keeps R (on_mqtt_error c e).
Proof. unfold on_mqtt_error. frame. Qed.

Lemma keeps_on_mqtt_offline (c : Client.t) : keeps R (on_mqtt_offline c).
Proof. unfold on_mqtt_offline. frame. Qed.

(** The two writes of the connection table. *)
Hypothesis R_set : forall k v w,
    R w (with_state (with_mqttConnections (JSMap.set k v)) w).
Hypothesis R_delete : forall k w,
    R w (with_state (with_mqttConnections (JSMap.delete k)) w).

Lemma keeps_on_mqtt_close (c : Client.t) : keeps R (on_mqtt_close c).
Proof.
  unfold on_mqtt_close. frame. apply keeps_modify_state. intros w. apply R_delete.
Qed.

Lemma keeps_on_connect_mqtt (socket : nat) (config : value) (now : Z) (accepted : bool) :
  keeps R (on_connect_mqtt socket config now accepted).
Proof.
  unfold on_connect_mqtt. frame. apply keeps_modify_state. intros w. apply R_set.
Qed.

Lemma dispatch_lifecycle_keeps (ev : Event) :
  bus_lifecycle ev = true -> keeps R (dispatch ev).
Proof.
  destruct ev; simpl; intros H; try discriminate.
  - intros w. destruct (existsb (Nat.eqb socket) (sockets w)); [| apply R_refl].
    apply keeps_on_connect_mqtt.
  - apply keeps_with_client. intros c. apply keeps_on_mqtt_connect.
  - apply keeps_with_client. intros c. apply keeps_on_mqtt_error.
  - apply keeps_with_client. intros c. apply keeps_on_mqtt_offline.
  - apply keeps_with_client. intros c. apply keeps_on_mqtt_close.
  - apply keeps_on_SIGTERM.
Qed.

Lemma step_keeps (ev : Event) (w : World) :
  keeps R (dispatch ev) -> R w (step w ev).
Proof.
  intros K. unfold step. destruct (exited w); [apply R_refl |].
  specialize (K w). destruct (dispatch ev w) as [[[] | e] w']; simpl in K.
  - exact K.
  - eapply R_trans; [exact K | apply R_uncaught].
Qed.

Lemma run_keeps (evs : list Event) :
  forall w, (forall ev, In ev evs -> keeps R (dispatch ev)) -> R w (run w evs).
Proof.
  induction evs as [| ev evs IH]; intros w H; simpl.
  - apply R_refl.
  - eapply R_trans.
    + apply step_keeps. apply H. left. reflexivity.
    + apply IH. intros ev' Hin. apply H. right. exact Hin.
Qed.

(** The writes of the registry. *)
Hypothesis R_devices : forall f w, R w (with_state (with_devices f) w).
Hypothesis R_rfidScans : forall f w, R w (with_state (with_rfidScans f) w).

Lemma keeps_handleGPSMessage (payload : value) : keeps R (handleGPSMessage payload).
Proof.
  unfold handleGPSMessage, assign. frame;
    try (apply keeps_modify_state; intros w; apply R_devices).
Qed.

Lemma keeps_handleRFIDMessage (payload : value) : keeps R (handleRFIDMessage payload).
Proof.
  unfold handleRFIDMessage. frame;
    try (apply keeps_modify_state; intros w; apply R_rfidScans).
Qed.

(** The two handlers, however they are shown to keep the relation. *)
Hypothesis R_gps : forall payload, keeps R (handleGPSMessage payload).
Hypothesis R_rfid : forall payload, keeps R (handleRFIDMessage payload).

Lemma keeps_on_mqtt_message (c : Client.t) (topic : string) (parsed : option value) :
  keeps R (on_mqtt_message c topic parsed).
Proof. unfold on_mqtt_message. frame. Qed.

Lemma dispatch_keeps (ev : Event) : keeps R (dispatch ev).
Proof.
  destruct (bus_lifecycle ev) eqn:E; [apply dispatch_lifecycle_keeps; exact E |].
  destruct ev; simpl in E; try discriminate; simpl.
  - apply keeps_on_connection.
  - apply keeps_on_disconnect.
  - apply keeps_with_client. intros c. apply keeps_on_mqtt_message.
Qed.

Lemma run_keeps_all (evs : list Event) (w : World) : R w (run w evs).
Proof. apply run_keeps. intros ev _. apply dispatch_keeps. Qed.

End EventFrame.

(** ** The registry across the life of a bus connection *)

Lemma same_registry_conns (f : JSMap.t Conn.t -> JSMap.t Conn.t) (w : World) :
  same_registry w (with_state (with_mqttConnections f) w).
Proof. split; reflexivity. Qed.

(** C7.  Connect requests, the client's connect, error, offline and close
    callbacks and the shutdown, in any number and order, leave the device
    map and the scan log as they were. *)
Theorem lifecycle_keeps_registry (w : World) (evs : list Event) :
  forallb bus_lifecycle evs = true ->
  devices (state (run w evs)) = devices (state w)
  /\ rfidScans (state (run w evs)) = rfidScans (state w).
Proof.
  intros H. change (same_registry w (run w evs)).
  rewrite forallb_forall in H.
  assert (Hk : kept_outside_state same_registry)
    by apply state_frame_kept, same_registry_state.
  apply run_keeps;
    [apply same_registry_refl | apply same_registry_trans | exact Hk |].
  intros ev Hin.
  apply dispatch_lifecycle_keeps;
    [apply same_registry_refl | apply same_registry_trans | exact Hk
    | intros; apply same_registry_conns | intros; apply same_registry_conns
    | apply H; exact Hin].
Qed.

(** ** The connection table *)

Lemma keys_set {V} (k : Key) (v : V) (m : JSMap.t V) (k' : Key) :
  In k' (JSMap.keys (JSMap.set k v m)) -> In k' (JSMap.keys m) \/ k' = k.
Proof.
  induction m as [| [k0 v0] m IH]; simpl.
  - intros [<- | []]. right. reflexivity.
  - destruct (key_eqb k0 k); simpl.
    + intros H. left. exact H.
    + intros [H | H]; [left; left; exact H |].
      destruct (IH H) as [H' | H']; [left; right; exact H' | right; exact H'].
Qed.

Lemma keys_delete {V} (k : Key) (m : JSMap.t V) (k' : Key) :
  In k' (JSMap.keys (JSMap.delete k m)) -> In k' (JSMap.keys m).
Proof.
  induction m as [| [k0 v0] m IH]; simpl; [tauto |].
  destruct (key_eqb k0 k); simpl; [tauto |].
  intros [H | H]; [left; exact H | right; apply IH; exact H].
Qed.

Lemma set_distinct {V} (k : Key) (v : V) (m : JSMap.t V) :
  distinct_keys m -> distinct_keys (JSMap.set k v m).
Proof.
  induction m as [| [k0 v0] m IH]; simpl.
  - intros _. split; [intros k' [] | exact I].
  - intros [H0 Hm]. destruct (key_eqb k0 k) eqn:E; simpl.
    + split; assumption.
    + split; [| apply IH; exact Hm].
      intros k' Hin. destruct (keys_set _ _ _ _ Hin) as [H | ->]; [apply H0; exact H | exact E].
Qed.

Lemma delete_distinct {V} (k : Key) (m : JSMap.t V) :
  distinct_keys m -> distinct_keys (JSMap.delete k m).
Proof.
  induction m as [| [k0 v0] m IH]; simpl; [tauto |].
  intros [H0 Hm]. destruct (key_eqb k0 k); simpl; [exact Hm |].
  split; [| apply IH; exact Hm].
  intros k' Hin. apply H0. eapply keys_delete. exact Hin.
Qed.

Lemma set_absent {V} (k : Key) (v : V) (m : JSMap.t V) :
  JSMap.get k m = None -> JSMap.set k v m = (m ++ [(k, v)])%list.
Proof.
  induction m as [| [k0 v0] m IH]; simpl; [reflexivity |].
  destruct (key_eqb k0 k); [discriminate |]. intros H. rewrite IH by exact H. reflexivity.
Qed.

Lemma reachable_table_distinct (evs : list Event) :
  distinct_keys (mqttConnections (state (run initialWorld evs))).
Proof.
  assert (K : table_stays_distinct initialWorld (run initialWorld evs)).
  { assert (Hk : kept_outside_state table_stays_distinct)
      by (apply state_frame_kept; intros w w' E; unfold table_stays_distinct;
          rewrite E; auto).
    apply run_keeps_all; unfold table_stays_distinct.
    - auto.
    - auto.
    - exact Hk.
    - intros k v w. apply set_distinct.
    - intros k w. apply delete_distinct.
    - intros payload. apply keeps_handleGPSMessage; auto.
    - intros payload. apply keeps_handleRFIDMessage; auto. }
  apply K. exact I.
Qed.

Lemma interpolate_ok (v : value) (w : World) :
  printable v = true -> interpolate v w = (Normal tt, w).
Proof.
  unfold printable, interpolate. rewrite bind_run.
  destruct (ToString Number_toString v); [reflexivity | discriminate].
Qed.

(** C4, as the code has it.  The connection table holds one entry per
    clientId at every reachable state.  A connect request under a clientId
    that is not in the table tears nothing down: the clients made so far
    stay as they are, a new live client joins them, and its entry is added
    to the table. *)
Theorem connections_keyed_by_client (evs : list Event) (socket : nat) (config : value) (now : Z) :
  let w := run initialWorld evs in
  let k := key_in (Get config "clientId") w in
  let w' := step w (ConnectMqtt socket config now true) in
  exited w = false ->
  existsb (Nat.eqb socket) (sockets w) = true ->
  coercible config = true ->
  printable (Get config "brokerUrl") = true ->
  printable (Get config "clientId") = true ->
  JSMap.get k (mqttConnections (state w)) = None ->
  distinct_keys (mqttConnections (state w))
  /\ distinct_keys (mqttConnections (state w'))
  /\ clients w'
     = (clients w
        ++ [Client.mk socket k (Get config "gpsTopic") (Get config "rfidTopic") false])%list
  /\ live_clients w'
     = (live_clients w
        ++ [Client.mk socket k (Get config "gpsTopic") (Get config "rfidTopic") false])%list
  /\ mqttConnections (state w')
     = (mqttConnections (state w)
        ++ [(k, Conn.mk (List.length (clients w)) (Get config "brokerUrl")
                  (Get config "gpsTopic") (Get config "rfidTopic") now)])%list.
Proof.
  intros w k w' Hex Hsock Hc Hb Hi Hget.
  assert (Hd : distinct_keys (mqttConnections (state w)))
    by apply reachable_table_distinct.
  assert (Hstep : w' =
    with_state
      (with_mqttConnections
         (JSMap.set k (Conn.mk (List.length (clients w)) (Get config "brokerUrl")
                         (Get config "gpsTopic") (Get config "rfidTopic") now)))
      (snd (mqtt_connect true
              (Client.mk socket k (Get config "gpsTopic") (Get config "rfidTopic") false)
              (after_key (Get config "clientId")
                 (snd (console_write LOG "[MQTT] Connecting to" w)))))).
  { subst w' k. unfold step. rewrite Hex. unfold dispatch. rewrite Hsock.
    unfold on_connect_mqtt.
    rewrite bind_run, (coercible_run _ _ Hc).
    rewrite bind_run, (interpolate_ok _ _ Hb).
    rewrite bind_run, (interpolate_ok _ _ Hi).
    rewrite bind_run. unfold console_write at 1. cbv beta iota.
    unfold try_catch. rewrite bind_run, (interpolate_ok _ _ Hi).
    rewrite bind_run, key_of_run.
    destruct (Get config "clientId"); reflexivity. }
  assert (Hcl : clients (after_key (Get config "clientId")
                           (snd (console_write LOG "[MQTT] Connecting to" w)))
                = clients w) by (destruct (Get config "clientId"); reflexivity).
  assert (Hst : state (after_key (Get config "clientId")
                         (snd (console_write LOG "[MQTT] Connecting to" w)))
                = state w) by (destruct (Get config "clientId"); reflexivity).
  rewrite Hstep. unfold live_clients, mqtt_connect.
  cbn [snd with_state with_mqttConnections state clients mqttConnections].
  rewrite Hcl, Hst. split; [exact Hd | split; [| split; [| split]]].
  - apply set_distinct. exact Hd.
  - reflexivity.
  - rewrite filter_app. reflexivity.
  - apply set_absent. exact Hget.
Qed.

(** ** The statistics query *)

(** C8, as the code has it.  The object [GET /api/stats] answers with has
    exactly the properties [success], [activeDevices] (the size of the
    device map), [totalScans] (the length of the scan log),
    [mqttConnections] (the number of entries of the connection table) and
    [timestamp] (the time of the request as an ISO string). *)
Theorem stats_fields (st : State) (now : Z) :
  (exists props,
      api_stats st now = VObj props
      /\ map fst props
         = ["success"; "activeDevices"; "totalScans"; "mqttConnections"; "timestamp"])
  /\ Get (api_stats st now) "success" = VBool true
  /\ Get (api_stats st now) "activeDevices"
     = VNum (num_of_nat (JSMap.size (devices st)))
  /\ Get (api_stats st now) "totalScans"
     = VNum (num_of_nat (List.length (rfidScans st)))
  /\ Get (api_stats st now) "mqttConnections"
     = VNum (num_of_nat (JSMap.size (mqttConnections st)))
  /\ Get (api_stats st now) "timestamp" = VStr (isoFormat now).
Proof.
  split; [eexists; split; reflexivity |]. repeat split; reflexivity.
Qed.

(** ** What a viewer receives *)

Lemma stays_fresh_same (w w' : World) :
  sockets w' = sockets w -> nextSocket w' = nextSocket w -> outbox w' = outbox w ->
  stays_fresh w w'.
Proof. unfold stays_fresh, fresh. intros -> -> ->. auto. Qed.

Lemma stays_fresh_send (l : list (nat * Msg)) (w : World) :
  (forall s m, In (s, m) l -> In s (sockets w)) -> stays_fresh w (send l w).
Proof.
  intros Hl (Hs & Hn & Ho). unfold fresh, send. simpl. repeat split; auto.
  intros s m Hin. apply in_app_or in Hin. destruct Hin as [Hin | Hin].
  - eapply Ho. exact Hin.
  - apply Hs. eapply Hl. exact Hin.
Qed.

Lemma stays_fresh_kept : kept_outside_state stays_fresh.
Proof.
  unfold kept_outside_state.
  split; [| split; [| split; [| split; [| split; [| split; [| split; [| split]]]]]]].
  - intros l line w. apply stays_fresh_same; reflexivity.
  - intros m w. apply stays_fresh_send. intros s m' Hin.
    apply in_map_iff in Hin. destruct Hin as (s' & E & Hin). inversion E. subst. exact Hin.
  - intros s m w. unfold socket_emit. simpl.
    destruct (existsb (Nat.eqb s) (sockets w)) eqn:E; [| intros H; exact H].
    apply stays_fresh_send. intros s' m' [H | []]. inversion H. subst.
    apply existsb_exists in E. destruct E as (x & Hin & Ex).
    apply Nat.eqb_eq in Ex. subst. exact Hin.
  - intros v w. apply stays_fresh_same; destruct v; reflexivity.
  - intros accepted c w. apply stays_fresh_same; destruct accepted; reflexivity.
  - intros w (Hs & Hn & Ho). unfold fresh. simpl. repeat split.
    + intros s Hin. apply in_app_or in Hin. destruct Hin as [Hin | [<- | []]].
      * apply Hs in Hin. lia.
      * lia.
    + apply NoDup_rev in Hn. rewrite <- (rev_involutive (sockets w ++ [nextSocket w])).
      apply NoDup_rev. rewrite rev_app_distr. simpl. constructor; [| exact Hn].
      rewrite <- in_rev. intros Hin. apply Hs in Hin. lia.
    + intros s m Hin. apply Ho in Hin. lia.
  - intros s w (Hs & Hn & Ho). unfold fresh. simpl. repeat split.
    + intros s' Hin. apply filter_In in Hin. apply Hs. tauto.
    + apply NoDup_filter. exact Hn.
    + exact Ho.
  - intros w. apply stays_fresh_same; reflexivity.
  - intros w. apply stays_fresh_same; reflexivity.
Qed.

Lemma reachable_fresh (evs : list Event) : fresh (run initialWorld evs).
Proof.
  assert (K : stays_fresh initialWorld (run initialWorld evs)).
  { assert (Hr : forall w, stays_fresh w w) by (intros w H; exact H).
    assert (Ht : forall a b c, stays_fresh a b -> stays_fresh b c -> stays_fresh a c)
      by (intros a b c Hab Hbc H; auto).
    apply run_keeps_all.
    - exact Hr.
    - exact Ht.
    - apply stays_fresh_kept.
    - intros; apply stays_fresh_same; reflexivity.
    - intros; apply stays_fresh_same; reflexivity.
    - intros payload. apply keeps_handleGPSMessage; auto using stays_fresh_kept.
    - intros payload. apply keeps_handleRFIDMessage; auto using stays_fresh_kept. }
  apply K. unfold fresh. simpl. repeat split; try tauto. constructor.
Qed.







Lemma to_others (sid : nat) (m : Msg) (l : list nat) :
  ~ In sid l ->
  map snd (filter (fun d : nat * Msg => Nat.eqb (fst d) sid) (map (fun s => (s, m)) l)) = [].
Proof.
  induction l as [| a l IH]; simpl; [reflexivity |]. intros Hni.
  destruct (Nat.eqb_spec a sid) as [-> | Hne]; [exfalso; apply Hni; left; reflexivity |].
  apply IH. intros Hc. apply Hni. right. exact Hc.
Qed.

Lemma to_each_once (sid : nat) (m : Msg) (l : list nat) :
  NoDup l -> In sid l ->
  map snd (filter (fun d : nat * Msg => Nat.eqb (fst d) sid) (map (fun s => (s, m)) l)) = [m].
Proof.
  induction 1 as [| s l Hnot Hn IH]; intros Hin; [destruct Hin |]. simpl.
  destruct (Nat.eqb_spec s sid) as [-> | Hne].
  - simpl. f_equal. apply to_others. exact Hnot.
  - apply IH. destruct Hin as [E | Hin]; [congruence | exact Hin].
Qed.




























(** ** The bound of the scan log *)

(** A scan that is not recorded leaves the state as it was. *)
Lemma handleRFIDMessage_not_recorded (payload : value) (w : World) :
  valid_rfid payload = false ->
  state (exec (handleRFIDMessage payload) w) = state w.
Proof.
  unfold valid_rfid. intros V. destruct (rfid_invalid payload) eqn:G.
  - apply (handleRFIDMessage_invalid payload G w).
  - simpl in V. destruct (isoOfSeconds_fails _ w V) as [e He].
    unfold exec, handleRFIDMessage.
    rewrite bind_run, (rfid_valid_coercible _ _ G), G, bind_run, He. reflexivity.
Qed.

Lemma handleRFIDMessage_stays_bounded (payload : value) :
  keeps stays_bounded (handleRFIDMessage payload).
Proof.
  intros w [Hm Hl]. unfold log_bounded. fold (exec (handleRFIDMessage payload) w).
  destruct (valid_rfid payload) eqn:V.
  - destruct (handleRFIDMessage_log payload w V) as [Hlog Hmax].
    rewrite Hmax, Hlog, push_firstn by lia. split; [exact Hm |].
    rewrite length_firstn. lia.
  - rewrite (handleRFIDMessage_not_recorded payload w V). split; assumption.
Qed.

(** At every reachable state the scan log holds at most 100 entries. *)
Lemma reachable_log_bounded (evs : list Event) : log_bounded (run initialWorld evs).
Proof.
  assert (Hr : forall w, stays_bounded w w) by (intros w H; exact H).
  assert (Ht : forall a b c, stays_bounded a b -> stays_bounded b c -> stays_bounded a c)
    by (intros a b c Hab Hbc H; auto).
  assert (Hk : kept_outside_state stays_bounded)
    by (apply state_frame_kept; intros w w' E; unfold stays_bounded, log_bounded;
        rewrite E; auto).
  assert (K : stays_bounded initialWorld (run initialWorld evs)).
  { apply run_keeps_all; auto using handleRFIDMessage_stays_bounded.
    intros payload. apply keeps_handleGPSMessage; auto. }
  apply K. split; simpl; lia.
Qed.

(** C1.  At any reachable state, applying more than 100 scan events that
    the handler records leaves a log of exactly 100 entries: the 100
    applied last, newest first.  A scan pushed on a full log drops the
    entry that was pushed first (the tail). *)
Theorem scan_log_keeps_newest (history : list Event) (payloads : list value) :
  let w := run initialWorld history in
  let log := rfidScans (state (apply_all handleRFIDMessage payloads w)) in
  forallb valid_rfid payloads = true ->
  100 < List.length payloads ->
  List.length log = 100
  /\ log = firstn 100 (rev (map scanData_of payloads))
  /\ (forall p,
         valid_rfid p = true ->
         List.length (rfidScans (state w)) = 100 ->
         rfidScans (state (exec (handleRFIDMessage p) w))
         = scanData_of p :: removelast (rfidScans (state w))).
Proof.
  intros w log Hall Hn. subst log.
  destruct (reachable_log_bounded history) as [Hmax Hlen]. fold w in Hmax, Hlen.
  rewrite apply_all_rfid_log; [| lia | exact Hall].
  rewrite Hmax, firstn_app.
  assert (Hrev : List.length (rev (map scanData_of payloads)) = List.length payloads)
    by (rewrite length_rev, length_map; reflexivity).
  replace (100 - List.length (rev (map scanData_of payloads))) with 0 by lia.
  rewrite firstn_O, app_nil_r. split; [| split].
  - rewrite length_firstn. lia.
  - reflexivity.
  - intros p Hp Hl.
    destruct (handleRFIDMessage_log p w Hp) as [Hlog _].
    rewrite Hlog, Hmax. unfold push. simpl List.length. rewrite Hl.
    replace (100 <? 101)%nat with true by reflexivity.
    destruct (rfidScans (state w)) as [| s l]; [discriminate Hl | reflexivity].
Qed.

(** * Connections, viewers and queries *)

(** ** Keys of a [Map] *)

(** [==] on binary64 holds between two zeros and between a value that is
    no NaN and itself. *)
Lemma SFeqb_true (a b : spec_float) :
  SFeqb a b = true ->
  (exists s s', a = S754_zero s /\ b = S754_zero s') \/ a = b.
Proof.
  unfold SFeqb.
  destruct a as [s | s | | s m e], b as [s' | s' | | s' m' e']; simpl;
    try discriminate; try (left; eauto; fail);
    try (destruct s; discriminate); try (destruct s'; discriminate).
  - destruct s, s'; try discriminate; right; reflexivity.
  - destruct s, s'; try discriminate;
      destruct (Z.compare_spec e e'); try discriminate; subst;
      change (Pos.compare_cont Eq m m') with (Pos.compare m m');
      destruct (Pos.compare_spec m m'); try discriminate; subst; right; reflexivity.
Qed.

Lemma SFeqb_self (a b : spec_float) :
  SFeqb a b = true -> SFeqb a a = true /\ SFeqb b b = true.
Proof.
  intros H. destruct (SFeqb_true a b H) as [(s & s' & -> & ->) | <-].
  - split; reflexivity.
  - split; exact H.
Qed.

Lemma SFeqb_sym (a b : spec_float) : SFeqb a b = true -> SFeqb b a = true.
Proof.
  intros H. destruct (SFeqb_true a b H) as [(s & s' & -> & ->) | <-];
    [reflexivity | exact H].
Qed.

Lemma SFeqb_euclid (a b c : spec_float) :
  SFeqb a c = true -> SFeqb b c = true -> SFeqb a b = true.
Proof.
  intros H1 H2.
  destruct (SFeqb_true a c H1) as [(s & s' & -> & ->) | <-];
    destruct (SFeqb_true _ _ H2) as [(t & t' & -> & E) | E]; subst;
    try reflexivity; try (apply SFeqb_sym; assumption); try assumption.
Qed.

Lemma number_key_sym (a b : float) :
  (PrimFloat.eqb a b || (is_nan a && is_nan b)) = true ->
  (PrimFloat.eqb b a || (is_nan b && is_nan a)) = true.
Proof.
  rewrite !orb_true_iff, !andb_true_iff, !FloatAxioms.eqb_spec.
  intros [H | [H1 H2]]; [left; apply SFeqb_sym; exact H | right; split; assumption].
Qed.

Lemma number_key_euclid (a b c : float) :
  (PrimFloat.eqb a c || (is_nan a && is_nan c)) = true ->
  (PrimFloat.eqb b c || (is_nan b && is_nan c)) = true ->
  (PrimFloat.eqb a b || (is_nan a && is_nan b)) = true.
Proof.
  unfold is_nan.
  rewrite !orb_true_iff, !andb_true_iff, !negb_true_iff, !FloatAxioms.eqb_spec.
  intros [H1 | [H1 H1']] [H2 | [H2 H2']].
  - left. eapply SFeqb_euclid; eassumption.
  - destruct (SFeqb_self _ _ H1) as [_ Hc]. congruence.
  - destruct (SFeqb_self _ _ H2) as [_ Hc]. congruence.
  - right. split; assumption.
Qed.

Lemma sameValueZero_sym (x y : value) :
  sameValueZero x y = true -> sameValueZero y x = true.
Proof.
  destruct x, y; simpl; try discriminate; try (intros _; reflexivity).
  - destruct b, b0; simpl; auto.
  - apply number_key_sym.
  - rewrite String.eqb_sym. auto.
Qed.

Lemma sameValueZero_euclid (x y z : value) :
  sameValueZero x z = true -> sameValueZero y z = true -> sameValueZero x y = true.
Proof.
  destruct x, z; simpl; try discriminate; destruct y; simpl; try discriminate;
    try (intros _ _; reflexivity).
  - destruct b, b0, b1; simpl; auto.
  - apply number_key_euclid.
  - intros H1 H2. apply String.eqb_eq in H1, H2. subst. apply String.eqb_refl.
Qed.

Lemma key_eqb_sym (a b : Key) : key_eqb a b = true -> key_eqb b a = true.
Proof.
  destruct a, b; simpl; try discriminate.
  - apply sameValueZero_sym.
  - rewrite Nat.eqb_sym. auto.
Qed.

(** Two keys that match a third match each other. *)
Lemma key_eqb_common (k k1 k2 : Key) :
  key_eqb k k1 = true -> key_eqb k k2 = true -> key_eqb k1 k2 = true.
Proof.
  intros H1 H2. apply key_eqb_sym in H1, H2.
  destruct k, k1, k2; simpl in *; try discriminate.
  - eapply sameValueZero_euclid; eassumption.
  - apply Nat.eqb_eq in H1, H2. subst. apply Nat.eqb_refl.
Qed.

(** The key a value makes matches itself: no value is a key that cannot be
    found again. *)
Lemma key_in_matches (v : value) (w : World) : key_eqb (key_in v w) (key_in v w) = true.
Proof.
  destruct v as [| | [] | f | s | |]; simpl; try reflexivity.
  - unfold is_nan. destruct (PrimFloat.eqb f f); reflexivity.
  - apply String.eqb_refl.
  - apply Nat.eqb_refl.
  - apply Nat.eqb_refl.
Qed.

Lemma get_unmatched {V} (k : Key) (m : JSMap.t V) :
  (forall k', In k' (JSMap.keys m) -> key_eqb k' k = false) -> JSMap.get k m = None.
Proof.
  induction m as [| [k0 v0] m IH]; simpl; intros H; [reflexivity |].
  rewrite (H k0) by (left; reflexivity). apply IH. intros k' Hin. apply H. right. exact Hin.
Qed.

Lemma get_set_same {V} (k : Key) (v : V) (m : JSMap.t V) :
  key_eqb k k = true -> JSMap.get k (JSMap.set k v m) = Some v.
Proof.
  intros Hk. induction m as [| [k0 v0] m IH]; simpl.
  - rewrite Hk. reflexivity.
  - destruct (key_eqb k0 k) eqn:E; simpl; rewrite E; [reflexivity | exact IH].
Qed.

Lemma get_set_other {V} (k k2 : Key) (v : V) (m : JSMap.t V) :
  key_eqb k k2 = false -> JSMap.get k2 (JSMap.set k v m) = JSMap.get k2 m.
Proof.
  intros Hk. induction m as [| [k0 v0] m IH]; simpl.
  - rewrite Hk. reflexivity.
  - destruct (key_eqb k0 k) eqn:E; simpl.
    + destruct (key_eqb k0 k2) eqn:E2; [| reflexivity].
      rewrite (key_eqb_common _ _ _ E E2) in Hk. discriminate.
    + destruct (key_eqb k0 k2); [reflexivity | exact IH].
Qed.

Lemma get_delete_same {V} (k : Key) (m : JSMap.t V) :
  distinct_keys m -> JSMap.get k (JSMap.delete k m) = None.
Proof.
  induction m as [| [k0 v0] m IH]; simpl; [reflexivity |].
  intros [H0 Hm]. destruct (key_eqb k0 k) eqn:E; simpl.
  - apply get_unmatched. intros k' Hin.
    destruct (key_eqb k' k) eqn:E'; [| reflexivity].
    apply key_eqb_sym in E, E'.
    pose proof (key_eqb_common _ _ _ E E') as C.
    rewrite (H0 k' Hin) in C. discriminate C.
  - rewrite E. apply IH. exact Hm.
Qed.

Lemma get_delete_other {V} (k k2 : Key) (m : JSMap.t V) :
  key_eqb k k2 = false -> JSMap.get k2 (JSMap.delete k m) = JSMap.get k2 m.
Proof.
  intros Hk. induction m as [| [k0 v0] m IH]; simpl; [reflexivity |].
  destruct (key_eqb k0 k) eqn:E; simpl.
  - destruct (key_eqb k0 k2) eqn:E2; [| reflexivity].
    rewrite (key_eqb_common _ _ _ E E2) in Hk. discriminate.
  - destruct (key_eqb k0 k2); [reflexivity | exact IH].
Qed.

Lemma size_set {V} (k : Key) (v : V) (m : JSMap.t V) :
  JSMap.size (JSMap.set k v m)
  = match JSMap.get k m with Some _ => JSMap.size m | None => S (JSMap.size m) end.
Proof.
  unfold JSMap.size. induction m as [| [k0 v0] m IH]; simpl; [reflexivity |].
  destruct (key_eqb k0 k); simpl; [reflexivity |].
  rewrite IH. destruct (JSMap.get k m); reflexivity.
Qed.

(** ** Connect requests *)

Lemma interpolate_fails (v : value) (w : World) :
  printable v = false -> interpolate v w = (Throw TypeError, w).
Proof.
  unfold printable, interpolate. rewrite bind_run.
  destruct (ToString Number_toString v); [discriminate | reflexivity].
Qed.

(** A connect request whose [config] can be destructured and printed. *)
Lemma on_connect_mqtt_run (socket : nat) (config : value) (now : Z) (accepted : bool) (w : World) :
  coercible config = true ->
  printable (Get config "brokerUrl") = true ->
  printable (Get config "clientId") = true ->
  on_connect_mqtt socket config now accepted w
  = (Normal tt,
     let k := key_in (Get config "clientId") w in
     let w1 := after_key (Get config "clientId")
                 (snd (console_write LOG "[MQTT] Connecting to" w)) in
     if accepted then
       with_state
         (with_mqttConnections
            (JSMap.set k (Conn.mk (List.length (clients w)) (Get config "brokerUrl")
                            (Get config "gpsTopic") (Get config "rfidTopic") now)))
         (snd (mqtt_connect true
                 (Client.mk socket k (Get config "gpsTopic") (Get config "rfidTopic") false)
                 w1))
     else
       snd (socket_emit socket (mqtt_error ConnectError)
              (snd (console_write ERROR "[MQTT] Connection error:" w1)))).
Proof.
  intros Hc Hb Hi. unfold on_connect_mqtt.
  rewrite bind_run, (coercible_run _ _ Hc).
  rewrite bind_run, (interpolate_ok _ _ Hb).
  rewrite bind_run, (interpolate_ok _ _ Hi).
  rewrite bind_run. unfold console_write at 1. cbv beta iota.
  unfold try_catch. rewrite bind_run, (interpolate_ok _ _ Hi).
  rewrite bind_run, key_of_run.
  destruct accepted; destruct (Get config "clientId"); reflexivity.
Qed.

(** A connect request whose [config] cannot be destructured or printed
    throws before anything is done. *)
Lemma on_connect_mqtt_throws (socket : nat) (config : value) (now : Z) (accepted : bool) (w : World) :
  coercible config && printable (Get config "brokerUrl")
  && printable (Get config "clientId") = false ->
  on_connect_mqtt socket config now accepted w = (Throw TypeError, w).
Proof.
  intros H. unfold on_connect_mqtt. rewrite bind_run.
  destruct (coercible config) eqn:Hc.
  - rewrite (coercible_run _ _ Hc), bind_run.
    destruct (printable (Get config "brokerUrl")) eqn:Hb.
    + rewrite (interpolate_ok _ _ Hb), bind_run. simpl in H.
      rewrite (interpolate_fails _ _ H). reflexivity.
    + rewrite (interpolate_fails _ _ Hb). reflexivity.
  - destruct config; try discriminate Hc; reflexivity.
Qed.

Lemma after_key_fields (v : value) (w : World) :
  state (after_key v w) = state w /\ sockets (after_key v w) = sockets w
  /\ clients (after_key v w) = clients w /\ outbox (after_key v w) = outbox w
  /\ exited (after_key v w) = exited w /\ console (after_key v w) = console w
  /\ nextSocket (after_key v w) = nextSocket w.
Proof. destruct v; repeat split; reflexivity. Qed.

(** X1.  A connect request sent by a connected viewer stops the process
    exactly when its [config] is [null] or [undefined], or its [brokerUrl]
    or [clientId] cannot be converted to a string: the handler then throws
    outside its [try], before it has done anything, and the
    uncaughtException handler exits.  The state, the clients and what was
    emitted are as they were. *)
Theorem connect_request_exits_iff (socket : nat) (config : value) (now : Z) (accepted : bool) (w : World) :
  let w' := step w (ConnectMqtt socket config now accepted) in
  exited w = false ->
  existsb (Nat.eqb socket) (sockets w) = true ->
  (exited w' = true
   <-> coercible config && printable (Get config "brokerUrl")
       && printable (Get config "clientId") = false)
  /\ (exited w' = true ->
      state w' = state w /\ clients w' = clients w /\ outbox w' = outbox w).
Proof.
  intros w' Hex Hsock. subst w'. unfold step. rewrite Hex. unfold dispatch. rewrite Hsock.
  destruct (coercible config && printable (Get config "brokerUrl")
            && printable (Get config "clientId")) eqn:H.
  - apply andb_prop in H. destruct H as [H Hi]. apply andb_prop in H. destruct H as [Hc Hb].
    rewrite (on_connect_mqtt_run _ _ _ _ _ Hc Hb Hi). cbv zeta.
    assert (E : exited
                  (if accepted
                   then with_state
                          (with_mqttConnections
                             (JSMap.set (key_in (Get config "clientId") w)
                                (Conn.mk (List.length (clients w)) (Get config "brokerUrl")
                                   (Get config "gpsTopic") (Get config "rfidTopic") now)))
                          (snd (mqtt_connect true
                                  (Client.mk socket (key_in (Get config "clientId") w)
                                     (Get config "gpsTopic") (Get config "rfidTopic") false)
                                  (after_key (Get config "clientId")
                                     (snd (console_write LOG "[MQTT] Connecting to" w)))))
                   else snd (socket_emit socket (mqtt_error ConnectError)
                               (snd (console_write ERROR "[MQTT] Connection error:"
                                       (after_key (Get config "clientId")
                                          (snd (console_write LOG "[MQTT] Connecting to" w)))))))
                = false).
    { destruct accepted; unfold socket_emit; simpl;
        destruct (Get config "clientId"); simpl; rewrite ?Hsock; simpl; exact Hex. }
    rewrite E. split; [split; discriminate | discriminate].
  - rewrite (on_connect_mqtt_throws _ _ _ _ _ H). simpl.
    split; [split; reflexivity | intros _; repeat split; reflexivity].
Qed.

(** X2.  When [mqtt.connect] throws, the [catch] of the handler reports it:
    the viewer that asked is sent [mqtt_error], no other viewer is told,
    no client is made and no entry is added to the table; the process goes
    on. *)
Theorem refused_connect_is_reported (socket : nat) (config : value) (now : Z) (w : World) :
  let w' := step w (ConnectMqtt socket config now false) in
  exited w = false ->
  existsb (Nat.eqb socket) (sockets w) = true ->
  coercible config && printable (Get config "brokerUrl")
  && printable (Get config "clientId") = true ->
  exited w' = false /\ state w' = state w /\ clients w' = clients w
  /\ sockets w' = sockets w
  /\ outbox w' = (outbox w ++ [(socket, mqtt_error ConnectError)])%list.
Proof.
  intros w' Hex Hsock H. subst w'. unfold step. rewrite Hex. unfold dispatch. rewrite Hsock.
  apply andb_prop in H. destruct H as [H Hi]. apply andb_prop in H. destruct H as [Hc Hb].
  rewrite (on_connect_mqtt_run _ _ _ _ _ Hc Hb Hi). cbv zeta.
  unfold socket_emit, console_write, send.
  destruct (Get config "clientId"); simpl; rewrite Hsock; simpl;
    repeat split; first [exact Hex | reflexivity].
Qed.

(** X3.  A connect request under a clientId that is in the table already
    replaces that entry by one for the new client and ends nothing: the
    table keeps its size, the clients made so far stay as they are, and
    the client the old entry was for is no longer in the table under this
    clientId. *)
Theorem reconnect_replaces_entry (evs : list Event) (socket : nat) (config : value) (now : Z) (old : Conn.t) :
  let w := run initialWorld evs in
  let k := key_in (Get config "clientId") w in
  let w' := step w (ConnectMqtt socket config now true) in
  let made := Client.mk socket k (Get config "gpsTopic") (Get config "rfidTopic") false in
  exited w = false ->
  existsb (Nat.eqb socket) (sockets w) = true ->
  coercible config && printable (Get config "brokerUrl")
  && printable (Get config "clientId") = true ->
  JSMap.get k (mqttConnections (state w)) = Some old ->
  JSMap.size (mqttConnections (state w')) = JSMap.size (mqttConnections (state w))
  /\ JSMap.get k (mqttConnections (state w'))
     = Some (Conn.mk (List.length (clients w)) (Get config "brokerUrl")
               (Get config "gpsTopic") (Get config "rfidTopic") now)
  /\ clients w' = (clients w ++ [made])%list
  /\ live_clients w' = (live_clients w ++ [made])%list.
Proof.
  intros w k w' made Hex Hsock H Hget. subst w'. unfold step. rewrite Hex.
  unfold dispatch. rewrite Hsock.
  apply andb_prop in H. destruct H as [H Hi]. apply andb_prop in H. destruct H as [Hc Hb].
  rewrite (on_connect_mqtt_run _ _ _ _ _ Hc Hb Hi). cbv zeta. fold k. fold made.
  destruct (after_key_fields (Get config "clientId")
              (snd (console_write LOG "[MQTT] Connecting to" w)))
    as (Hst & _ & Hcl & _).
  unfold live_clients, mqtt_connect.
  cbn [snd with_state with_mqttConnections state clients mqttConnections].
  rewrite Hst, Hcl. cbn [snd console_write state clients].
  split; [| split; [| split]].
  - rewrite size_set, Hget. reflexivity.
  - apply get_set_same. apply key_in_matches.
  - reflexivity.
  - rewrite filter_app. reflexivity.
Qed.

(** ** Closing and shutting down *)

(** X4.  At every reachable state, when a client closes, the table has no
    entry under the clientId the client was made for, whichever client that
    entry was for; the entries under other keys and the clients are as they
    were. *)
Theorem close_forgets_clientId (evs : list Event) (h : nat) (c : Client.t) :
  let w := run initialWorld evs in
  let w' := step w (MqttClose h) in
  exited w = false ->
  nth_error (clients w) h = Some c ->
  JSMap.get (Client.clientId c) (mqttConnections (state w')) = None
  /\ (forall k,
         key_eqb (Client.clientId c) k = false ->
         JSMap.get k (mqttConnections (state w')) = JSMap.get k (mqttConnections (state w)))
  /\ clients w' = clients w.
Proof.
  intros w w' Hex Hnth.
  assert (Hd : distinct_keys (mqttConnections (state w))) by apply reachable_table_distinct.
  assert (Hstep : w' = with_state (with_mqttConnections (JSMap.delete (Client.clientId c)))
                         (snd (console_write LOG "[MQTT] Connection closed" w))).
  { subst w'. unfold step. rewrite Hex. unfold dispatch, with_client. rewrite Hnth.
    simpl negb. rewrite andb_false_r. reflexivity. }
  rewrite Hstep. cbn [snd console_write with_state with_mqttConnections state
                      mqttConnections clients].
  split; [apply get_delete_same; exact Hd | split; [| reflexivity]].
  intros k Hk. apply get_delete_other. exact Hk.
Qed.

Lemma end_client_nth (h i : nat) (cs : list Client.t) :
  nth_error (end_client h cs) i
  = option_map
      (fun c => if Nat.eqb h i
                then Client.mk (Client.socket c) (Client.clientId c) (Client.gpsTopic c)
                       (Client.rfidTopic c) true
                else c)
      (nth_error cs i).
Proof.
  revert h i. induction cs as [| c cs IH]; intros h i.
  - destruct h, i; reflexivity.
  - destruct h as [| h], i as [| i]; simpl; try reflexivity.
    + destruct (nth_error cs i); reflexivity.
    + apply IH.
Qed.

Lemma end_clients_nth (i : nat) (conns : list Conn.t) :
  forall cs,
    nth_error (fold_left (fun cs conn => end_client (Conn.client conn) cs) conns cs) i
    = option_map
        (fun c => if existsb (fun conn => Nat.eqb (Conn.client conn) i) conns
                  then Client.mk (Client.socket c) (Client.clientId c) (Client.gpsTopic c)
                         (Client.rfidTopic c) true
                  else c)
        (nth_error cs i).
Proof.
  induction conns as [| conn conns IH]; intros cs; simpl.
  - destruct (nth_error cs i); reflexivity.
  - rewrite IH, end_client_nth.
    destruct (nth_error cs i) as [c |]; simpl; [| reflexivity].
    destruct (Nat.eqb (Conn.client conn) i); simpl; [| reflexivity].
    destruct (existsb _ conns); reflexivity.
Qed.

(** X5.  The shutdown ends the clients the connection table holds and no
    other: a client is ended by it exactly when some entry of the table
    holds it, and is otherwise left as it was.  The table itself, the
    registry and the viewers are left alone. *)
Theorem shutdown_ends_tracked_clients (w : World) (h : nat) :
  let w' := exec on_SIGTERM w in
  state w' = state w /\ sockets w' = sockets w /\ outbox w' = outbox w
  /\ nth_error (clients w') h
     = option_map
         (fun c => if tracked h (mqttConnections (state w))
                   then Client.mk (Client.socket c) (Client.clientId c) (Client.gpsTopic c)
                          (Client.rfidTopic c) true
                   else c)
         (nth_error (clients w) h).
Proof.
  cbv zeta. unfold exec, on_SIGTERM, tracked.
  rewrite bind_run. unfold console_write at 1. cbv beta iota.
  unfold end_clients. cbn [snd state sockets outbox clients].
  split; [reflexivity | split; [reflexivity | split; [reflexivity |]]].
  apply end_clients_nth.
Qed.

(** ** The message callback *)

(** Closes the side goals of a frame proof for a relation that compares
    fields of the two worlds: that it is reflexive and transitive, and that
    a step which does not write those fields keeps it. *)
Ltac same_fields :=
  first
    [ solve [ let Hab := fresh in let Hbc := fresh in
              intros ? ? ? Hab Hbc; hnf in Hab, Hbc |- *; intuition congruence ]
    | solve [ intros; hnf; intuition reflexivity ]
    | solve [ intros;
              lazymatch goal with
              | |- keeps _ (key_of ?v) => destruct v
              | |- keeps _ (mqtt_connect ?a _) => destruct a
              | |- keeps _ (assign ?b _ _) => destruct b
              | |- keeps _ (console_write _ _) => idtac
              | |- keeps _ (io_emit _) => idtac
              | |- keeps _ (socket_emit _ _) => idtac
              | |- keeps _ (modify_state _) => idtac
              | |- keeps _ accept_socket => idtac
              | |- keeps _ (drop_socket _) => idtac
              | |- keeps _ end_clients => idtac
              end;
              let w := fresh "w" in
              intro w; hnf; cbn;
              try match goal with
                  | |- context [existsb ?f ?l] => destruct (existsb f l)
                  end;
              cbn; intuition reflexivity ] ].

Ltac fields_frame := frame_by same_fields.

Lemma on_mqtt_message_keeps_connections (c : Client.t) (topic : string) (parsed : option value) :
  keeps same_connections (on_mqtt_message c topic parsed).
Proof.
  unfold on_mqtt_message, handleGPSMessage, handleRFIDMessage. fields_frame.
Qed.

(** X6.  Whatever arrives from the bus (text that is no JSON, any JSON value, on
    any topic), handling it
    leaves the process running, the viewers connected, the clients and the
    connection table as they are, and the bound of the scan log at its
    value. *)
Theorem bus_message_keeps_connections (h : nat) (topic : string) (parsed : option value) (w : World) :
  let w' := step w (MqttMessage h topic parsed) in
  exited w' = exited w /\ sockets w' = sockets w /\ clients w' = clients w
  /\ mqttConnections (state w') = mqttConnections (state w)
  /\ maxRFIDHistory (state w') = maxRFIDHistory (state w).
Proof.
  cbv zeta.
  assert (K : same_connections w (step w (MqttMessage h topic parsed))).
  { unfold step. destruct (exited w) eqn:Hex; [hnf; intuition reflexivity |].
    unfold dispatch, with_client.
    destruct (nth_error (clients w) h) as [c |]; [| hnf; intuition reflexivity].
    destruct (Client.ended c && negb false); [hnf; intuition reflexivity |].
    pose proof (on_mqtt_message_returns c topic parsed w) as N.
    pose proof (on_mqtt_message_keeps_connections c topic parsed w) as K.
    destruct (on_mqtt_message c topic parsed w) as [[[] | e] w']; simpl in *;
      [exact K | discriminate N]. }
  destruct K as (K1 & K2 & _ & K4 & K5 & K6). repeat split; assumption.
Qed.

Lemma handleGPSMessage_keeps_scans (payload : value) :
  keeps same_scans (handleGPSMessage payload).
Proof. unfold handleGPSMessage. fields_frame. Qed.

(** X7.  A message is given to one handler at most, chosen by its topic,
    the GPS topic first.  On the GPS topic of the client the scan log is
    left as it was (also when the RFID topic is the same topic: no scan is
    then ever recorded); on its RFID topic the device map is left as it
    was; on any other topic, and for a message that is no JSON, nothing is
    stored or emitted. *)
Theorem message_routed_by_topic (c : Client.t) (topic : string) (parsed : option value) (w : World) :
  let w' := exec (on_mqtt_message c topic parsed) w in
  match parsed with
  | None => state w' = state w /\ outbox w' = outbox w
  | Some _ =>
      if strict_eq_string topic (Client.gpsTopic c)
      then rfidScans (state w') = rfidScans (state w)
      else if strict_eq_string topic (Client.rfidTopic c)
           then devices (state w') = devices (state w)
           else state w' = state w /\ outbox w' = outbox w
  end.
Proof.
  cbv zeta. unfold exec, on_mqtt_message. destruct parsed as [payload |]; simpl lift_option.
  - rewrite bind_ret.
    destruct (strict_eq_string topic (Client.gpsTopic c));
      [| destruct (strict_eq_string topic (Client.rfidTopic c))].
    + pose proof (handleGPSMessage_keeps_scans payload) as G.
      match goal with |- rfidScans (state (snd (?m w))) = _ =>
        assert (K : keeps same_scans m) by fields_frame; exact (K w) end.
    + pose proof (handleRFIDMessage_keeps_devices payload) as G.
      match goal with |- devices (state (snd (?m w))) = _ =>
        assert (K : keeps same_devices m) by frame; exact (K w) end.
    + match goal with |- state (snd (?m w)) = _ /\ _ =>
        assert (K : keeps only_console m) by frame;
        destruct (K w) as (Hs & _ & _ & _ & _ & Ho & _) end.
      split; assumption.
  - match goal with |- state (snd (?m w)) = _ /\ _ =>
      assert (K : keeps only_console m) by frame;
      destruct (K w) as (Hs & _ & _ & _ & _ & Ho & _) end.
    split; assumption.
Qed.

(** ** The handlers on a payload they apply, to the end *)

(** The closing [console.log] of a handler throws a TypeError when an id
    does not print or a coordinate has no [toFixed], and otherwise writes
    its line. *)
Lemma closing_log_run (ids : list value) (lat lon : value) (line : string) (w : World) :
  fold_right (fun v k => interpolate v ;; k)
    (toFixed lat ;; toFixed lon ;; console_write LOG line) ids w
  = if forallb printable ids && is_number lat && is_number lon
    then console_write LOG line w
    else (Throw TypeError, w).
Proof.
  induction ids as [| v ids IH]; simpl.
  - destruct lat, lon; reflexivity.
  - rewrite bind_run. destruct (printable v) eqn:P.
    + rewrite (interpolate_ok _ _ P). simpl. exact IH.
    + rewrite (interpolate_fails _ _ P). reflexivity.
Qed.

Lemma handleGPSMessage_run (payload : value) (w : World) :
  gps_invalid payload = false ->
  timestamp_ok (Get payload "dTS") = true ->
  handleGPSMessage payload w
  = fold_right (fun v k => interpolate v ;; k)
      (toFixed (Get payload "lat") ;; toFixed (Get payload "lon") ;;
       console_write LOG "[GPS] Device")
      [Get payload "dID"]
      (send (map (fun s => (s, gps_update_of payload)) (sockets w))
         (with_state
            (with_devices (JSMap.set (key_in (Get payload "dID") w) (device_of payload)))
            (after_key (Get payload "dID") w))).
Proof.
  intros Hg Ht. unfold handleGPSMessage.
  rewrite bind_run, (gps_valid_coercible _ _ Hg), Hg.
  rewrite bind_run, key_of_run.
  set (k := key_in (Get payload "dID") w).
  set (w0 := after_key (Get payload "dID") w).
  destruct (after_key_fields (Get payload "dID") w) as (Hst & Hso & _). fold w0 in Hst, Hso.
  rewrite bind_run. unfold get_state at 1. cbv beta iota.
  fold (device_of payload). fold (gps_update_of payload). simpl fold_right.
  destruct (JSMap.get k (devices (state w0))) as [d |] eqn:Hget.
  - unfold assign at 1. rewrite bind_run. unfold modify_state at 1. cbv beta iota.
    rewrite bind_run, (isoOfSeconds_ok _ _ Ht).
    unfold assign at 1. rewrite bind_run. unfold modify_state at 1. cbv beta iota.
    rewrite bind_run. unfold modify_state at 1. cbv beta iota.
    rewrite bind_run. unfold io_emit at 1. cbv beta iota.
    f_equal. unfold send, with_state, with_devices.
    cbn [state sockets nextSocket clients nextRef outbox exited console
         rfidScans devices maxRFIDHistory mqttConnections].
    rewrite !set_set_found, Hso.
    + reflexivity.
    + rewrite Hget. discriminate.
    + rewrite get_set_found; [discriminate | rewrite Hget; discriminate].
  - unfold assign at 1. rewrite bind_run. unfold ret at 1. cbv beta iota.
    rewrite bind_run, (isoOfSeconds_ok _ _ Ht).
    unfold assign at 1. rewrite bind_run. unfold ret at 1. cbv beta iota.
    rewrite bind_run. unfold modify_state at 1. cbv beta iota.
    rewrite bind_run. unfold io_emit at 1. cbv beta iota.
    f_equal. unfold send, with_state, with_devices.
    cbn [state sockets nextSocket clients nextRef outbox exited console
         rfidScans devices maxRFIDHistory mqttConnections].
    rewrite Hso. reflexivity.
Qed.

(** A position that passes the guard with a [dTS] that makes no date: the
    handler throws when it has written the fields of a device it found. *)
Lemma handleGPSMessage_stale (payload : value) (w : World) :
  gps_invalid payload = false ->
  timestamp_ok (Get payload "dTS") = false ->
  exists e,
    handleGPSMessage payload w
    = (Throw e,
       match JSMap.get (key_in (Get payload "dID") w) (devices (state w)) with
       | Some d =>
           with_state
             (with_devices
                (JSMap.set (key_in (Get payload "dID") w)
                   (Device.mk (Get payload "dID") (Get payload "lat") (Get payload "lon")
                      (Get payload "dTS") (Device.lastUpdate d) (Device.raw d))))
             (after_key (Get payload "dID") w)
       | None => after_key (Get payload "dID") w
       end).
Proof.
  intros Hg Ht. unfold handleGPSMessage.
  rewrite bind_run, (gps_valid_coercible _ _ Hg), Hg.
  rewrite bind_run, key_of_run. rewrite bind_run. unfold get_state at 1. cbv beta iota.
  destruct (after_key_fields (Get payload "dID") w) as (Hst & _). rewrite Hst.
  destruct (JSMap.get (key_in (Get payload "dID") w) (devices (state w))).
  - unfold assign at 1. rewrite bind_run. unfold modify_state at 1. cbv beta iota.
    rewrite bind_run.
    match goal with |- context [isoOfSeconds ?d ?w0] =>
      destruct (isoOfSeconds_fails d w0 Ht) as [e He] end.
    rewrite He. exists e. reflexivity.
  - unfold assign at 1. rewrite bind_run. unfold ret at 1. cbv beta iota.
    rewrite bind_run.
    match goal with |- context [isoOfSeconds ?d ?w0] =>
      destruct (isoOfSeconds_fails d w0 Ht) as [e He] end.
    rewrite He. exists e. reflexivity.
Qed.

Lemma handleRFIDMessage_run (payload : value) (w : World) :
  valid_rfid payload = true ->
  handleRFIDMessage payload w
  = fold_right (fun v k => interpolate v ;; k)
      (toFixed (Get payload "lat") ;; toFixed (Get payload "lon") ;;
       console_write LOG "[RFID] Device")
      [Get payload "dID"; Get payload "uID"]
      (send (map (fun s => (s, rfid_scan (scanData_of payload))) (sockets w))
         (with_state
            (with_rfidScans (push (maxRFIDHistory (state w)) (scanData_of payload))) w)).
Proof.
  unfold valid_rfid. intros H. apply andb_prop in H. destruct H as [Hg Ht].
  apply negb_true_iff in Hg. unfold handleRFIDMessage.
  rewrite bind_run, (rfid_valid_coercible _ _ Hg), Hg.
  rewrite bind_run, (isoOfSeconds_ok _ _ Ht).
  fold (scanData_of payload).
  rewrite bind_run. unfold modify_state at 1.
  rewrite bind_run. unfold get_state at 1.
  rewrite bind_run. simpl fold_right.
  cbn [state with_state with_rfidScans maxRFIDHistory rfidScans].
  destruct (maxRFIDHistory (state w) <?
            List.length (scanData_of payload :: rfidScans (state w)))%nat eqn:E.
  - unfold modify_state at 1. cbv beta iota. rewrite bind_run.
    unfold io_emit at 1. cbv beta iota.
    f_equal. unfold send, with_state, with_rfidScans, push.
    cbn [state sockets nextSocket clients nextRef outbox exited console
         rfidScans devices maxRFIDHistory mqttConnections].
    rewrite E. reflexivity.
  - unfold ret at 1. cbv beta iota. rewrite bind_run.
    unfold io_emit at 1. cbv beta iota.
    f_equal. unfold send, with_state, with_rfidScans, push.
    cbn [state sockets nextSocket clients nextRef outbox exited console
         rfidScans devices maxRFIDHistory mqttConnections].
    rewrite E. reflexivity.
Qed.

(** X8.  A handler stores and broadcasts before it writes its log line,
    and the log line can throw: [toFixed] exists on numbers only and an id
    may not print.  For a payload the handler applies, the handler returns
    when the ids print and both coordinates are numbers and throws a
    TypeError otherwise; either way the device (the scan) is stored and the
    update has gone to every viewer. *)
Theorem update_survives_failed_log (payload : value) (w : World) :
  (applied_gps payload = true ->
   let r := handleGPSMessage payload w in
   fst r = (if printable (Get payload "dID") && is_number (Get payload "lat")
               && is_number (Get payload "lon")
            then Normal tt else Throw TypeError)
   /\ devices (state (snd r))
      = JSMap.set (key_in (Get payload "dID") w) (device_of payload) (devices (state w))
   /\ outbox (snd r)
      = (outbox w ++ map (fun s => (s, gps_update_of payload)) (sockets w))%list)
  /\ (valid_rfid payload = true ->
      let r := handleRFIDMessage payload w in
      fst r = (if printable (Get payload "dID") && printable (Get payload "uID")
                  && is_number (Get payload "lat") && is_number (Get payload "lon")
               then Normal tt else Throw TypeError)
      /\ rfidScans (state (snd r))
         = push (maxRFIDHistory (state w)) (scanData_of payload) (rfidScans (state w))
      /\ outbox (snd r)
         = (outbox w ++ map (fun s => (s, rfid_scan (scanData_of payload))) (sockets w))%list).
Proof.
  split.
  - unfold applied_gps. intros H. apply andb_prop in H. destruct H as [Hg Ht].
    apply negb_true_iff in Hg. cbv zeta.
    rewrite (handleGPSMessage_run payload w Hg Ht), closing_log_run.
    simpl forallb. rewrite andb_true_r.
    destruct (after_key_fields (Get payload "dID") w) as (Hst & Hso & _ & Hou & _).
    destruct (printable (Get payload "dID") && is_number (Get payload "lat")
              && is_number (Get payload "lon"));
      cbn [fst snd console_write send with_state with_devices state devices outbox];
      rewrite Hst, Hou; repeat split; reflexivity.
  - intros H. cbv zeta.
    rewrite (handleRFIDMessage_run payload w H), closing_log_run.
    simpl forallb. rewrite andb_true_r.
    destruct (printable (Get payload "dID") && printable (Get payload "uID")
              && is_number (Get payload "lat") && is_number (Get payload "lon"));
      repeat split; reflexivity.
Qed.

(** ** From a handler to the REST queries *)

Lemma get_in_values {V} (k : Key) (v : V) (m : JSMap.t V) :
  JSMap.get k m = Some v -> In v (JSMap.values m).
Proof.
  induction m as [| [k0 v0] m IH]; simpl; [discriminate |].
  destruct (key_eqb k0 k).
  - intros E. inversion E. left. reflexivity.
  - intros E. right. apply IH. exact E.
Qed.

(** X9.  When a position is applied, the device map holds, under the key of
    its [dID], the record made of the payload, and the devices query lists
    it with the five fields it answers; the map is one entry larger when
    the key was not there and as large as before when it was; no entry
    under another key has changed. *)
Theorem position_is_listed (payload : value) (w : World) :
  let w' := exec (handleGPSMessage payload) w in
  let k := key_in (Get payload "dID") w in
  applied_gps payload = true ->
  JSMap.get k (devices (state w')) = Some (device_of payload)
  /\ (forall k', key_eqb k k' = false ->
                 JSMap.get k' (devices (state w')) = JSMap.get k' (devices (state w)))
  /\ JSMap.size (devices (state w'))
     = match JSMap.get k (devices (state w)) with
       | Some _ => JSMap.size (devices (state w))
       | None => S (JSMap.size (devices (state w)))
       end
  /\ exists listed,
      Get (api_devices (state w')) "devices" = VArr listed
      /\ Get (api_devices (state w')) "count" = VNum (num_of_nat (List.length listed))
      /\ In (VObj [("deviceId", Get payload "dID"); ("latitude", Get payload "lat");
                   ("longitude", Get payload "lon"); ("timestamp", Get payload "dTS");
                   ("lastUpdate", VStr (isoText (Get payload "dTS")))])
           listed.
Proof.
  intros w' k H. unfold applied_gps in H. apply andb_prop in H. destruct H as [Hg Ht].
  apply negb_true_iff in Hg.
  destruct (handleGPSMessage_valid payload w Hg Ht) as (Hst & _). fold w' in Hst.
  destruct (after_key_fields (Get payload "dID") w) as (Hst0 & _).
  assert (Hd : devices (state w') = JSMap.set k (device_of payload) (devices (state w))).
  { rewrite Hst. cbn [state with_state send with_devices devices]. rewrite Hst0. reflexivity. }
  assert (Hk : JSMap.get k (devices (state w')) = Some (device_of payload)).
  { rewrite Hd. apply get_set_same. apply key_in_matches. }
  split; [exact Hk | split; [| split]].
  - intros k' Hne. rewrite Hd. apply get_set_other. exact Hne.
  - rewrite Hd. apply size_set.
  - eexists. split; [reflexivity | split; [reflexivity |]].
    apply (in_map device_json _ (device_of payload)). eapply get_in_values. exact Hk.
Qed.

(** X10.  At every reachable state, a scan the handler records goes to the
    head of the log, the 99 newest entries that were there follow it in
    their order, and nothing else stays; the scans query answers with that
    list, and the record that heads it is the one sent to every viewer. *)
Theorem scan_is_listed_first (evs : list Event) (payload : value) :
  let w := run initialWorld evs in
  let w' := exec (handleRFIDMessage payload) w in
  valid_rfid payload = true ->
  rfidScans (state w') = scanData_of payload :: firstn 99 (rfidScans (state w))
  /\ Get (api_rfid_scans (state w')) "scans"
     = VArr (scan_json (scanData_of payload)
               :: map scan_json (firstn 99 (rfidScans (state w))))
  /\ outbox w'
     = (outbox w ++ map (fun s => (s, rfid_scan (scanData_of payload))) (sockets w))%list.
Proof.
  intros w w' H.
  destruct (reachable_log_bounded evs) as [Hmax Hlen]. fold w in Hmax, Hlen.
  destruct (handleRFIDMessage_valid payload w H) as (Hst & _ & _ & _ & _ & Hou & _).
  fold w' in Hst, Hou.
  assert (Hlog : rfidScans (state w')
                 = scanData_of payload :: firstn 99 (rfidScans (state w))).
  { rewrite Hst. cbn [state with_state send with_rfidScans rfidScans].
    rewrite Hmax, push_firstn by exact Hlen. reflexivity. }
  split; [exact Hlog | split].
  - unfold api_rfid_scans. rewrite Hlog. reflexivity.
  - rewrite Hou. reflexivity.
Qed.

(** What a scan does to the state. *)
Lemma handleRFIDMessage_state (payload : value) (w : World) :
  state (exec (handleRFIDMessage payload) w)
  = if valid_rfid payload
    then with_rfidScans (push (maxRFIDHistory (state w)) (scanData_of payload)) (state w)
    else state w.
Proof.
  destruct (valid_rfid payload) eqn:V.
  - destruct (handleRFIDMessage_valid payload w V) as (Hst & _). exact Hst.
  - apply handleRFIDMessage_not_recorded. exact V.
Qed.

Lemma apply_all_rfid_state (payloads : list value) :
  forall w,
    state (apply_all handleRFIDMessage payloads w)
    = fold_left
        (fun st p =>
           if valid_rfid p
           then with_rfidScans (push (maxRFIDHistory st) (scanData_of p)) st
           else st)
        payloads (state w).
Proof.
  induction payloads as [| p ps IH]; intros w; [reflexivity |].
  unfold apply_all in *. simpl fold_left. rewrite IH, handleRFIDMessage_state. reflexivity.
Qed.

(** X11.  The scans a handler does not record (rejected by the guard, or
    with a [dTS] that makes no date) leave no trace in the state: applying
    a list of payloads leaves the state that applying only the recorded
    ones leaves. *)
Theorem unrecorded_scans_leave_no_trace (payloads : list value) (w : World) :
  state (apply_all handleRFIDMessage payloads w)
  = state (apply_all handleRFIDMessage (filter valid_rfid payloads) w).
Proof.
  rewrite !apply_all_rfid_state. generalize (state w).
  induction payloads as [| p ps IH]; intros st; [reflexivity |].
  simpl. destruct (valid_rfid p) eqn:V; simpl; [rewrite V |]; apply IH.
Qed.

(** X12.  At every reachable state the three queries agree: the devices
    query counts the devices it lists, which is the [activeDevices] of the
    stats query; the scans query counts the scans it lists, which is the
    [totalScans] of the stats query, and lists 100 at most. *)
Theorem queries_agree (evs : list Event) (now : Z) :
  let st := state (run initialWorld evs) in
  exists listed scans,
    Get (api_devices st) "devices" = VArr listed
    /\ Get (api_rfid_scans st) "scans" = VArr scans
    /\ List.length scans <= 100
    /\ Get (api_devices st) "count" = VNum (num_of_nat (List.length listed))
    /\ Get (api_stats st now) "activeDevices" = VNum (num_of_nat (List.length listed))
    /\ Get (api_rfid_scans st) "count" = VNum (num_of_nat (List.length scans))
    /\ Get (api_stats st now) "totalScans" = VNum (num_of_nat (List.length scans)).
Proof.
  intros st. destruct (reachable_log_bounded evs) as [_ Hlen]. fold st in Hlen.
  exists (map device_json (JSMap.values (devices st))), (map scan_json (rfidScans st)).
  split; [reflexivity | split; [reflexivity | split]].
  - rewrite length_map. exact Hlen.
  - unfold api_devices, api_rfid_scans, api_stats, JSMap.size, JSMap.values.
    cbn [Get assoc String.eqb Ascii.eqb Bool.eqb].
    rewrite !length_map. repeat split; reflexivity.
Qed.

(** ** What the device map keeps *)

Lemma keys_set_cases {V} (k : Key) (v : V) (m : JSMap.t V) :
  JSMap.keys (JSMap.set k v m)
  = match JSMap.get k m with
    | Some _ => JSMap.keys m
    | None => (JSMap.keys m ++ [k])%list
    end.
Proof.
  unfold JSMap.keys. induction m as [| [k0 v0] m IH]; simpl; [reflexivity |].
  destruct (key_eqb k0 k); simpl; [reflexivity |].
  rewrite IH. destruct (JSMap.get k m); reflexivity.
Qed.

Lemma forallb_values_set {V} (P : V -> bool) (k : Key) (v : V) (m : JSMap.t V) :
  forallb P (JSMap.values m) = true -> P v = true ->
  forallb P (JSMap.values (JSMap.set k v m)) = true.
Proof.
  unfold JSMap.values. intros Hm Hv. induction m as [| [k0 v0] m IH]; simpl in *.
  - rewrite Hv. reflexivity.
  - apply andb_prop in Hm. destruct Hm as [H0 Hm].
    destruct (key_eqb k0 k); simpl.
    + rewrite Hv, Hm. reflexivity.
    + rewrite H0. apply IH. exact Hm.
Qed.

(** What [handleGPSMessage] does to the device map: nothing, or one [set]
    under the key of [dID], of a record with the [dID], [lat] and [lon] of
    the payload whose [lastUpdate] is the date made or, when none could be
    made, the [lastUpdate] of the record found under the key. *)
Lemma handleGPSMessage_writes (payload : value) (w : World) :
  devices (state (exec (handleGPSMessage payload) w)) = devices (state w)
  \/ gps_invalid payload = false
     /\ exists d,
         devices (state (exec (handleGPSMessage payload) w))
         = JSMap.set (key_in (Get payload "dID") w) d (devices (state w))
         /\ Device.deviceId d = Get payload "dID"
         /\ Device.latitude d = Get payload "lat"
         /\ Device.longitude d = Get payload "lon"
         /\ (Device.lastUpdate d = VStr (isoText (Get payload "dTS"))
             \/ exists old,
                 JSMap.get (key_in (Get payload "dID") w) (devices (state w)) = Some old
                 /\ Device.lastUpdate d = Device.lastUpdate old).
Proof.
  destruct (after_key_fields (Get payload "dID") w) as (Hst0 & _).
  destruct (gps_invalid payload) eqn:G.
  - left. destruct (handleGPSMessage_invalid payload G w) as (Hs & _).
    unfold exec. rewrite Hs. reflexivity.
  - destruct (timestamp_ok (Get payload "dTS")) eqn:T.
    + right. split; [reflexivity |]. exists (device_of payload).
      destruct (handleGPSMessage_valid payload w G T) as (Hst & _).
      rewrite Hst. cbn [state with_state send with_devices devices]. rewrite Hst0.
      repeat split. left. reflexivity.
    + destruct (handleGPSMessage_stale payload w G T) as [e He].
      unfold exec. rewrite He. cbn [snd].
      destruct (JSMap.get (key_in (Get payload "dID") w) (devices (state w)))
        as [old |] eqn:Hget.
      * right. split; [reflexivity |]. eexists. split.
        { cbn [state with_state with_devices devices]. rewrite Hst0. reflexivity. }
        repeat split. right. exists old. split; reflexivity.
      * left. rewrite Hst0. reflexivity.
Qed.

Lemma devices_extend_refl (w : World) : devices_extend w w.
Proof. exists []. rewrite app_nil_r. reflexivity. Qed.

Lemma devices_extend_trans (a b c : World) :
  devices_extend a b -> devices_extend b c -> devices_extend a c.
Proof.
  intros [l1 H1] [l2 H2]. exists (l1 ++ l2)%list. rewrite H2, H1, app_assoc. reflexivity.
Qed.

Lemma devices_extend_same (w w' : World) :
  devices (state w') = devices (state w) -> devices_extend w w'.
Proof. intros H. exists []. rewrite H, app_nil_r. reflexivity. Qed.

Lemma handleGPSMessage_extends (payload : value) :
  keeps devices_extend (handleGPSMessage payload).
Proof.
  intros w. destruct (handleGPSMessage_writes payload w) as [H | (_ & d & H & _)].
  - apply devices_extend_same. exact H.
  - unfold devices_extend. fold (exec (handleGPSMessage payload) w).
    rewrite H, keys_set_cases.
    destruct (JSMap.get _ _); [exists []; rewrite app_nil_r | eexists]; reflexivity.
Qed.

(** X13.  No event removes a device.  After any events, the keys of the
    device map are the keys it had, in their order, followed by those
    added, so the number of devices (what the stats query answers as
    [activeDevices]) never goes down: a device that has stopped reporting
    stays in the map. *)
Theorem devices_never_removed (w : World) (evs : list Event) :
  (exists added,
      JSMap.keys (devices (state (run w evs)))
      = (JSMap.keys (devices (state w)) ++ added)%list)
  /\ JSMap.size (devices (state w)) <= JSMap.size (devices (state (run w evs))).
Proof.
  assert (K : devices_extend w (run w evs)).
  { apply run_keeps_all.
    - apply devices_extend_refl.
    - apply devices_extend_trans.
    - apply state_frame_kept. intros a b E. apply devices_extend_same. rewrite E. reflexivity.
    - intros k v a. apply devices_extend_same. reflexivity.
    - intros k a. apply devices_extend_same. reflexivity.
    - apply handleGPSMessage_extends.
    - intros payload a. apply devices_extend_same.
      apply handleRFIDMessage_keeps_devices. }
  split; [exact K |]. destruct K as [added H].
  assert (L : forall m : JSMap.t Device.t, JSMap.size m = List.length (JSMap.keys m))
    by (intros m; unfold JSMap.size, JSMap.keys; rewrite length_map; reflexivity).
  rewrite !L, H, length_app. lia.
Qed.

Lemma device_ok_written (payload : value) (d : Device.t) (last : value) :
  gps_invalid payload = false ->
  Device.deviceId d = Get payload "dID" ->
  Device.latitude d = Get payload "lat" ->
  Device.longitude d = Get payload "lon" ->
  Device.lastUpdate d = last -> is_string last = true ->
  device_ok d = true.
Proof.
  unfold gps_invalid, device_ok. intros G -> -> -> -> Hs.
  apply orb_false_elim in G. destruct G as [G Hlon].
  apply orb_false_elim in G. destruct G as [Hid Hlat].
  apply negb_false_iff in Hid. rewrite Hid, Hlat, Hlon, Hs. reflexivity.
Qed.

Lemma handleGPSMessage_stays_ok (payload : value) :
  keeps devices_stay_ok (handleGPSMessage payload).
Proof.
  intros w Hok. fold (exec (handleGPSMessage payload) w).
  destruct (handleGPSMessage_writes payload w)
    as [H | (G & d & H & Hid & Hlat & Hlon & Hlast)].
  - rewrite H. exact Hok.
  - rewrite H. apply forallb_values_set; [exact Hok |].
    destruct Hlast as [Hlast | (old & Hget & Hlast)].
    + eapply device_ok_written; eauto.
    + eapply device_ok_written; eauto.
      apply get_in_values in Hget.
      rewrite forallb_forall in Hok. specialize (Hok old Hget).
      unfold device_ok in Hok. apply andb_prop in Hok. apply Hok.
Qed.

(** X14.  At every reachable state, every record of the device map has a
    truthy [deviceId], a [latitude] and a [longitude] that are not
    [undefined], and a string as [lastUpdate]; so has every device the
    devices query lists.  (Its [timestamp] can be anything: a TypeError or
    RangeError of the date leaves the new [timestamp] beside the old
    [lastUpdate].) *)
Theorem stored_devices_are_complete (evs : list Event) :
  forallb device_ok (JSMap.values (devices (state (run initialWorld evs)))) = true.
Proof.
  assert (K : devices_stay_ok initialWorld (run initialWorld evs)).
  { assert (Hr : forall w, devices_stay_ok w w) by (intros w H; exact H).
    assert (Ht : forall a b c, devices_stay_ok a b -> devices_stay_ok b c ->
                               devices_stay_ok a c)
      by (intros a b c Hab Hbc H; auto).
    assert (Hk : kept_outside_state devices_stay_ok)
      by (apply state_frame_kept; intros a b E; unfold devices_stay_ok;
          rewrite E; auto).
    apply run_keeps_all; auto using handleGPSMessage_stays_ok.
    intros payload a Hok.
    rewrite (handleRFIDMessage_keeps_devices payload a). exact Hok. }
  apply K. reflexivity.
Qed.

(** ** What the scan log holds *)

Lemma in_removelast_in {A} (x : A) (l : list A) : In x (removelast l) -> In x l.
Proof.
  induction l as [| a l IH]; [intros [] |].
  destruct l as [| b l]; [intros [] |].
  change (removelast (a :: b :: l)) with (a :: removelast (b :: l)).
  intros [H | H]; [left; exact H | right; apply IH; exact H].
Qed.

Lemma push_recorded (limit : nat) (s : Scan.t) (log : list Scan.t) :
  Forall recorded log -> recorded s -> Forall recorded (push limit s log).
Proof.
  intros Hlog Hs. assert (H : Forall recorded (s :: log)) by (constructor; assumption).
  unfold push. destruct (limit <? List.length (s :: log))%nat; [| exact H].
  rewrite Forall_forall in *. intros x Hx. apply H. apply in_removelast_in. exact Hx.
Qed.

Lemma handleRFIDMessage_stays_recorded (payload : value) :
  keeps scans_stay_recorded (handleRFIDMessage payload).
Proof.
  intros w H. pose proof (handleRFIDMessage_state payload w) as E. unfold exec in E.
  rewrite E. destruct (valid_rfid payload) eqn:V; [| exact H].
  cbn [with_rfidScans rfidScans]. apply push_recorded; [exact H |].
  split; [exact V | reflexivity].
Qed.

Lemma recorded_scan_ok (s : Scan.t) : recorded s -> scan_ok s = true.
Proof.
  intros [V E]. rewrite E. unfold valid_rfid in V. apply andb_prop in V.
  destruct V as [G _]. apply negb_true_iff in G. unfold rfid_invalid in G.
  apply orb_false_elim in G. destruct G as [G Hlon].
  apply orb_false_elim in G. destruct G as [G Hlat].
  apply orb_false_elim in G. destruct G as [Hid Hu].
  apply negb_false_iff in Hid, Hu.
  unfold scan_ok, scanData_of. cbn [Scan.deviceId Scan.tagUID Scan.message Scan.latitude
                                    Scan.longitude].
  rewrite Hid, Hu, Hlat, Hlon. unfold js_or.
  destruct (ToBoolean (Get (Scan.rawPayload s) "msg")) eqn:Hm; [rewrite Hm |]; reflexivity.
Qed.

(** X15.  At every reachable state, every entry of the scan log is the
    record the handler makes of the payload the entry carries as
    [rawPayload], and that payload is one the handler records.  So every
    logged scan has a truthy [deviceId], [tagUID] and [message] (the text
    N/A when the payload had none) and coordinates that are not
    [undefined]. *)
Theorem logged_scans_are_recorded (evs : list Event) :
  Forall recorded (rfidScans (state (run initialWorld evs)))
  /\ forallb scan_ok (rfidScans (state (run initialWorld evs))) = true.
Proof.
  assert (K : scans_stay_recorded initialWorld (run initialWorld evs)).
  { assert (Hr : forall w, scans_stay_recorded w w) by (intros w H; exact H).
    assert (Ht : forall a b c, scans_stay_recorded a b -> scans_stay_recorded b c ->
                               scans_stay_recorded a c)
      by (intros a b c Hab Hbc H; auto).
    assert (Hk : kept_outside_state scans_stay_recorded)
      by (apply state_frame_kept; intros a b E; unfold scans_stay_recorded;
          rewrite E; auto).
    apply run_keeps_all; auto using handleRFIDMessage_stays_recorded.
    intros payload a H.
    rewrite (handleGPSMessage_keeps_scans payload a). exact H. }
  assert (H : Forall recorded (rfidScans (state (run initialWorld evs))))
    by (apply K; constructor).
  split; [exact H |]. apply forallb_forall. intros s Hs.
  apply recorded_scan_ok. rewrite Forall_forall in H. apply H. exact Hs.
Qed.

(** ** What the connection table keeps *)

Lemma table_extends_refl (w : World) : table_extends w w.
Proof. exists []. rewrite app_nil_r. reflexivity. Qed.

Lemma table_extends_trans (a b c : World) :
  table_extends a b -> table_extends b c -> table_extends a c.
Proof.
  intros [l1 H1] [l2 H2]. exists (l1 ++ l2)%list. rewrite H2, H1, app_assoc. reflexivity.
Qed.

Lemma table_extends_same (w w' : World) :
  mqttConnections (state w') = mqttConnections (state w) -> table_extends w w'.
Proof. intros H. exists []. rewrite H, app_nil_r. reflexivity. Qed.

Lemma table_extends_kept : kept_outside_state table_extends.
Proof.
  apply state_frame_kept. intros a b E. apply table_extends_same. rewrite E. reflexivity.
Qed.

Lemma table_extends_set (k : Key) (v : Conn.t) (w : World) :
  table_extends w (with_state (with_mqttConnections (JSMap.set k v)) w).
Proof.
  unfold table_extends. cbn [with_state with_mqttConnections state mqttConnections].
  rewrite keys_set_cases.
  destruct (JSMap.get _ _); [exists []; rewrite app_nil_r | eexists]; reflexivity.
Qed.

(** X16.  Only the close of a client takes an entry out of the connection
    table.  Through any events among which no client closes, the keys of
    the table are those it had, in their order, followed by those added:
    neither a viewer that disconnects nor the shutdown removes an entry. *)
Theorem entries_leave_only_on_close (w : World) (evs : list Event) :
  forallb (fun ev => negb (is_close ev)) evs = true ->
  exists added,
    JSMap.keys (mqttConnections (state (run w evs)))
    = (JSMap.keys (mqttConnections (state w)) ++ added)%list.
Proof.
  intros H. change (table_extends w (run w evs)). rewrite forallb_forall in H.
  pose proof table_extends_refl as Hr. pose proof table_extends_trans as Ht.
  pose proof table_extends_kept as Hk.
  assert (Hgps : forall payload, keeps table_extends (handleGPSMessage payload)).
  { intros payload. apply keeps_handleGPSMessage; auto. }
  assert (Hrfid : forall payload, keeps table_extends (handleRFIDMessage payload)).
  { intros payload. apply keeps_handleRFIDMessage; auto. }
  apply run_keeps; auto. intros ev Hin. specialize (H ev Hin).
  destruct ev; simpl in H; try discriminate H; simpl dispatch.
  - apply keeps_on_connection; auto.
  - apply keeps_on_disconnect; auto.
  - intros a. destruct (existsb (Nat.eqb socket) (sockets a)); [| apply Hr].
    apply keeps_on_connect_mqtt; auto using table_extends_set.
  - apply keeps_with_client; auto; intros c; apply keeps_on_mqtt_connect; auto.
  - apply keeps_with_client; auto; intros c; apply keeps_on_mqtt_message; auto.
  - apply keeps_with_client; auto; intros c; apply keeps_on_mqtt_error; auto.
  - apply keeps_with_client; auto; intros c; apply keeps_on_mqtt_offline; auto.
  - apply keeps_on_SIGTERM; auto.
Qed.

(** ** A viewer that has left *)

Lemma filter_none {A} (f : A -> bool) (l : list A) :
  (forall x, In x l -> f x = false) -> filter f l = [].
Proof.
  induction l as [| a l IH]; simpl; intros H; [reflexivity |].
  rewrite (H a) by (left; reflexivity). apply IH. intros x Hx. apply H. right. exact Hx.
Qed.

Lemma stays_silent_same (sid : nat) (w w' : World) :
  sockets w' = sockets w -> nextSocket w' = nextSocket w -> outbox w' = outbox w ->
  stays_silent sid w w'.
Proof.
  intros Hs Hn Ho G. unfold gone, inbox in *. rewrite Hs, Hn, Ho.
  split; [exact G | reflexivity].
Qed.

Lemma stays_silent_send (sid : nat) (l : list (nat * Msg)) (w : World) :
  (forall s m, In (s, m) l -> In s (sockets w)) -> stays_silent sid w (send l w).
Proof.
  intros Hl [Hni Hlt]. split; [split; assumption |].
  unfold inbox, send. cbn [outbox]. rewrite filter_app.
  rewrite (filter_none _ l), app_nil_r; [reflexivity |].
  intros [s m] Hin. simpl. apply Nat.eqb_neq. intros ->. apply Hni. eapply Hl. exact Hin.
Qed.

Lemma stays_silent_kept (sid : nat) : kept_outside_state (stays_silent sid).
Proof.
  unfold kept_outside_state.
  split; [| split; [| split; [| split; [| split; [| split; [| split; [| split]]]]]]].
  - intros l line w. apply stays_silent_same; reflexivity.
  - intros m w. apply stays_silent_send. intros s m' Hin.
    apply in_map_iff in Hin. destruct Hin as (s' & E & Hin). inversion E. subst. exact Hin.
  - intros s m w. unfold socket_emit. simpl.
    destruct (existsb (Nat.eqb s) (sockets w)) eqn:E; [| intros H; split; [exact H | reflexivity]].
    apply stays_silent_send. intros s' m' [H | []]. inversion H. subst.
    apply existsb_exists in E. destruct E as (x & Hin & Ex).
    apply Nat.eqb_eq in Ex. subst. exact Hin.
  - intros v w. apply stays_silent_same; destruct v; reflexivity.
  - intros accepted c w. apply stays_silent_same; destruct accepted; reflexivity.
  - intros w [Hni Hlt]. split; [| reflexivity]. unfold gone. simpl. split; [| lia].
    intros Hin. apply in_app_or in Hin. destruct Hin as [Hin | [E | []]]; [auto | lia].
  - intros s w [Hni Hlt]. split; [| reflexivity]. unfold gone. simpl. split; [| exact Hlt].
    intros Hin. apply filter_In in Hin. apply Hni. apply Hin.
  - intros w. apply stays_silent_same; reflexivity.
  - intros w. apply stays_silent_same; reflexivity.
Qed.

(** X17.  A viewer that has disconnected is sent nothing more, whatever
    happens afterwards: the messages emitted to its socket are those it
    had been sent when it left (socket ids are not handed out twice), and
    its socket is not among the connected ones again. *)
Theorem departed_viewer_gets_nothing (before after : list Event) (sid : nat) :
  let w := run initialWorld before in
  let w' := run (step w (Disconnect sid)) after in
  exited w = false ->
  In sid (sockets w) ->
  inbox sid w' = inbox sid w
  /\ existsb (Nat.eqb sid) (sockets w') = false.
Proof.
  intros w w' Hex Hin.
  destruct (reachable_fresh before) as (Hlt & _). fold w in Hlt.
  set (w1 := step w (Disconnect sid)) in *.
  assert (H1 : sockets w1 = filter (fun s => negb (Nat.eqb s sid)) (sockets w)
               /\ nextSocket w1 = nextSocket w /\ outbox w1 = outbox w).
  { subst w1. unfold step. rewrite Hex. repeat split; reflexivity. }
  destruct H1 as (Hs1 & Hn1 & Ho1).
  assert (G : gone sid w1).
  { split.
    - rewrite Hs1. intros Hc. apply filter_In in Hc. destruct Hc as [_ Hc].
      rewrite Nat.eqb_refl in Hc. discriminate Hc.
    - rewrite Hn1. apply Hlt. exact Hin. }
  assert (K : stays_silent sid w1 w').
  { assert (Hr : forall a, stays_silent sid a a) by (intros a H; split; [exact H | reflexivity]).
    assert (Ht : forall a b c, stays_silent sid a b -> stays_silent sid b c ->
                               stays_silent sid a c).
    { intros a b c Hab Hbc H. destruct (Hab H) as [Hb Eb]. destruct (Hbc Hb) as [Hc Ec].
      split; [exact Hc | congruence]. }
    pose proof (stays_silent_kept sid) as Hk.
    assert (Hw : forall f a, stays_silent sid a (with_state f a))
      by (intros f a; apply stays_silent_same; reflexivity).
    subst w'. apply run_keeps_all; auto.
    - intros payload. apply keeps_handleGPSMessage; auto.
    - intros payload. apply keeps_handleRFIDMessage; auto. }
  destruct (K G) as [[Hni _] E]. split.
  - rewrite E. unfold inbox. rewrite Ho1. reflexivity.
  - destruct (existsb (Nat.eqb sid) (sockets w')) eqn:Ee; [| reflexivity].
    exfalso. apply existsb_exists in Ee. destruct Ee as (x & Hx & Ex).
    apply Nat.eqb_eq in Ex. subst x. exact (Hni Hx).
Qed.

(** ** The order of the device map *)

Lemma first_seen_snoc (l : list string) (x : string) :
  first_seen (l ++ [x])
  = if in_dec string_dec x (first_seen l) then first_seen l
    else (first_seen l ++ [x])%list.
Proof.
  induction l as [| s l IH]; [reflexivity |].
  simpl app. simpl first_seen. rewrite IH.
  destruct (in_dec string_dec x (first_seen l)) as [Hi | Hni].
  - destruct (in_dec string_dec x
                (s :: filter (fun y => negb (String.eqb y s)) (first_seen l)))
      as [_ | Hn]; [reflexivity |].
    exfalso. apply Hn. destruct (String.eqb_spec x s) as [-> | Hne]; [left; reflexivity |].
    right. apply filter_In. split; [exact Hi |].
    apply negb_true_iff. apply String.eqb_neq. exact Hne.
  - rewrite filter_app. cbn [filter].
    destruct (String.eqb x s) eqn:E; cbn [negb].
    + apply String.eqb_eq in E. subst x. rewrite app_nil_r.
      destruct (in_dec string_dec s
                  (s :: filter (fun y => negb (String.eqb y s)) (first_seen l)))
        as [_ | Hn]; [reflexivity | exfalso; apply Hn; left; reflexivity].
    + apply String.eqb_neq in E.
      destruct (in_dec string_dec x
                  (s :: filter (fun y => negb (String.eqb y s)) (first_seen l)))
        as [[E' | Hi] | _]; [congruence | | reflexivity].
      apply filter_In in Hi. destruct Hi as [Hi _]. contradiction.
Qed.

Lemma set_keyed_by_id (s : string) (d : Device.t) (m : JSMap.t Device.t) :
  string_keyed m ->
  Forall (fun kv => fst kv = KPrim (Device.deviceId (snd kv))) m ->
  Device.deviceId d = VStr s ->
  Forall (fun kv => fst kv = KPrim (Device.deviceId (snd kv)))
    (JSMap.set (string_key s) d m).
Proof.
  unfold string_keyed. intros Hk Hm Hd. induction m as [| [k0 v0] m IH]; simpl.
  - constructor; [simpl; rewrite Hd; reflexivity | constructor].
  - inversion Hk as [| x l [s0 Hs0] Hk']. inversion Hm as [| y l' Hkv Hm']. subst.
    simpl in Hs0. subst k0. simpl.
    destruct (String.eqb_spec s0 s) as [-> | Hne].
    + constructor; [simpl; rewrite Hd; reflexivity | exact Hm'].
    + constructor; [exact Hkv | apply IH; assumption].
Qed.

Lemma ids_of_keyed_by_id (m : JSMap.t Device.t) :
  string_keyed m ->
  Forall (fun kv => fst kv = KPrim (Device.deviceId (snd kv))) m ->
  map Device.deviceId (JSMap.values m) = map VStr (ids_of m).
Proof.
  unfold string_keyed, JSMap.values, ids_of. intros Hk Hm.
  induction m as [| [k0 v0] m IH]; [reflexivity |].
  inversion Hk as [| x l [s0 Hs0] Hk']. inversion Hm as [| y l' Hkv Hm']. subst.
  simpl in *. subst k0. unfold string_key in *. cbv iota.
  f_equal; [congruence | apply IH; assumption].
Qed.

Lemma apply_all_gps_order (payloads : list value) :
  forall w,
    devices (state w) = [] ->
    forallb valid_gps payloads = true ->
    let m := devices (state (apply_all handleGPSMessage payloads w)) in
    string_keyed m
    /\ ids_of m = first_seen (map dID_of payloads)
    /\ Forall (fun kv => fst kv = KPrim (Device.deviceId (snd kv))) m.
Proof.
  induction payloads as [| p ps IH] using rev_ind; intros w Hw Hall; cbv zeta.
  - simpl. rewrite Hw. repeat split; constructor.
  - rewrite forallb_app in Hall. apply andb_prop in Hall. destruct Hall as [Hps Hp].
    simpl in Hp. rewrite andb_true_r in Hp.
    destruct (IH w Hw Hps) as (Hk & Hids & Hm).
    unfold apply_all in *. rewrite fold_left_app. simpl fold_left.
    rewrite handleGPSMessage_devices by exact Hp.
    split; [apply set_string_keyed; exact Hk | split].
    + rewrite set_ids_of by exact Hk. rewrite map_app. simpl map.
      rewrite first_seen_snoc, Hids. reflexivity.
    + apply set_keyed_by_id; [exact Hk | exact Hm |].
      apply (valid_gps_dID p Hp).
Qed.

(** X18.  The device map keeps the order in which devices first appeared:
    after position events with string ids applied to an empty map, the
    devices it holds (and the devices query lists) are the distinct ids in
    the order of their first event; a later event of a device updates its
    record where it stands. *)
Theorem devices_in_order_of_first_appearance (w : World) (payloads : list value) :
  devices (state w) = [] ->
  forallb valid_gps payloads = true ->
  map Device.deviceId
    (JSMap.values (devices (state (apply_all handleGPSMessage payloads w))))
  = map VStr (first_seen (map dID_of payloads)).
Proof.
  intros Hw Hall. destruct (apply_all_gps_order payloads w Hw Hall) as (Hk & Hids & Hm).
  rewrite <- Hids. apply ids_of_keyed_by_id; assumption.
Qed.

(** ** A position applied again *)

Lemma set_again {V} (k : Key) (v : V) (m : JSMap.t V) :
  key_eqb k k = true -> JSMap.set k v (JSMap.set k v m) = JSMap.set k v m.
Proof.
  intros Hk. induction m as [| [k0 v0] m IH]; simpl.
  - rewrite Hk. reflexivity.
  - destruct (key_eqb k0 k) eqn:E; simpl; rewrite E; [reflexivity |].
    rewrite IH. reflexivity.
Qed.

Lemma refs_stay_used_same (w w' : World) :
  devices (state w') = devices (state w) -> nextRef w <= nextRef w' ->
  refs_stay_used w w'.
Proof.
  intros Hd Hn H r Hin. rewrite Hd in Hin. apply H in Hin. lia.
Qed.

Lemma refs_used_written (v : value) (d : Device.t) (w : World) :
  refs_used w ->
  refs_used (with_state (with_devices (JSMap.set (key_in v w) d)) (after_key v w)).
Proof.
  intros H r Hin.
  assert (Hn : nextRef w <= nextRef (after_key v w)) by (destruct v; simpl; lia).
  assert (Hs : devices (state (after_key v w)) = devices (state w))
    by (destruct v; reflexivity).
  cbn [state with_state with_devices devices nextRef] in Hin. rewrite Hs in Hin.
  replace (nextRef (with_state (with_devices (JSMap.set (key_in v w) d)) (after_key v w)))
    with (nextRef (after_key v w)) by reflexivity.
  apply keys_set in Hin. destruct Hin as [Hin | E].
  - apply H in Hin. lia.
  - destruct v; simpl in E; try discriminate E; inversion E; simpl; lia.
Qed.

Lemma refs_stay_used_kept : kept_outside_state refs_stay_used.
Proof.
  unfold kept_outside_state.
  split; [| split; [| split; [| split; [| split; [| split; [| split; [| split]]]]]]].
  - intros l line w. apply refs_stay_used_same; simpl; auto.
  - intros m w. apply refs_stay_used_same; simpl; auto.
  - intros s m w. apply refs_stay_used_same; unfold socket_emit; simpl;
      destruct (existsb _ _); simpl; auto.
  - intros v w. apply refs_stay_used_same; destruct v; simpl; auto.
  - intros accepted c w. apply refs_stay_used_same; destruct accepted; simpl; auto.
  - intros w. apply refs_stay_used_same; simpl; auto.
  - intros s w. apply refs_stay_used_same; simpl; auto.
  - intros w. apply refs_stay_used_same; simpl; auto.
  - intros w. apply refs_stay_used_same; simpl; auto.
Qed.

Lemma handleGPSMessage_refs (payload : value) :
  keeps refs_stay_used (handleGPSMessage payload).
Proof.
  intros w H. destruct (gps_invalid payload) eqn:G.
  - destruct (handleGPSMessage_invalid payload G w) as (Hs & _ & _ & _ & Hn & _).
    intros r Hin. rewrite Hs in Hin. rewrite Hn. apply H. exact Hin.
  - destruct (timestamp_ok (Get payload "dTS")) eqn:T.
    + destruct (handleGPSMessage_valid payload w G T) as (Hs & _ & _ & _ & Hn & _).
      unfold exec in Hs, Hn. intros r Hin. rewrite Hs in Hin. rewrite Hn.
      apply (refs_used_written (Get payload "dID") (device_of payload) w H r). exact Hin.
    + destruct (handleGPSMessage_stale payload w G T) as [e He]. rewrite He. cbn [snd].
      destruct (JSMap.get (key_in (Get payload "dID") w) (devices (state w))).
      * apply refs_used_written. exact H.
      * apply (refs_stay_used_same w); [| | exact H];
          destruct (Get payload "dID"); simpl; auto.
Qed.

Lemma reachable_refs_used (evs : list Event) : refs_used (run initialWorld evs).
Proof.
  assert (K : refs_stay_used initialWorld (run initialWorld evs)).
  { assert (Hr : forall w, refs_stay_used w w) by (intros w H; exact H).
    assert (Ht : forall a b c, refs_stay_used a b -> refs_stay_used b c ->
                               refs_stay_used a c)
      by (intros a b c Hab Hbc H; auto).
    pose proof refs_stay_used_kept as Hk.
    assert (Hs : forall f a, refs_stay_used a (with_state (with_rfidScans f) a))
      by (intros f a; apply refs_stay_used_same; simpl; auto).
    apply run_keeps_all; auto using handleGPSMessage_refs, keeps_handleRFIDMessage. }
  apply K. intros r [].
Qed.

Lemma new_reference_not_found (w : World) (v : value) :
  refs_used w -> is_reference v = true ->
  JSMap.get (key_in v w) (devices (state w)) = None.
Proof.
  intros H Hv. apply get_unmatched. intros k' Hin.
  destruct v; try discriminate Hv; simpl; destruct k' as [x | r]; try reflexivity;
    apply Nat.eqb_neq; apply H in Hin; lia.
Qed.

Lemma handleGPSMessage_applied_devices (payload : value) (w : World) :
  applied_gps payload = true ->
  devices (state (exec (handleGPSMessage payload) w))
  = JSMap.set (key_in (Get payload "dID") w) (device_of payload) (devices (state w)).
Proof.
  unfold applied_gps. intros H. apply andb_prop in H. destruct H as [Hg Ht].
  apply negb_true_iff in Hg.
  destruct (handleGPSMessage_valid payload w Hg Ht) as (Hst & _).
  destruct (after_key_fields (Get payload "dID") w) as (Hst0 & _).
  rewrite Hst. cbn [state with_state send with_devices devices]. rewrite Hst0. reflexivity.
Qed.

(** X19.  A position applied a second time.  When its [dID] is a string, a
    number or a boolean, the second application leaves the device map as
    the first left it.  When its [dID] is an array or an object (both are
    truthy, so the guard lets them pass), the map compares it by reference
    and finds no entry: every application adds a device. *)
Theorem replayed_position (evs : list Event) (payload : value) :
  let w := run initialWorld evs in
  let once := exec (handleGPSMessage payload) w in
  let twice := exec (handleGPSMessage payload) once in
  applied_gps payload = true ->
  if is_reference (Get payload "dID")
  then JSMap.size (devices (state once)) = S (JSMap.size (devices (state w)))
       /\ JSMap.size (devices (state twice)) = S (S (JSMap.size (devices (state w))))
  else devices (state twice) = devices (state once).
Proof.
  intros w once twice H.
  assert (H1 : devices (state once)
               = JSMap.set (key_in (Get payload "dID") w) (device_of payload)
                   (devices (state w)))
    by (apply handleGPSMessage_applied_devices; exact H).
  assert (H2 : devices (state twice)
               = JSMap.set (key_in (Get payload "dID") once) (device_of payload)
                   (devices (state once)))
    by (apply handleGPSMessage_applied_devices; exact H).
  destruct (is_reference (Get payload "dID")) eqn:Hr.
  - assert (U : refs_used w) by apply reachable_refs_used.
    assert (U1 : refs_used once) by (apply handleGPSMessage_refs; exact U).
    rewrite H2, size_set, (new_reference_not_found once _ U1 Hr).
    rewrite H1, size_set, (new_reference_not_found w _ U Hr). split; reflexivity.
  - rewrite H2, H1.
    replace (key_in (Get payload "dID") once) with (key_in (Get payload "dID") w)
      by (destruct (Get payload "dID"); try discriminate Hr; reflexivity).
    apply set_again. apply key_in_matches.
Qed.

(** X20.  A scan applied a second time is logged a second time: the log
    does not compare a scan with those it holds.  At every reachable state,
    after a scan the handler records is applied twice, the log starts with
    two records of it, followed by the 98 newest entries that were
    there. *)
Theorem replayed_scan_is_logged_twice (evs : list Event) (payload : value) :
  let w := run initialWorld evs in
  let twice := exec (handleRFIDMessage payload) (exec (handleRFIDMessage payload) w) in
  valid_rfid payload = true ->
  rfidScans (state twice)
  = scanData_of payload :: scanData_of payload :: firstn 98 (rfidScans (state w)).
Proof.
  intros w twice V. subst twice.
  destruct (reachable_log_bounded evs) as [Hmax Hlen]. fold w in Hmax, Hlen.
  rewrite !handleRFIDMessage_state, V.
  cbn [with_rfidScans rfidScans maxRFIDHistory]. rewrite Hmax.
  rewrite (push_firstn 100 _ (rfidScans (state w))) by exact Hlen.
  rewrite push_firstn by (rewrite length_firstn; lia).
  rewrite (firstn_cons 99), (firstn_cons 99), (firstn_cons 98), firstn_firstn.
  reflexivity.
Qed.

(** ** A date that cannot be made *)

(** X21.  A position that passes the guard with a [dTS] of which no date can
    be made ([undefined], NaN, a number of seconds beyond the range of
    dates) for a device the map holds: the handler throws, nothing is
    emitted, and the record of the device is left with the new [deviceId],
    [latitude], [longitude] and [timestamp] beside its old [lastUpdate] and
    [raw]; no other entry has changed. *)
Theorem failed_date_leaves_partial_update (payload : value) (old : Device.t) (w : World) :
  let k := key_in (Get payload "dID") w in
  let r := handleGPSMessage payload w in
  gps_invalid payload = false ->
  timestamp_ok (Get payload "dTS") = false ->
  JSMap.get k (devices (state w)) = Some old ->
  (exists e, fst r = Throw e)
  /\ JSMap.get k (devices (state (snd r)))
     = Some (Device.mk (Get payload "dID") (Get payload "lat") (Get payload "lon")
               (Get payload "dTS") (Device.lastUpdate old) (Device.raw old))
  /\ (forall k', key_eqb k k' = false ->
                 JSMap.get k' (devices (state (snd r))) = JSMap.get k' (devices (state w)))
  /\ JSMap.size (devices (state (snd r))) = JSMap.size (devices (state w))
  /\ rfidScans (state (snd r)) = rfidScans (state w)
  /\ outbox (snd r) = outbox w.
Proof.
  intros k r G T Hget. subst r.
  destruct (handleGPSMessage_stale payload w G T) as [e He]. rewrite He. fold k.
  rewrite Hget. cbn [fst snd].
  destruct (after_key_fields (Get payload "dID") w) as (Hst & _ & _ & Hou & _).
  cbn [state with_state with_devices devices rfidScans outbox]. rewrite Hst, Hou.
  split; [exists e; reflexivity | split; [| split; [| split; [| split]]]].
  - apply get_set_same. apply key_in_matches.
  - intros k' Hk. apply get_set_other. exact Hk.
  - rewrite size_set, Hget. reflexivity.
  - reflexivity.
  - reflexivity.
Qed.

(** ** The length of the scan log *)

Lemma handleRFIDMessage_log_grows (payload : value) :
  keeps log_grows (handleRFIDMessage payload).
Proof.
  intros w [Hm Hl]. pose proof (handleRFIDMessage_state payload w) as E.
  unfold exec in E. unfold log_bounded. rewrite E.
  destruct (valid_rfid payload); [| repeat split; auto].
  cbn [with_rfidScans rfidScans maxRFIDHistory].
  rewrite Hm, push_firstn by exact Hl. rewrite length_firstn. simpl List.length.
  repeat split; lia.
Qed.

(** X22.  The scan log is never cleared and never gets shorter: after any
    further events it is at least as long as it was (and 100 entries at
    most); only the oldest entry leaves, when a scan is pushed on a full
    log. *)
Theorem scan_log_never_shrinks (evs more : list Event) :
  let before := rfidScans (state (run initialWorld evs)) in
  let after := rfidScans (state (run initialWorld (evs ++ more))) in
  List.length before <= List.length after /\ List.length after <= 100.
Proof.
  cbv zeta. unfold run. rewrite fold_left_app. fold (run initialWorld evs).
  fold (run (run initialWorld evs) more).
  assert (K : log_grows (run initialWorld evs) (run (run initialWorld evs) more)).
  { assert (Hr : forall w, log_grows w w) by (intros w H; split; [exact H | lia]).
    assert (Ht : forall a b c, log_grows a b -> log_grows b c -> log_grows a c).
    { intros a b c Hab Hbc H. destruct (Hab H) as [Hb Lb]. destruct (Hbc Hb) as [Hc Lc].
      split; [exact Hc | lia]. }
    assert (Hk : kept_outside_state log_grows).
    { apply state_frame_kept. intros a b E H. unfold log_bounded. rewrite E.
      split; [exact H | lia]. }
    apply (run_keeps_all log_grows);
      [exact Hr | exact Ht | exact Hk
      | intros k v a; apply (Hr a) | intros k a; apply (Hr a)
      | intros payload; apply keeps_handleGPSMessage;
          [exact Hr | exact Ht | exact Hk | intros f a; apply (Hr a)]
      | apply handleRFIDMessage_log_grows]. }
  destruct (K (reachable_log_bounded evs)) as [[_ Hb] Hl]. split; assumption.
Qed.

(** ** The status of a bus connection *)

Lemma inbox_emit_broadcast (sid s : nat) (m st : Msg) (w : World) :
  NoDup (sockets w) -> In sid (sockets w) ->
  inbox sid (snd (io_emit st (snd (socket_emit s m w))))
  = (inbox sid w ++ (if Nat.eqb s sid then [m] else []) ++ [st])%list.
Proof.
  intros Hn Hin. unfold socket_emit, io_emit, inbox. cbn [snd].
  destruct (existsb (Nat.eqb s) (sockets w)) eqn:E;
    unfold send; cbn [outbox sockets]; rewrite !filter_app, !map_app;
    rewrite (to_each_once sid st (sockets w) Hn Hin).
  - cbn [filter fst]. rewrite <- app_assoc. destruct (Nat.eqb s sid); reflexivity.
  - destruct (Nat.eqb_spec s sid) as [-> | _]; [| reflexivity].
    assert (C : existsb (Nat.eqb sid) (sockets w) = true)
      by (apply existsb_exists; exists sid; split; [exact Hin | apply Nat.eqb_refl]).
    rewrite C in E. discriminate E.
Qed.

(** X23.  What the viewers hear of a bus connection.  At a reachable state,
    when a live client whose two topics print subscribes, or a live client
    fails or goes offline, every connected viewer is sent the status
    ([connected], [error], [offline]), once, whether it asked for that
    connection or not; the acknowledgement [mqtt_connected] and the
    [mqtt_error] go, before the status, to the viewer that asked for the
    connection only.  When a topic of the client does not print, the log
    line of the subscription throws before anything is emitted: no viewer
    is sent anything and the process exits.  When the subscription fails
    nothing is sent to anyone. *)
Theorem bus_status_reaches_every_viewer (evs : list Event) (h : nat) (c : Client.t) (sid : nat) (e : Error) :
  let w := run initialWorld evs in
  let own (m : Msg) := if Nat.eqb (Client.socket c) sid then [m] else [] in
  exited w = false ->
  nth_error (clients w) h = Some c ->
  Client.ended c = false ->
  In sid (sockets w) ->
  (if printable (Client.gpsTopic c) && printable (Client.rfidTopic c)
   then inbox sid (step w (MqttConnect h None))
        = (inbox sid w ++ own mqtt_connected ++ [mqtt_status "connected" None])%list
        /\ exited (step w (MqttConnect h None)) = false
   else outbox (step w (MqttConnect h None)) = outbox w
        /\ exited (step w (MqttConnect h None)) = true)
  /\ inbox sid (step w (MqttConnect h (Some e))) = inbox sid w
  /\ inbox sid (step w (MqttError h e))
     = (inbox sid w ++ own (mqtt_error e) ++ [mqtt_status "error" (Some e)])%list
  /\ inbox sid (step w (MqttOffline h))
     = (inbox sid w ++ [mqtt_status "offline" None])%list.
Proof.
  intros w own Hex Hnth Hend Hin.
  destruct (reachable_fresh evs) as (_ & Hn & _). fold w in Hn.
  unfold step. rewrite Hex. unfold dispatch, with_client. rewrite Hnth, Hend.
  simpl andb. cbv iota.
  assert (E2 : on_mqtt_error c e w
               = (Normal tt,
                  snd (io_emit (mqtt_status "error" (Some e))
                         (snd (socket_emit (Client.socket c) (mqtt_error e)
                                 (snd (console_write ERROR "[MQTT] Error:" w)))))))
    by reflexivity.
  set (w1 := snd (console_write LOG "[MQTT] Connected to" w)).
  assert (E1 : on_mqtt_connect c None w
               = if printable (Client.gpsTopic c) && printable (Client.rfidTopic c)
                 then (Normal tt,
                       snd (io_emit (mqtt_status "connected" None)
                              (snd (socket_emit (Client.socket c) mqtt_connected
                                      (snd (console_write LOG
                                              "[MQTT] Subscribed to topics:" w1))))))
                 else (Throw TypeError, w1)).
  { unfold on_mqtt_connect. rewrite bind_run. unfold console_write at 1. cbv beta iota.
    fold (snd (console_write LOG "[MQTT] Connected to" w)). fold w1.
    rewrite bind_run.
    destruct (printable (Client.gpsTopic c)) eqn:Pg;
      [rewrite (interpolate_ok _ _ Pg), bind_run
      | rewrite (interpolate_fails _ _ Pg); reflexivity].
    destruct (printable (Client.rfidTopic c)) eqn:Pr;
      [rewrite (interpolate_ok _ _ Pr); reflexivity
      | rewrite (interpolate_fails _ _ Pr); reflexivity]. }
  rewrite E1, E2. split; [| split; [| split]].
  - destruct (printable (Client.gpsTopic c) && printable (Client.rfidTopic c));
      [| split; reflexivity].
    split.
    + apply (inbox_emit_broadcast sid (Client.socket c) mqtt_connected
               (mqtt_status "connected" None)
               (snd (console_write LOG "[MQTT] Subscribed to topics:" w1)));
        assumption.
    + unfold socket_emit, io_emit, send, w1. simpl.
      destruct (existsb (Nat.eqb (Client.socket c)) (sockets w)); exact Hex.
  - reflexivity.
  - apply (inbox_emit_broadcast sid (Client.socket c) (mqtt_error e)
             (mqtt_status "error" (Some e))
             (snd (console_write ERROR "[MQTT] Error:" w)));
      assumption.
  - unfold on_mqtt_offline. rewrite bind_run. unfold console_write at 1. cbv beta iota.
    unfold io_emit, inbox, send. cbn [snd fst outbox sockets].
    rewrite filter_app, map_app, (to_each_once sid _ (sockets w) Hn Hin). reflexivity.
Qed.

(** ** What a snapshot reflects *)





















End Server.

(** * Concrete runs *)

Example iso_2023 : isoFormat 1701266400000 = "2023-11-29T14:00:00.000Z".
Proof. reflexivity. Qed.

Example iso_epoch : isoFormat 0 = "1970-01-01T00:00:00.000Z".
Proof. reflexivity. Qed.

Example iso_before_epoch : isoFormat (-1) = "1969-12-31T23:59:59.999Z".
Proof. reflexivity. Qed.

Example iso_max : isoFormat maxTime = "+275760-09-13T00:00:00.000Z".
Proof. reflexivity. Qed.

Example date_seconds : Date_new (1701266400 * 1000)%float = Some 1701266400000%Z.
Proof. reflexivity. Qed.

Example date_fraction : Date_new (1.5 * 1000)%float = Some 1500%Z.
Proof. reflexivity. Qed.

Example date_nan : Date_new (nan * 1000)%float = None.
Proof. reflexivity. Qed.

Example date_too_large : Date_new (8640000000001 * 1000)%float = None.
Proof. reflexivity. Qed.

(** C1 on scans 1 to 101 applied at the start: 100 entries are kept, scan
    101 first, and scan 1 is gone. *)
Lemma scan_log_keeps_newest_witness :
  forallb (valid_rfid sampleStringToNumber sampleNumber_toString) scans101 = true
  /\ List.length scans101 = 101
  /\ map Scan.tagUID
       (rfidScans
          (state
             (apply_all (handleRFIDMessage sampleStringToNumber sampleNumber_toString)
                scans101 initialWorld)))
     = map (fun n => VNum (num_of_nat n)) (rev (seq 2 100)).
Proof.
  split; [vm_compute; reflexivity |]. split; [reflexivity |].
  pose proof (scan_log_keeps_newest sampleStringToNumber sampleNumber_toString
                [] scans101) as H.
  cbv zeta in H. destruct H as (_ & Hlog & _).
  - vm_compute. reflexivity.
  - vm_compute. lia.
  - change (run sampleStringToNumber sampleNumber_toString initialWorld [])
      with initialWorld in Hlog.
    rewrite Hlog. vm_compute. reflexivity.
Defined.

(** C2 on three position events: device_001, device_002, then device_001
    again with an older timestamp.  Two devices are held, and device_001
    has the latitude and the (older) timestamp of the event applied last. *)
Lemma devices_last_write_wins_witness :
  forallb (valid_gps sampleStringToNumber sampleNumber_toString)
    [firstPosition; otherPosition; latePosition] = true
  /\ (let m :=
        devices
          (state
             (apply_all (handleGPSMessage sampleStringToNumber sampleNumber_toString)
                [firstPosition; otherPosition; latePosition] initialWorld)) in
      JSMap.size m = 2
      /\ exists d,
          JSMap.get (KPrim (VStr "device_001")) m = Some d
          /\ Device.latitude d = VNum 13%float
          /\ Device.timestamp d = VNum 1701266000%float).
Proof.
  split; [vm_compute; reflexivity |].
  destruct (devices_last_write_wins sampleStringToNumber sampleNumber_toString
              initialWorld [firstPosition; otherPosition; latePosition])
    as [Hsize Hlast].
  - reflexivity.
  - vm_compute. reflexivity.
  - cbv zeta. split.
    + rewrite Hsize. reflexivity.
    + destruct (Hlast "device_001" latePosition) as (d & Hd & Hlat & _ & Hts);
        [reflexivity |].
      exists d. rewrite Hlat, Hts. repeat split. exact Hd.
Defined.

(** C3, as the spec has it, fails: a position whose latitude is the text
    "abc" passes the guard, and the message callback adds a device (on the
    GPS topic) or a scan (on the RFID topic). *)
Lemma text_coordinate_is_applied :
  Get textLatitude "lat" = VStr "abc"
  /\ JSMap.size (devices (state initialWorld)) = 0
  /\ JSMap.size
       (devices
          (state
             (exec (on_mqtt_message sampleStringToNumber sampleNumber_toString
                      busClient "devices/gps" (Some textLatitude)) initialWorld)))
     = 1
  /\ List.length (rfidScans (state initialWorld)) = 0
  /\ List.length
       (rfidScans
          (state
             (exec (on_mqtt_message sampleStringToNumber sampleNumber_toString
                      busClient "devices/rfid" (Some textLatitude)) initialWorld)))
     = 1.
Proof. repeat split; reflexivity. Qed.

(** C3 on a position without [lat]: the callback returns and nothing is
    stored or emitted. *)
Lemma missing_field_dropped_witness :
  gps_missing noLatitude = true
  /\ (let r := on_mqtt_message sampleStringToNumber sampleNumber_toString
                 busClient "devices/gps" (Some noLatitude) initialWorld in
      fst r = Normal tt /\ state (snd r) = initialState /\ outbox (snd r) = []).
Proof.
  split; [reflexivity |].
  apply (missing_field_dropped sampleStringToNumber sampleNumber_toString
           busClient "devices/gps" noLatitude initialWorld).
  reflexivity.
Defined.

(** C4, as the spec has it, fails: after two connect requests both clients
    are live and both are in the table; nothing was torn down. *)
Lemma two_live_connections :
  map Client.ended (clients (run sampleStringToNumber sampleNumber_toString
                               initialWorld twoConnections))
  = [false; false]
  /\ JSMap.size
       (mqttConnections
          (state (run sampleStringToNumber sampleNumber_toString
                    initialWorld twoConnections)))
     = 2.
Proof. split; reflexivity. Qed.

(** C4 on the second request of [twoConnections]. *)
Lemma connections_keyed_by_client_witness :
  JSMap.get (KPrim (VStr "b"))
    (mqttConnections
       (state (run sampleStringToNumber sampleNumber_toString initialWorld oneConnection)))
  = None
  /\ List.length
       (live_clients
          (step sampleStringToNumber sampleNumber_toString
             (run sampleStringToNumber sampleNumber_toString initialWorld oneConnection)
             (ConnectMqtt 0 (dashboardConfig "b") 1701266402000 true)))
     = 2.
Proof.
  split; [reflexivity |].
  pose proof (connections_keyed_by_client sampleStringToNumber sampleNumber_toString
                oneConnection 0 (dashboardConfig "b") 1701266402000) as H.
  cbv zeta in H. specialize (H eq_refl eq_refl eq_refl eq_refl eq_refl eq_refl).
  destruct H as (_ & _ & _ & Hlive & _).
  rewrite Hlive. reflexivity.
Defined.

(** C5 on a payload without [dTS], device_001 being in the map: both
    handlers throw; the scan is not logged, and the device is left with
    [undefined] as its timestamp beside the text of its old one. *)
Lemma absent_timestamp_throws_witness :
  let w := exec (handleGPSMessage sampleStringToNumber sampleNumber_toString
                   firstPosition) initialWorld in
  Get noTimestamp "dTS" = VUndefined
  /\ handleRFIDMessage sampleStringToNumber sampleNumber_toString noTimestamp w
     = (Throw RangeError, w)
  /\ fst (handleGPSMessage sampleStringToNumber sampleNumber_toString noTimestamp w)
     = Throw RangeError
  /\ map (fun d => (Device.timestamp d, Device.lastUpdate d))
       (JSMap.values
          (devices
             (state
                (exec (handleGPSMessage sampleStringToNumber sampleNumber_toString
                         noTimestamp) w))))
     = [(VUndefined, VStr "2023-11-29T14:00:00.000Z")].
Proof.
  intros w. split; [reflexivity |].
  destruct (absent_timestamp_throws sampleStringToNumber sampleNumber_toString
              noTimestamp w) as [Hrfid Hgps]; [reflexivity |].
  split; [apply Hrfid; reflexivity |].
  cbv zeta in Hgps. unfold exec. rewrite Hgps by reflexivity.
  split; reflexivity.
Defined.


(** C7: with one device and one scan held, a second connect request, the
    callbacks of its client, both closes and the shutdown leave them. *)
Lemma lifecycle_keeps_registry_witness :
  let w := run sampleStringToNumber sampleNumber_toString initialWorld
             (oneConnection
              ++ [MqttMessage 0 "devices/gps" (Some firstPosition);
                  MqttMessage 0 "devices/rfid" (Some (scanNumber 1))]) in
  let evs := [ConnectMqtt 0 (dashboardConfig "b") 1701266402000 true;
              MqttConnect 1 None; MqttError 1 ConnectError; MqttOffline 1;
              MqttClose 1; MqttClose 0; SIGTERM] in
  JSMap.size (devices (state w)) = 1
  /\ List.length (rfidScans (state w)) = 1
  /\ devices (state (run sampleStringToNumber sampleNumber_toString w evs))
     = devices (state w)
  /\ rfidScans (state (run sampleStringToNumber sampleNumber_toString w evs))
     = rfidScans (state w).
Proof.
  cbv zeta. split; [reflexivity |]. split; [reflexivity |].
  apply (lifecycle_keeps_registry sampleStringToNumber sampleNumber_toString).
  reflexivity.
Defined.

(** C8, as the spec has it, fails: the answer has no [busStatus]; what it
    says of the bus is a number, the size of the connection table. *)
Lemma stats_has_no_busStatus :
  Get (api_stats initialState 0) "busStatus" = VUndefined
  /\ Get (api_stats initialState 0) "mqttConnections" = VNum 0%float.
Proof. split; reflexivity. Qed.

(** C9 on a payload whose latitude is [0] and longitude [null]: neither
    guard rejects it. *)
Lemma guard_is_presence_check_witness :
  coercible zeroPosition = true
  /\ gps_invalid zeroPosition = false
  /\ rfid_invalid zeroPosition = false.
Proof.
  split; [reflexivity |].
  destruct (guard_is_presence_check sampleStringToNumber sampleNumber_toString
              zeroPosition initialWorld) as (_ & _ & H); [reflexivity |].
  destruct H as [Hg Hr].
  - reflexivity.
  - left. reflexivity.
  - right. left. reflexivity.
  - split; [exact Hg | apply Hr; reflexivity].
Defined.

(** X1: a viewer connects and sends a connect request with [null] as its
    config: the process exits, and the state is as it was. *)
Lemma connect_request_exits_iff_witness :
  let w := run sampleStringToNumber sampleNumber_toString initialWorld
             [Connection 1701266400000] in
  let w' := step sampleStringToNumber sampleNumber_toString w
              (ConnectMqtt 0 VNull 1701266401000 true) in
  exited w = false /\ exited w' = true /\ state w' = state w.
Proof.
  intros w w'. split; [reflexivity |].
  pose proof (connect_request_exits_iff sampleStringToNumber sampleNumber_toString
                0 VNull 1701266401000 true w) as H.
  cbv zeta in H. specialize (H eq_refl eq_refl). destruct H as [Hiff Hsame].
  assert (E : exited w' = true) by (apply Hiff; reflexivity).
  split; [exact E | apply (Hsame E)].
Defined.

(** X2: [mqtt.connect] throws on the request of the one viewer: the viewer has
    been sent the initial state and is now sent the error; no client and no
    table entry were made. *)
Lemma refused_connect_is_reported_witness :
  let w := run sampleStringToNumber sampleNumber_toString initialWorld
             [Connection 1701266400000] in
  let w' := step sampleStringToNumber sampleNumber_toString w
              (ConnectMqtt 0 (dashboardConfig "a") 1701266401000 false) in
  inbox 0 w' = [initial_state [] [] "2023-11-29T14:00:00.000Z"; mqtt_error ConnectError]
  /\ clients w' = []
  /\ JSMap.size (mqttConnections (state w')) = 0.
Proof.
  intros w w'.
  pose proof (refused_connect_is_reported sampleStringToNumber sampleNumber_toString
                0 (dashboardConfig "a") 1701266401000 w) as H.
  cbv zeta in H. specialize (H eq_refl eq_refl eq_refl).
  destruct H as (_ & Hst & Hcl & _ & Hou). fold w' in Hst, Hcl, Hou.
  unfold inbox. rewrite Hou, Hcl, Hst. repeat split; reflexivity.
Defined.

(** X3: the second request of [sameClientTwice]: the table still has one
    entry, now for client 1, and both clients are live. *)
Lemma reconnect_replaces_entry_witness :
  let w := run sampleStringToNumber sampleNumber_toString initialWorld oneConnection in
  let w' := step sampleStringToNumber sampleNumber_toString w
              (ConnectMqtt 0 (dashboardConfig "a") 1701266402000 true) in
  map Conn.client (JSMap.values (mqttConnections (state w))) = [0]
  /\ JSMap.size (mqttConnections (state w')) = 1
  /\ option_map Conn.client (JSMap.get (KPrim (VStr "a")) (mqttConnections (state w')))
     = Some 1
  /\ List.length (live_clients w') = 2.
Proof.
  intros w w'. split; [reflexivity |].
  pose proof (reconnect_replaces_entry sampleStringToNumber sampleNumber_toString
                oneConnection 0 (dashboardConfig "a") 1701266402000
                (Conn.mk 0 (VStr "mqtt://broker:1883") (VStr "devices/gps")
                   (VStr "devices/rfid") 1701266401000)) as H.
  cbv zeta in H. specialize (H eq_refl eq_refl eq_refl eq_refl).
  destruct H as (Hsize & Hget & _ & Hlive). fold w in Hsize, Hget, Hlive.
  fold w' in Hsize, Hget, Hlive.
  split; [rewrite Hsize; reflexivity | split; [| rewrite Hlive; reflexivity]].
  change (KPrim (VStr "a")) with (key_in (Get (dashboardConfig "a") "clientId") w).
  rewrite Hget. reflexivity.
Defined.

(** X4: after [sameClientTwice] the one entry of the table is for client 1.
    Client 0 closes: the entry is gone, and client 1, still live, is in no
    entry. *)
Lemma close_forgets_clientId_witness :
  let w := run sampleStringToNumber sampleNumber_toString initialWorld sameClientTwice in
  let w' := step sampleStringToNumber sampleNumber_toString w (MqttClose 0) in
  map Conn.client (JSMap.values (mqttConnections (state w))) = [1]
  /\ JSMap.get (KPrim (VStr "a")) (mqttConnections (state w')) = None
  /\ map Client.ended (clients w') = [false; false].
Proof.
  intros w w'. split; [reflexivity |].
  pose proof (close_forgets_clientId sampleStringToNumber sampleNumber_toString
                sameClientTwice 0 busClient) as H.
  cbv zeta in H. specialize (H eq_refl eq_refl). destruct H as (Hget & _ & Hcl).
  fold w in Hget, Hcl. fold w' in Hget, Hcl.
  split; [exact Hget |]. rewrite Hcl. reflexivity.
Defined.

(** X5: the shutdown after [sameClientTwice]: client 1, which the table holds,
    is ended; client 0, whose entry was replaced, is left live. *)
Lemma shutdown_ends_tracked_clients_witness :
  let w := run sampleStringToNumber sampleNumber_toString initialWorld sameClientTwice in
  let w' := exec on_SIGTERM w in
  option_map Client.ended (nth_error (clients w') 0) = Some false
  /\ option_map Client.ended (nth_error (clients w') 1) = Some true.
Proof.
  intros w w'.
  destruct (shutdown_ends_tracked_clients w 0) as (_ & _ & _ & H0).
  destruct (shutdown_ends_tracked_clients w 1) as (_ & _ & _ & H1).
  fold w' in H0, H1. rewrite H0, H1. split; reflexivity.
Defined.

(** X7: a scan arrives for a client whose RFID topic is its GPS topic: the
    position handler gets it, and no scan is logged. *)
Lemma message_routed_by_topic_witness :
  let w' := exec (on_mqtt_message sampleStringToNumber sampleNumber_toString
                    oneTopicClient "devices/all" (Some (scanNumber 1))) initialWorld in
  valid_rfid sampleStringToNumber sampleNumber_toString (scanNumber 1) = true
  /\ rfidScans (state w') = []
  /\ JSMap.size (devices (state w')) = 1.
Proof.
  intros w'. split; [reflexivity |]. split; [| reflexivity].
  apply (message_routed_by_topic sampleStringToNumber sampleNumber_toString
           oneTopicClient "devices/all" (Some (scanNumber 1)) initialWorld).
Defined.

(** X8: a position whose latitude is the text "abc": the handler throws a
    TypeError at its log line, with the device stored. *)
Lemma update_survives_failed_log_witness :
  let r := handleGPSMessage sampleStringToNumber sampleNumber_toString textLatitude
             initialWorld in
  applied_gps sampleStringToNumber sampleNumber_toString textLatitude = true
  /\ fst r = Throw TypeError
  /\ map Device.latitude (JSMap.values (devices (state (snd r)))) = [VStr "abc"].
Proof.
  intros r. split; [reflexivity |].
  destruct (update_survives_failed_log sampleStringToNumber sampleNumber_toString
              textLatitude initialWorld) as [H _].
  cbv zeta in H. destruct (H eq_refl) as (Hfst & Hdev & _). fold r in Hfst, Hdev.
  rewrite Hfst, Hdev. split; reflexivity.
Defined.

(** X9: the first position of device_001 at the start: the device is listed,
    and the devices query counts one. *)
Lemma position_is_listed_witness :
  let w' := exec (handleGPSMessage sampleStringToNumber sampleNumber_toString firstPosition)
              initialWorld in
  applied_gps sampleStringToNumber sampleNumber_toString firstPosition = true
  /\ JSMap.size (devices (state w')) = 1
  /\ Get (api_devices (state w')) "devices"
     = VArr [VObj [("deviceId", VStr "device_001"); ("latitude", VNum 12.9375%float);
                   ("longitude", VNum 77.625%float);
                   ("timestamp", VNum 1701266400%float);
                   ("lastUpdate", VStr "2023-11-29T14:00:00.000Z")]].
Proof.
  intros w'. split; [reflexivity |].
  pose proof (position_is_listed sampleStringToNumber sampleNumber_toString
                firstPosition initialWorld) as H.
  cbv zeta in H. specialize (H eq_refl). destruct H as (_ & _ & Hsize & _).
  fold w' in Hsize. split; [rewrite Hsize; reflexivity | reflexivity].
Defined.

(** X10: scan 1 at the start heads the log and is what the one viewer is
    sent. *)
Lemma scan_is_listed_first_witness :
  let w := run sampleStringToNumber sampleNumber_toString initialWorld
             [Connection 1701266400000] in
  let w' := exec (handleRFIDMessage sampleStringToNumber sampleNumber_toString
                    (scanNumber 1)) w in
  valid_rfid sampleStringToNumber sampleNumber_toString (scanNumber 1) = true
  /\ map Scan.tagUID (rfidScans (state w')) = [VNum 1%float]
  /\ map is_update (inbox 0 w') = [false; true].
Proof.
  intros w w'. split; [reflexivity |].
  pose proof (scan_is_listed_first sampleStringToNumber sampleNumber_toString
                [Connection 1701266400000] (scanNumber 1)) as H.
  cbv zeta in H. specialize (H eq_refl). destruct H as (Hlog & _ & Hou).
  fold w in Hlog, Hou. fold w' in Hlog, Hou.
  unfold inbox. rewrite Hlog, Hou. split; reflexivity.
Defined.

(** X16: the viewer that asked for the connection leaves and the shutdown
    comes: the entry of the connection is still in the table. *)
Lemma entries_leave_only_on_close_witness :
  let w := run sampleStringToNumber sampleNumber_toString initialWorld oneConnection in
  exists added,
    JSMap.keys
      (mqttConnections
         (state (run sampleStringToNumber sampleNumber_toString w [Disconnect 0; SIGTERM])))
    = (KPrim (VStr "a") :: added)%list.
Proof.
  intros w.
  destruct (entries_leave_only_on_close sampleStringToNumber sampleNumber_toString
              w [Disconnect 0; SIGTERM]) as [added H]; [reflexivity |].
  exists added. rewrite H. reflexivity.
Defined.

(** X17: the viewer that asked for the connection leaves; a position then
    arrives on the connection: it is applied, and the viewer is sent
    nothing. *)
Lemma departed_viewer_gets_nothing_witness :
  let w := run sampleStringToNumber sampleNumber_toString initialWorld oneConnection in
  let w' := run sampleStringToNumber sampleNumber_toString
              (step sampleStringToNumber sampleNumber_toString w (Disconnect 0))
              [MqttMessage 0 "devices/gps" (Some firstPosition); MqttOffline 0] in
  JSMap.size (devices (state w')) = 1
  /\ inbox 0 w' = [initial_state [] [] "2023-11-29T14:00:00.000Z"].
Proof.
  intros w w'. split; [reflexivity |].
  pose proof (departed_viewer_gets_nothing sampleStringToNumber sampleNumber_toString
                oneConnection
                [MqttMessage 0 "devices/gps" (Some firstPosition); MqttOffline 0] 0) as H.
  cbv zeta in H. destruct H as [H _]; [reflexivity | left; reflexivity |].
  fold w in H. fold w' in H. rewrite H. reflexivity.
Defined.

(** X18: device_001, device_002, then device_001 again: device_001 stays
    first. *)
Lemma devices_in_order_of_first_appearance_witness :
  map Device.deviceId
    (JSMap.values
       (devices
          (state
             (apply_all (handleGPSMessage sampleStringToNumber sampleNumber_toString)
                [firstPosition; otherPosition; latePosition] initialWorld))))
  = [VStr "device_001"; VStr "device_002"].
Proof.
  rewrite (devices_in_order_of_first_appearance sampleStringToNumber sampleNumber_toString
             initialWorld [firstPosition; otherPosition; latePosition]);
    reflexivity.
Defined.

(** X19: a position whose [dID] is an object, applied twice at the start: two
    devices.  The first position of device_001, applied twice: one. *)
Lemma replayed_position_witness :
  let gps := handleGPSMessage sampleStringToNumber sampleNumber_toString in
  JSMap.size (devices (state (exec (gps objectIdPosition)
                                (exec (gps objectIdPosition) initialWorld)))) = 2
  /\ JSMap.size (devices (state (exec (gps firstPosition)
                                   (exec (gps firstPosition) initialWorld)))) = 1.
Proof.
  intros gps.
  pose proof (replayed_position sampleStringToNumber sampleNumber_toString
                [] objectIdPosition) as Ho.
  pose proof (replayed_position sampleStringToNumber sampleNumber_toString
                [] firstPosition) as Hs.
  cbv zeta in Ho, Hs. specialize (Ho eq_refl). specialize (Hs eq_refl).
  change (is_reference (Get objectIdPosition "dID")) with true in Ho.
  change (is_reference (Get firstPosition "dID")) with false in Hs.
  cbv iota in Ho, Hs. destruct Ho as [_ Ho].
  change (run sampleStringToNumber sampleNumber_toString initialWorld [])
    with initialWorld in Ho, Hs.
  fold gps in Ho, Hs. rewrite Ho, Hs. split; reflexivity.
Defined.

(** X21: device_001 is in the map; a position of it arrives with a [dTS]
    beyond the range of dates: its record has the new latitude and
    timestamp beside the text of the old date. *)
Lemma failed_date_leaves_partial_update_witness :
  let w := exec (handleGPSMessage sampleStringToNumber sampleNumber_toString
                   firstPosition) initialWorld in
  let r := handleGPSMessage sampleStringToNumber sampleNumber_toString
             farFuturePosition w in
  fst r = Throw RangeError
  /\ option_map (fun d => (Device.latitude d, Device.timestamp d, Device.lastUpdate d))
       (JSMap.get (KPrim (VStr "device_001")) (devices (state (snd r))))
     = Some (VNum 13%float, VNum 8640000000001%float, VStr "2023-11-29T14:00:00.000Z").
Proof.
  intros w r. split; [reflexivity |].
  pose proof (failed_date_leaves_partial_update sampleStringToNumber sampleNumber_toString
                farFuturePosition
                (device_of sampleStringToNumber sampleNumber_toString firstPosition) w)
    as H.
  cbv zeta in H. specialize (H eq_refl eq_refl eq_refl). destruct H as (_ & Hget & _).
  fold r in Hget.
  change (key_in (Get farFuturePosition "dID") w) with (KPrim (VStr "device_001")) in Hget.
  rewrite Hget. reflexivity.
Defined.

(** X20: scan 1 applied twice at the start: two entries. *)
Lemma replayed_scan_is_logged_twice_witness :
  let rfid := handleRFIDMessage sampleStringToNumber sampleNumber_toString in
  map Scan.tagUID
    (rfidScans (state (exec (rfid (scanNumber 1)) (exec (rfid (scanNumber 1)) initialWorld))))
  = [VNum 1%float; VNum 1%float].
Proof.
  intros rfid.
  pose proof (replayed_scan_is_logged_twice sampleStringToNumber sampleNumber_toString
                [] (scanNumber 1)) as H.
  cbv zeta in H. specialize (H eq_refl).
  change (run sampleStringToNumber sampleNumber_toString initialWorld [])
    with initialWorld in H.
  fold rfid in H. rewrite H. reflexivity.
Defined.

(** X23: two viewers are connected, the first has asked for the connection.
    Its client subscribes: the first viewer is sent the acknowledgement and
    the status, the second the status.  Its client fails: the first viewer
    is sent the error and the status, the second the status.  Had the
    connection been asked for with a GPS topic that does not print, the
    subscription would have stopped the process with nothing emitted. *)
Lemma bus_status_reaches_every_viewer_witness :
  let w := run sampleStringToNumber sampleNumber_toString initialWorld
             (oneConnection ++ [Connection 1701266403000]) in
  let subscribed := step sampleStringToNumber sampleNumber_toString w (MqttConnect 0 None) in
  let failed := step sampleStringToNumber sampleNumber_toString w (MqttError 0 ConnectError) in
  let u := run sampleStringToNumber sampleNumber_toString initialWorld
             [Connection 1701266400000;
              ConnectMqtt 0 unprintableTopicConfig 1701266401000 true] in
  let stopped := step sampleStringToNumber sampleNumber_toString u (MqttConnect 0 None) in
  tl (inbox 0 subscribed) = [mqtt_connected; mqtt_status "connected" None]
  /\ tl (inbox 1 subscribed) = [mqtt_status "connected" None]
  /\ tl (inbox 0 failed) = [mqtt_error ConnectError; mqtt_status "error" (Some ConnectError)]
  /\ tl (inbox 1 failed) = [mqtt_status "error" (Some ConnectError)]
  /\ exited u = false /\ exited stopped = true /\ outbox stopped = outbox u.
Proof.
  intros w subscribed failed u stopped.
  pose proof (bus_status_reaches_every_viewer sampleStringToNumber sampleNumber_toString
                (oneConnection ++ [Connection 1701266403000]) 0 busClient 0 ConnectError)
    as H0.
  pose proof (bus_status_reaches_every_viewer sampleStringToNumber sampleNumber_toString
                (oneConnection ++ [Connection 1701266403000]) 0 busClient 1 ConnectError)
    as H1.
  pose proof (bus_status_reaches_every_viewer sampleStringToNumber sampleNumber_toString
                [Connection 1701266400000;
                 ConnectMqtt 0 unprintableTopicConfig 1701266401000 true]
                0 unprintableTopicClient 0 ConnectError)
    as H2.
  cbv zeta in H0, H1, H2.
  specialize (H0 eq_refl eq_refl eq_refl (or_introl eq_refl)).
  specialize (H1 eq_refl eq_refl eq_refl (or_intror (or_introl eq_refl))).
  specialize (H2 eq_refl eq_refl eq_refl (or_introl eq_refl)).
  destruct H0 as (C0 & _ & H0 & _). destruct H1 as (C1 & _ & H1 & _).
  destruct H2 as (C2 & _).
  change (printable sampleNumber_toString (Client.gpsTopic busClient)
          && printable sampleNumber_toString (Client.rfidTopic busClient))
    with true in C0, C1.
  change (printable sampleNumber_toString (Client.gpsTopic unprintableTopicClient)
          && printable sampleNumber_toString (Client.rfidTopic unprintableTopicClient))
    with false in C2.
  cbv iota in C0, C1, C2.
  destruct C0 as [C0 _]. destruct C1 as [C1 _]. destruct C2 as [O2 E2].
  fold w in C0, C1, H0, H1. fold subscribed in C0, C1. fold failed in H0, H1.
  fold u in O2, E2. fold stopped in O2, E2.
  rewrite C0, C1, H0, H1, E2, O2. repeat split; reflexivity.
Defined.
